(** * Realtime room engine of the AI persona chatroom (server/websocket.ts)

    A shallow embedding of [setupWebsockets] and of the handlers it
    installs: [handleJoinRoom], [handleLeaveRoom], [handleSendMessage],
    [handleSendAttachment], [handleSendVoiceMessage], together with the
    helpers [broadcastToRoom], [sendRoomHistory], [broadcastActiveUsers]
    and [sendErrorToClient].

    The handlers are written in a small state-and-exception monad over a
    [World] that holds the set of live sockets ([wss.clients]), the storage
    collaborator, and the chronological trace of observable effects (frames
    written to sockets, records created, calls of the text generator).
    One handler invocation is run to completion: interleaving of several
    in-flight asynchronous handlers is outside this model. *)

From stdpp Require Import gmap gmultiset strings list sorting.
From Stdlib Require Import ZArith Lia.

Local Open Scope string_scope.
Local Open Scope list_scope.
Local Open Scope Z_scope.

(** ** Data model *)

Abbreviation UserID := string (only parsing).
Abbreviation RoomID := Z (only parsing).
Abbreviation PersonaID := Z (only parsing).

Record User := mkUser {
  user_id : UserID;
  user_name : string
}.

Record Persona := mkPersona {
  persona_id : PersonaID;
  persona_name : string;
  persona_description : string;
  persona_samplePrompt : string
}.

(** A stored message row.  [msg_userId] / [msg_personaId] are the optional
    author columns of [createMessage]'s argument. *)
Record Message := mkMessage {
  msg_id : Z;
  msg_roomId : RoomID;
  msg_userId : option UserID;
  msg_personaId : option PersonaID;
  msg_message : string;
  msg_createdAt : Z;
  msg_starred : bool
}.

Record InsertMessage := mkInsertMessage {
  im_roomId : RoomID;
  im_userId : option UserID;
  im_personaId : option PersonaID;
  im_message : string
}.

Record Attachment := mkAttachment {
  att_id : Z;
  att_messageId : Z;
  att_url : string;
  att_fileName : string;
  att_fileSize : Z;
  att_fileType : string;
  att_attachmentType : string
}.

Record InsertAttachment := mkInsertAttachment {
  ia_messageId : Z;
  ia_url : string;
  ia_fileName : string;
  ia_fileSize : Z;
  ia_fileType : string;
  ia_attachmentType : string
}.

(** [ChatMessage]: a message row spread together with its embedded author,
    persona and attachments ([{...userMessage, user}] and the like). *)
Record ChatMessage := mkChatMessage {
  cm_msg : Message;
  cm_user : option User;
  cm_persona : option Persona;
  cm_attachments : list Attachment
}.

(** Outbound wire events ([{type, payload}] written to a socket). *)
Inductive Event :=
  | pong
  | user_joined (userId : UserID) (roomId : RoomID)
  | user_left (userId : UserID) (roomId : RoomID)
  | room_history (messages : list ChatMessage)
  | active_users (roomId : RoomID) (activeUsers : list UserID)
  | new_message (payload : ChatMessage)
  | persona_typing (personaId : PersonaID) (roomId : RoomID)
  | ai_error (personaId : PersonaID) (error : string)
  | error (message : string).

(** Inbound envelopes after [JSON.parse], one constructor per case of the
    dispatcher's [switch]; [fileType] and [personaId] may be absent.  The
    payload has the shape the handler declares for it: a frame that
    parses but whose payload is missing, or whose [join_room] payload
    lacks [userId], makes the handler throw outside its own [try] and is
    not an inhabitant of this type. *)
Inductive WSMessage :=
  | join_room (userId : UserID) (roomId : RoomID)
  | leave_room
  | send_message (message : string) (personaId : option PersonaID)
  | send_attachment (url fileName : string) (fileSize : Z)
      (fileType attachmentType : string)
  | send_voice_message (url fileName : string) (fileSize : Z)
      (fileType : option string)
  | ping
  | unknown_type (type : string).

Inductive ReadyState := CONNECTING | OPEN | CLOSING | CLOSED.

(** [WebSocketClient]: a socket with the two optional fields the server
    hangs on it.  [cid] names the JavaScript object. *)
Record WebSocketClient := mkClient {
  cid : nat;
  userId : option UserID;
  roomId : option RoomID;
  readyState : ReadyState
}.

(** Observable effects, in the order they happen. *)
Inductive Effect :=
  | Send (to : nat) (ev : Event)
  | CreatedMessage (m : Message)
  | CreatedAttachment (a : Attachment)
  | Generate (persona : Persona) (context : list ChatMessage).

(** JavaScript truthiness of the values the guards test. *)
Definition truthy_string (s : string) : bool := negb (String.eqb s "").
Definition truthy_num (z : Z) : bool := negb (z =? 0).

Definition truthy_ostring (o : option string) : bool :=
  match o with Some s => truthy_string s | None => false end.
Definition truthy_onum (o : option Z) : bool :=
  match o with Some z => truthy_num z | None => false end.

Definition is_open (c : WebSocketClient) : bool :=
  match readyState c with OPEN => true | _ => false end.

(** [client.roomId === roomId] *)
Definition in_room (r : RoomID) (c : WebSocketClient) : bool :=
  match roomId c with Some r' => r' =? r | None => false end.

(** ** The storage collaborator *)

(** Modelled from the spec: the [storage] module ([./storage]) is not part
    of the sources.  Its state is the tables of users, rooms, room members
    and personas, the message and attachment tables (newest row first) with
    their id counters and creation clock, and the Room Presence Tracker,
    which the spec describes as a reference count per (roomId, userId): a
    multiset of registrations. *)
Record Storage := mkStorage {
  users : list User;
  chatrooms : list RoomID;
  members : list (RoomID * UserID);
  personas : list Persona;
  messages : list Message;
  attachments : list Attachment;
  nextMessageId : Z;
  nextAttachmentId : Z;
  clock : Z;
  presence : gmultiset (RoomID * UserID)
}.

Definition set_presence (p : gmultiset (RoomID * UserID)) (s : Storage) : Storage :=
  mkStorage (users s) (chatrooms s) (members s) (personas s) (messages s)
    (attachments s) (nextMessageId s) (nextAttachmentId s) (clock s) p.

(** Modelled from the spec: [addActiveUser(roomId, userId)] of the absent
    storage module takes one more reference on the pair. *)
Definition addActiveUser (r : RoomID) (u : UserID) (s : Storage) : Storage :=
  set_presence (presence s ⊎ {[+ (r, u) +]}) s.

(** Modelled from the spec: [removeActiveUser(roomId, userId)] of the
    absent storage module drops one reference; the user leaves the active
    set when the last reference is dropped; nothing happens at zero. *)
Definition removeActiveUser (r : RoomID) (u : UserID) (s : Storage) : Storage :=
  set_presence (presence s ∖ {[+ (r, u) +]}) s.

(** Modelled from the spec: [getActiveUsers(roomId)] of the absent storage
    module lists the users holding at least one reference in the room. *)
Definition getActiveUsers (r : RoomID) (s : Storage) : list UserID :=
  (elements (dom (presence s))) ≫= (fun p => if decide (p.1 = r) then [p.2] else []).

(** Modelled from the spec: [getUser(id)] of the absent storage module;
    [undefined] when there is no such row. *)
Definition getUser (u : UserID) (s : Storage) : option User :=
  List.find (fun x => String.eqb (user_id x) u) (users s).

(** Modelled from the spec: [getPersona(id)] of the absent storage module. *)
Definition getPersona (p : PersonaID) (s : Storage) : option Persona :=
  List.find (fun x => persona_id x =? p) (personas s).

(** Modelled from the spec: the row [createMessage] of the absent storage
    module makes, with the next id and the creation time. *)
Definition new_row (i : InsertMessage) (s : Storage) : Message :=
  mkMessage (nextMessageId s) (im_roomId i) (im_userId i) (im_personaId i)
    (im_message i) (clock s) false.

(** Modelled from the spec: [createMessage] stores the new row first. *)
Definition createMessage (i : InsertMessage) (s : Storage) : Message * Storage :=
  let m := new_row i s in
  (m, mkStorage (users s) (chatrooms s) (members s) (personas s)
        (m :: messages s) (attachments s)
        (nextMessageId s + 1) (nextAttachmentId s) (clock s + 1) (presence s)).

(** Modelled from the spec: the row [createAttachment] of the absent
    storage module makes. *)
Definition new_attachment (i : InsertAttachment) (s : Storage) : Attachment :=
  mkAttachment (nextAttachmentId s) (ia_messageId i) (ia_url i) (ia_fileName i)
    (ia_fileSize i) (ia_fileType i) (ia_attachmentType i).

Definition has_message (id : Z) (s : Storage) : bool :=
  existsb (fun m => msg_id m =? id) (messages s).

(** Modelled from the spec: [createAttachment] of the absent storage
    module; the parent message must already exist (referential ordering),
    otherwise the creation fails. *)
Definition createAttachment (i : InsertAttachment) (s : Storage)
  : option (Attachment * Storage) :=
  if has_message (ia_messageId i) s then
    let a := new_attachment i s in
    Some (a, mkStorage (users s) (chatrooms s) (members s) (personas s)
               (messages s) (a :: attachments s)
               (nextMessageId s) (nextAttachmentId s + 1) (clock s) (presence s))
  else None.

(** Modelled from the spec: a stored message with its embedded author,
    persona and attachments, as [room_history] and [new_message] carry it. *)
Definition embed (s : Storage) (m : Message) : ChatMessage :=
  mkChatMessage m
    (match msg_userId m with Some u => getUser u s | None => None end)
    (match msg_personaId m with Some p => getPersona p s | None => None end)
    (List.filter (fun a => att_messageId a =? msg_id m) (attachments s)).

(** Modelled from the spec: [getMessagesByRoom(roomId, limit?)] of the
    absent storage module returns the room's messages, most recent first,
    at most [limit] of them when a limit is given. *)
Definition getMessagesByRoom (r : RoomID) (limit : option nat) (s : Storage)
  : list ChatMessage :=
  let rows := List.filter (fun m => msg_roomId m =? r) (messages s) in
  List.map (embed s) (match limit with Some n => take n rows | None => rows end).

(** ** The world and the handler monad *)

Inductive exn := StorageError | GenerationError | DecodeError.

Inductive result (A : Type) :=
  | Ok (a : A)
  | Throw (e : exn).
Arguments Ok {A} a.
Arguments Throw {A} e.

(** What the collaborators do during a run: [fails n] tells whether the
    [n]-th awaited collaborator call (storage or generator, counted from
    the start of the run) rejects, and [reply] is the text the generation
    capability returns when it does not. *)
Record Env := mkEnv {
  fails : nat -> bool;
  reply : Persona -> list ChatMessage -> string
}.

(** [clients] is [wss.clients] in insertion order; [tick] counts the
    awaited collaborator calls made so far. *)
Record World := mkWorld {
  clients : list WebSocketClient;
  storage : Storage;
  tick : nat;
  trace : list Effect
}.

(** A computation may change the world and then either return or throw;
    what it changed before throwing stays changed. *)
Definition M (A : Type) : Type := World -> result A * World.

Definition ret {A} (a : A) : M A := fun w => (Ok a, w).

Definition bind {A B} (m : M A) (k : A -> M B) : M B :=
  fun w => match m w with
           | (Ok a, w') => k a w'
           | (Throw e, w') => (Throw e, w')
           end.

Definition throw {A} (e : exn) : M A := fun w => (Throw e, w).

(** [try { m } catch (e) { h e }] *)
Definition try_catch {A} (m : M A) (h : exn -> M A) : M A :=
  fun w => match m w with
           | (Ok a, w') => (Ok a, w')
           | (Throw e, w') => h e w'
           end.

(** The settled state of a promise that was started but not yet awaited,
    and the [await] of a promise that has settled. *)
Definition settle {A} (m : M A) : M (result A) :=
  fun w => match m w with (r, w') => (Ok r, w') end.

Definition settled {A} (r : result A) : M A := fun w => (r, w).

Notation "'let*' x := m 'in' k" := (bind m (fun x => k))
  (at level 10, x name, m at level 100, k at level 200).
Notation "m >>> k" := (bind m (fun _ => k))
  (at level 100, k at level 200, right associativity).

Definition emit (l : list Effect) : M unit :=
  fun w => (Ok tt, mkWorld (clients w) (storage w) (tick w) (trace w ++ l)%list).

Definition get_storage : M Storage := fun w => (Ok (storage w), w).

Definition set_storage (s : Storage) : M unit :=
  fun w => (Ok tt, mkWorld (clients w) s (tick w) (trace w)).

(** The socket object [ws] named [c]. *)
Definition lookup_ws (c : nat) (l : list WebSocketClient) : WebSocketClient :=
  default (mkClient c None None CLOSED)
          (List.find (fun x => Nat.eqb (cid x) c) l).

Definition get_ws (c : nat) : M WebSocketClient :=
  fun w => (Ok (lookup_ws c (clients w)), w).

(** Assignment to the fields of the socket object named [c]. *)
Definition update_ws (c : nat) (f : WebSocketClient -> WebSocketClient) : M unit :=
  fun w => (Ok tt,
            mkWorld (List.map (fun x => if Nat.eqb (cid x) c then f x else x) (clients w))
                    (storage w) (tick w) (trace w)).

Definition set_room (u : option UserID) (r : option RoomID)
    (x : WebSocketClient) : WebSocketClient :=
  mkClient (cid x) u r (readyState x).

Definition set_readyState (st : ReadyState) (x : WebSocketClient) : WebSocketClient :=
  mkClient (cid x) (userId x) (roomId x) st.

(** [ws.send(JSON.stringify(ev))]: the transport writes the frame when the
    socket is open and drops it otherwise. *)
Definition ws_send (c : nat) (ev : Event) : M unit :=
  let* ws := get_ws c in
  if is_open ws then emit [Send c ev] else ret tt.

Section Server.

Variable env : Env.

(** An awaited storage call: it rejects when the environment says so,
    leaving the store as it was. *)
Definition await {A} (f : Storage -> option (A * Storage)) : M A :=
  fun w =>
    let w' := mkWorld (clients w) (storage w) (S (tick w)) (trace w) in
    if fails env (tick w) then (Throw StorageError, w')
    else match f (storage w) with
         | Some (a, s') => (Ok a, mkWorld (clients w) s' (S (tick w)) (trace w))
         | None => (Throw StorageError, w')
         end.

Definition storage_createMessage (i : InsertMessage) : M Message :=
  let* m := await (fun s => Some (createMessage i s)) in
  emit [CreatedMessage m] >>>
  ret m.

Definition storage_createAttachment (i : InsertAttachment) : M Attachment :=
  let* a := await (createAttachment i) in
  emit [CreatedAttachment a] >>>
  ret a.

Definition storage_getUser (u : UserID) : M (option User) :=
  await (fun s => Some (getUser u s, s)).

Definition storage_getPersona (p : PersonaID) : M (option Persona) :=
  await (fun s => Some (getPersona p s, s)).

Definition storage_getMessagesByRoom (r : RoomID) (limit : option nat)
  : M (list ChatMessage) :=
  await (fun s => Some (getMessagesByRoom r limit s, s)).

(** Modelled from the spec: [generateAIResponse(persona, context)] of the
    absent [./openai] module returns reply text or fails. *)
Definition generateAIResponse (persona : Persona) (context : list ChatMessage)
  : M string :=
  emit [Generate persona context] >>>
  fun w =>
    let w' := mkWorld (clients w) (storage w) (S (tick w)) (trace w) in
    if fails env (tick w) then (Throw GenerationError, w')
    else (Ok (reply env persona context), w').

(** ** Helpers of [setupWebsockets] *)

(** [broadcastToRoom]: every client whose [roomId] is the room and whose
    socket is open gets the frame, in the order of [wss.clients]. *)
Definition recipients (r : RoomID) (l : list WebSocketClient) : list nat :=
  List.map cid (List.filter (fun c => in_room r c && is_open c) l).

Definition broadcastToRoom (r : RoomID) (ev : Event) : M unit :=
  fun w => emit (List.map (fun c => Send c ev) (recipients r (clients w))) w.

Definition sendErrorToClient (c : nat) (errorMessage : string) : M unit :=
  let* ws := get_ws c in
  if is_open ws then ws_send c (error errorMessage) else ret tt.

Definition broadcastActiveUsers (r : RoomID) : M unit :=
  let* s := get_storage in
  broadcastToRoom r (active_users r (getActiveUsers r s)).

(** [sendRoomHistory] is an [async] function that the join handler does not
    await.  It runs up to its [await], where the storage read is issued,
    and resumes, once the read has settled, after the caller has run on. *)
Definition sendRoomHistory_issue (r : RoomID) : M (result (list ChatMessage)) :=
  settle (storage_getMessagesByRoom r None).

Definition sendRoomHistory_resume (c : nat) (res : result (list ChatMessage))
  : M unit :=
  try_catch
    (let* msgs := settled res in
     ws_send c (room_history msgs))
    (fun _ => sendErrorToClient c "Failed to load room history").

(** ** Handlers *)

Definition handleJoinRoom (c : nat) (u : UserID) (r : RoomID) : M unit :=
  update_ws c (set_room (Some u) (Some r)) >>>
  let* s := get_storage in
  set_storage (addActiveUser r u s) >>>
  broadcastToRoom r (user_joined u r) >>>
  let* pending := sendRoomHistory_issue r in
  broadcastActiveUsers r >>>
  sendRoomHistory_resume c pending.

Definition handleLeaveRoom (c : nat) : M unit :=
  let* ws := get_ws c in
  match userId ws, roomId ws with
  | Some u, Some r =>
      if truthy_string u && truthy_num r then
        let* s := get_storage in
        set_storage (removeActiveUser r u s) >>>
        broadcastToRoom r (user_left u r) >>>
        broadcastActiveUsers r >>>
        update_ws c (set_room None None)
      else ret tt
  | _, _ => ret tt
  end.

Definition fallback_text : string :=
  "I'm having trouble accessing my knowledge. Please try again later.".

(** The body of the inner [try] of [handleSendMessage] (lines 145-199). *)
Definition generate_reply (c : nat) (r : RoomID) (p : PersonaID)
    (userMessage : Message) (user : option User) : M unit :=
  broadcastToRoom r (persona_typing p r) >>>
  let* persona := storage_getPersona p in
  match persona with
  | None => sendErrorToClient c "Persona not found"
  | Some persona =>
      let specialContext := [mkChatMessage userMessage user None []] in
      let* previousMessages := storage_getMessagesByRoom r (Some 5%nat) in
      let filteredPreviousMessages :=
        take 3 (List.filter
                  (fun msg => negb (msg_id (cm_msg msg) =? msg_id userMessage))
                  previousMessages) in
      let aiContext := (specialContext ++ filteredPreviousMessages)%list in
      let* aiResponse := generateAIResponse persona aiContext in
      let* aiMessage := storage_createMessage (mkInsertMessage r None (Some p) aiResponse) in
      broadcastToRoom r (new_message (mkChatMessage aiMessage None (Some persona) []))
  end.

(** The [catch] of that [try] (lines 200-233). *)
Definition fallback_reply (r : RoomID) (p : PersonaID) : M unit :=
  try_catch
    (let* persona := storage_getPersona p in
     let* errorMessage := storage_createMessage (mkInsertMessage r None (Some p) fallback_text) in
     broadcastToRoom r (new_message (mkChatMessage errorMessage None persona [])))
    (fun _ => broadcastToRoom r (ai_error p "Failed to generate AI response")).

Definition handleSendMessage (c : nat) (message : string)
    (personaId : option PersonaID) : M unit :=
  let* ws := get_ws c in
  match userId ws, roomId ws with
  | Some u, Some r =>
      if truthy_string u && truthy_num r then
        try_catch
          (let* userMessage := storage_createMessage (mkInsertMessage r (Some u) None message) in
           let* user := storage_getUser u in
           broadcastToRoom r (new_message (mkChatMessage userMessage user None [])) >>>
           match personaId with
           | Some p =>
               if truthy_num p then
                 try_catch (generate_reply c r p userMessage user)
                           (fun _ => fallback_reply r p)
               else ret tt
           | None => ret tt
           end)
          (fun _ => sendErrorToClient c "Failed to process your message")
      else sendErrorToClient c "You must join a room before sending messages"
  | _, _ => sendErrorToClient c "You must join a room before sending messages"
  end.

Definition validTypes : list string :=
  ["image"; "audio"; "video"; "document"; "voice_message"].

Definition handleSendAttachment (c : nat) (url fileName : string) (fileSize : Z)
    (fileType attachmentType : string) : M unit :=
  let* ws := get_ws c in
  match userId ws, roomId ws with
  | Some u, Some r =>
      if truthy_string u && truthy_num r then
        try_catch
          (if negb (existsb (String.eqb attachmentType) validTypes) then
             sendErrorToClient c "Invalid attachment type"
           else
             let* message := storage_createMessage
                          (mkInsertMessage r (Some u) None (String.append "Sent " attachmentType)) in
             let* attachment := storage_createAttachment
                             (mkInsertAttachment (msg_id message) url fileName fileSize
                                                 fileType attachmentType) in
             let* user := storage_getUser u in
             broadcastToRoom r (new_message (mkChatMessage message user None [attachment])))
          (fun _ => sendErrorToClient c "Failed to process attachment")
      else sendErrorToClient c "You must join a room before sending attachments"
  | _, _ => sendErrorToClient c "You must join a room before sending attachments"
  end.

(** [fileType || 'audio/webm'] *)
Definition fileType_or_default (fileType : option string) : string :=
  match fileType with
  | Some t => if truthy_string t then t else "audio/webm"
  | None => "audio/webm"
  end.

Definition handleSendVoiceMessage (c : nat) (url fileName : string) (fileSize : Z)
    (fileType : option string) : M unit :=
  let* ws := get_ws c in
  match userId ws, roomId ws with
  | Some u, Some r =>
      if truthy_string u && truthy_num r then
        try_catch
          (let* insertedMessage := storage_createMessage
                                (mkInsertMessage r (Some u) None "Voice message") in
           let* attachment := storage_createAttachment
                           (mkInsertAttachment (msg_id insertedMessage) url fileName fileSize
                                               (fileType_or_default fileType) "voice_message") in
           let* user := storage_getUser u in
           broadcastToRoom r (new_message (mkChatMessage insertedMessage user None [attachment])))
          (fun _ => sendErrorToClient c "Failed to process voice message")
      else sendErrorToClient c "You must join a room before sending voice messages"
  | _, _ => sendErrorToClient c "You must join a room before sending voice messages"
  end.

(** ** The dispatcher *)

(** [ws.on('message', ...)]: [data] is [None] when [JSON.parse] throws. *)
Definition on_message (c : nat) (data : option WSMessage) : M unit :=
  try_catch
    (match data with
     | None => throw DecodeError
     | Some (join_room u r) => handleJoinRoom c u r
     | Some leave_room => handleLeaveRoom c
     | Some (send_message message personaId) => handleSendMessage c message personaId
     | Some (send_attachment url fileName fileSize fileType attachmentType) =>
         handleSendAttachment c url fileName fileSize fileType attachmentType
     | Some (send_voice_message url fileName fileSize fileType) =>
         handleSendVoiceMessage c url fileName fileSize fileType
     | Some ping => ws_send c pong
     | Some (unknown_type _) => ret tt
     end)
    (fun _ => sendErrorToClient c "Failed to process your request").

(** [wss.on('connection', ...)]: the transport adds an open socket without
    identity or room to [wss.clients]. *)
Definition on_connection (c : nat) : M unit :=
  fun w => (Ok tt, mkWorld (clients w ++ [mkClient c None None OPEN])%list
                           (storage w) (tick w) (trace w)).

(** [ws.on('close', ...)]: the transport has closed the socket; the
    handler runs [handleLeaveRoom]; the socket is gone from [wss.clients]. *)
Definition on_close (c : nat) : M unit :=
  update_ws c (set_readyState CLOSED) >>>
  handleLeaveRoom c >>>
  fun w => (Ok tt, mkWorld (List.filter (fun x => negb (Nat.eqb (cid x) c)) (clients w))
                           (storage w) (tick w) (trace w)).

End Server.

(** ** Reading a run *)

(** The world a computation leaves behind. *)
Definition exec {A} (m : M A) (w : World) : World := snd (m w).

Definition client_of (c : nat) (w : World) : option WebSocketClient :=
  List.find (fun x => Nat.eqb (cid x) c) (clients w).

(** The test every handler applies before it acts for a connection:
    [userId && roomId]. *)
Definition joined (ws : WebSocketClient) : bool :=
  truthy_ostring (userId ws) && truthy_onum (roomId ws).

(** The frames one [broadcastToRoom] call writes. *)
Definition broadcast (r : RoomID) (ev : Event) (l : list WebSocketClient) : list Effect :=
  List.map (fun c => Send c ev) (recipients r l).

Definition add_trace (l : list Effect) (w : World) : World :=
  mkWorld (clients w) (storage w) (tick w) (trace w ++ l)%list.

(** The next [n] awaited collaborator calls all succeed. *)
Definition calls_ok (env : Env) (w : World) (n : nat) : Prop :=
  forall k, (k < n)%nat -> fails env (k + tick w) = false.

(** The store after [createMessage]. *)
Definition stored (i : InsertMessage) (s : Storage) : Storage :=
  snd (createMessage i s).

(** The store after [createAttachment]. *)
Definition stored_attachment (i : InsertAttachment) (s : Storage) : Storage :=
  match createAttachment i s with Some (_, s') => s' | None => s end.

(** The effects a run added to the trace. *)
Definition new_effects (w w' : World) : list Effect :=
  drop (length (trace w)) (trace w').

(** The arguments [handleSendMessage] gives [createMessage]. *)
Definition human_insert (r : RoomID) (u : UserID) (message : string) : InsertMessage :=
  mkInsertMessage r (Some u) None message.

Definition persona_insert (r : RoomID) (p : PersonaID) (text : string) : InsertMessage :=
  mkInsertMessage r None (Some p) text.

(** Ids in the message table are below the id counter, so a new row's id
    is fresh. *)
Definition ids_fresh (s : Storage) : Prop :=
  forall m, In m (messages s) -> msg_id m < nextMessageId s.


(** What [generate_reply] hands to the generation capability, given the
    rows [getMessagesByRoom(roomId, 5)] returned. *)
Definition context_of (userMessage : Message) (user : option User)
    (previousMessages : list ChatMessage) : list ChatMessage :=
  (mkChatMessage userMessage user None [] ::
   take 3 (List.filter (fun msg => negb (msg_id (cm_msg msg) =? msg_id userMessage))
             previousMessages))%list.

(** The store, the call counter and the effects the [catch] branch of the
    persona reply leaves, started at call [t]: the scripted line stored and
    broadcast, or one [ai_error] broadcast when one of its two storage
    calls rejects. *)
Definition fallback_outcome (env : Env) (r : RoomID) (p : PersonaID)
    (cl : list WebSocketClient) (s : Storage) (t : nat)
  : Storage * nat * list Effect :=
  let ins := persona_insert r p fallback_text in
  if fails env t then
    (s, S t, broadcast r (ai_error p "Failed to generate AI response") cl)
  else if fails env (S t) then
    (s, S (S t), broadcast r (ai_error p "Failed to generate AI response") cl)
  else
    (stored ins s, S (S t),
     ([CreatedMessage (new_row ins s)] ++
      broadcast r (new_message (mkChatMessage (new_row ins s) None (getPersona p s) [])) cl)%list).

(** The same for what follows the generation call made at call [t]. *)
Definition generation_outcome (env : Env) (r : RoomID) (p : PersonaID)
    (persona : Persona) (ctx : list ChatMessage)
    (cl : list WebSocketClient) (s : Storage) (t : nat)
  : Storage * nat * list Effect :=
  let ins := persona_insert r p (reply env persona ctx) in
  if fails env t then fallback_outcome env r p cl s (S t)
  else if fails env (S t) then fallback_outcome env r p cl s (S (S t))
  else
    (stored ins s, S (S t),
     ([CreatedMessage (new_row ins s)] ++
      broadcast r (new_message (mkChatMessage (new_row ins s) None (Some persona) [])) cl)%list).

(** Frames of type [error]. *)
Definition is_error_frame (e : Effect) : bool :=
  match e with Send _ (error _) => true | _ => false end.

(** Records created by the effects of a run. *)
Definition created_messages (l : list Effect) : list Message :=
  l ≫= (fun e => match e with CreatedMessage m => [m] | _ => [] end).

Definition created_attachments (l : list Effect) : list Attachment :=
  l ≫= (fun e => match e with CreatedAttachment a => [a] | _ => [] end).

(** The same for the whole persona reply after the typing indicator,
    started at call [t]: the persona read, the history read, the
    generation call and what follows it. *)
Definition reply_outcome (env : Env) (c : nat) (r : RoomID) (p : PersonaID)
    (um : Message) (user : option User)
    (cl : list WebSocketClient) (s : Storage) (t : nat)
  : Storage * nat * list Effect :=
  if fails env t then fallback_outcome env r p cl s (S t)
  else match getPersona p s with
       | None =>
           (s, S t,
            if is_open (lookup_ws c cl) then [Send c (error "Persona not found")] else [])
       | Some persona =>
           if fails env (S t) then fallback_outcome env r p cl s (S (S t))
           else
             let ctx := context_of um user (getMessagesByRoom r (Some 5%nat) s) in
             let '(s', t', l) := generation_outcome env r p persona ctx cl s (S (S t)) in
             (s', t', ([Generate persona ctx] ++ l)%list)
       end.

(** What may follow the typing indicator of persona [p]: no frame of a
    human message and no further typing indicator; every message stored or
    broadcast is authored by [p]. *)
Definition after_typing (p : PersonaID) (e : Effect) : Prop :=
  match e with
  | Send _ (new_message cm) =>
      msg_personaId (cm_msg cm) = Some p /\ msg_userId (cm_msg cm) = None
  | Send _ (persona_typing _ _) => False
  | CreatedMessage m => msg_personaId m = Some p /\ msg_userId m = None
  | _ => True
  end.

(** The message table lists newer rows (larger ids) before older ones. *)
Definition newest_first (s : Storage) : Prop :=
  StronglySorted (fun a b => msg_id b < msg_id a) (messages s).

(** [a] was created after [b]. *)
Definition newer (a b : ChatMessage) : Prop :=
  msg_id (cm_msg b) < msg_id (cm_msg a).

(** ** Presence and attachment *)

(** The connection is attached to room [r] with identity [u]. *)
Definition attached_to (u : UserID) (r : RoomID) (x : WebSocketClient) : bool :=
  match userId x, roomId x with
  | Some u', Some r' => String.eqb u' u && (r' =? r)
  | _, _ => false
  end.

(** How many connections are attached to room [r] with identity [u]. *)
Definition attached_count (u : UserID) (r : RoomID) (l : list WebSocketClient) : nat :=
  length (List.filter (attached_to u r) l).

(** What the transport and the clients can make happen. *)
Inductive SocketEvent :=
  | connection (c : nat)
  | message (c : nat) (data : option WSMessage)
  | close (c : nat).

Section Events.

Variable env : Env.

Definition fire (e : SocketEvent) : M unit :=
  match e with
  | connection c => on_connection c
  | message c data => on_message env c data
  | close c => on_close c
  end.

(** A new socket is a new object; messages and closes come from live
    sockets. *)
Definition enabled (e : SocketEvent) (w : World) : Prop :=
  match e with
  | connection c => ~ In c (List.map cid (clients w))
  | message c _ => In c (List.map cid (clients w))
  | close c => In c (List.map cid (clients w))
  end.

(** A client that sends [join_room] only on a connection that is not
    joined at that moment. *)
Definition disciplined (e : SocketEvent) (w : World) : Prop :=
  match e with
  | message c (Some (join_room _ _)) => joined (lookup_ws c (clients w)) = false
  | _ => True
  end.

(** Worlds the server can be in: started with no sockets and an empty
    presence tracker, then driven by events. *)
Inductive reachable : World -> Prop :=
  | reachable_start s t tr :
      presence s = ∅ -> reachable (mkWorld [] s t tr)
  | reachable_step w e :
      reachable w -> enabled e w -> reachable (exec (fire e) w).

Inductive reachable_disciplined : World -> Prop :=
  | disciplined_start s t tr :
      presence s = ∅ -> reachable_disciplined (mkWorld [] s t tr)
  | disciplined_step w e :
      reachable_disciplined w -> enabled e w -> disciplined e w ->
      reachable_disciplined (exec (fire e) w).

End Events.

(** A computation that touches neither the socket registry nor the
    presence tracker. *)
Definition steady {A} (m : M A) : Prop :=
  forall w, clients (snd (m w)) = clients w
            /\ presence (storage (snd (m w))) = presence (storage w).

(** No two live sockets are the same object. *)
Definition distinct_sockets (w : World) : Prop :=
  List.NoDup (List.map cid (clients w)).

(** Every attached connection holds a presence reference of its own. *)
Definition presence_covers (w : World) : Prop :=
  forall u r, truthy_string u = true -> truthy_num r = true ->
    (attached_count u r (clients w) <= multiplicity (r, u) (presence (storage w)))%nat.

(** The presence references are exactly those of the attached connections. *)
Definition presence_exact (w : World) : Prop :=
  forall u r, truthy_string u = true -> truthy_num r = true ->
    attached_count u r (clients w) = multiplicity (r, u) (presence (storage w)).

Definition b2n (b : bool) : nat := if b then 1%nat else 0%nat.

(** The ways one event can change the registry and the presence tracker:
    a socket is added; nothing changes; socket [c] takes identity and room
    and a reference is added (when [strict], only if it was not joined);
    socket [c] is reset, or removed, and its reference released; socket
    [c], not joined, is removed. *)
Inductive StepShape (strict : bool) (w w' : World) : Prop :=
  | shape_connection c :
      ~ In c (List.map cid (clients w)) ->
      clients w' = clients w ++ [mkClient c None None OPEN] ->
      presence (storage w') = presence (storage w) ->
      StepShape strict w w'
  | shape_steady :
      clients w' = clients w ->
      presence (storage w') = presence (storage w) ->
      StepShape strict w w'
  | shape_join c ws u r :
      client_of c w = Some ws ->
      (strict = true -> joined ws = false) ->
      clients w' = List.map (fun x => if Nat.eqb (cid x) c
                                      then set_room (Some u) (Some r) x else x) (clients w) ->
      presence (storage w') = presence (storage w) ⊎ {[+ (r, u) +]} ->
      StepShape strict w w'
  | shape_leave c ws u r :
      client_of c w = Some ws ->
      userId ws = Some u -> roomId ws = Some r ->
      truthy_string u = true -> truthy_num r = true ->
      clients w' = List.map (fun x => if Nat.eqb (cid x) c
                                      then set_room None None x else x) (clients w) ->
      presence (storage w') = presence (storage w) ∖ {[+ (r, u) +]} ->
      StepShape strict w w'
  | shape_close c ws u r :
      client_of c w = Some ws ->
      userId ws = Some u -> roomId ws = Some r ->
      truthy_string u = true -> truthy_num r = true ->
      clients w' = List.filter (fun x => negb (Nat.eqb (cid x) c)) (clients w) ->
      presence (storage w') = presence (storage w) ∖ {[+ (r, u) +]} ->
      StepShape strict w w'
  | shape_drop c ws :
      client_of c w = Some ws ->
      joined ws = false ->
      clients w' = List.filter (fun x => negb (Nat.eqb (cid x) c)) (clients w) ->
      presence (storage w') = presence (storage w) ->
      StepShape strict w w'.

(** A well-formed message table: fresh ids, newer rows first. *)
Definition store_ordered (s : Storage) : Prop :=
  ids_fresh s /\ newest_first s.

(** A computation that keeps the message table well formed. *)
Definition keeps {A} (m : M A) : Prop :=
  forall w, store_ordered (storage w) -> store_ordered (storage (snd (m w))).

(** ** Proof automation *)

Ltac unfold_monad :=
  unfold sendErrorToClient, ws_send, broadcastActiveUsers, broadcastToRoom,
    get_ws, get_storage, set_storage, update_ws, emit, bind, ret, throw,
    try_catch, settle in *.

Ltac solve_calls_ok :=
  let k := fresh "k" in let Hk := fresh "Hk" in
  intros k Hk;
  repeat (destruct k as [|k]; [reflexivity|try lia]).

(** ** Concrete worlds *)

Definition alice : User := mkUser "A" "Alice".
Definition bob : User := mkUser "B" "Bob".
Definition sherlock : Persona :=
  mkPersona 3 "Sherlock Holmes" "Consulting detective" "Elementary.".

(** A store with two users, room 7 and persona 3, and nothing else. *)
Definition store0 : Storage :=
  mkStorage [alice; bob] [7] [(7, "A"); (7, "B")] [sherlock] [] [] 1 1 0 ∅.

(** Two freshly connected sockets. *)
Definition world0 : World :=
  mkWorld [mkClient 0 None None OPEN; mkClient 1 None None OPEN] store0 0 [].

(** All collaborators work. *)
Definition env_ok : Env :=
  mkEnv (fun _ => false) (fun _ _ => "Elementary, my dear Watson.").

(** The [n]-th awaited call rejects, all others work. *)
Definition env_fail_at (n : nat) : Env :=
  mkEnv (fun k => Nat.eqb k n) (fun _ _ => "Elementary, my dear Watson.").

(** The awaited calls listed in [l] reject. *)
Definition env_fail_in (l : list nat) : Env :=
  mkEnv (fun k => existsb (Nat.eqb k) l) (fun _ _ => "Elementary, my dear Watson.").

(** A joins room 7, then B joins room 7. *)
Definition world_AB (env : Env) : World :=
  exec (on_message env 1%nat (Some (join_room "B" 7)))
    (exec (on_message env 0%nat (Some (join_room "A" 7))) world0).

(** Room 7 with four earlier messages (ids 1, 2, 4, 5) and room 8 with one
    (id 3); A is joined to room 7 on socket 0, B to room 8 on socket 1. *)
Definition store_busy : Storage :=
  mkStorage [alice; bob] [7; 8] [(7, "A"); (8, "B")] [sherlock]
    [mkMessage 5 7 (Some "B") None "five" 4 false;
     mkMessage 4 7 None (Some 3) "four" 3 false;
     mkMessage 3 8 (Some "B") None "three" 2 false;
     mkMessage 2 7 (Some "A") None "two" 1 false;
     mkMessage 1 7 (Some "A") None "one" 0 false]
    [] 6 1 5 ({[+ (7, "A") +]} ⊎ {[+ (8, "B") +]}).

Definition world_busy : World :=
  mkWorld [mkClient 0 (Some "A") (Some 7) OPEN; mkClient 1 (Some "B") (Some 8) OPEN]
    store_busy 0 [].

(** The history read of the first join fails. *)
Definition world_join_no_history : World :=
  exec (on_message (env_fail_at 0) 0%nat (Some (join_room "A" 7))) world0.

(** User A has two sockets (two tabs) in room 7 and B one. *)
Definition world_two_tabs : World :=
  exec (on_message env_ok 2%nat (Some (join_room "B" 7)))
    (exec (on_message env_ok 1%nat (Some (join_room "A" 7)))
       (exec (on_message env_ok 0%nat (Some (join_room "A" 7)))
          (mkWorld [mkClient 0 None None OPEN; mkClient 1 None None OPEN;
                    mkClient 2 None None OPEN] store0 0 []))).

(** A, joined to room 7 on socket 0, joins room 8 on the same socket. *)
Definition world_switch : World :=
  exec (on_message env_ok 0%nat (Some (join_room "A" 8))) (world_AB env_ok).

(** One socket joins room 7 as A twice and then leaves. *)
Definition world_rejoin_leave : World :=
  exec (on_message env_ok 0%nat (Some leave_room))
    (exec (on_message env_ok 0%nat (Some (join_room "A" 7)))
       (exec (on_message env_ok 0%nat (Some (join_room "A" 7))) world0)).

(** Two sockets join room 7 as A and the first one leaves: the presence
    tracker has received the same three calls as in [world_rejoin_leave]. *)
Definition world_two_join_leave : World :=
  exec (on_message env_ok 0%nat (Some leave_room))
    (exec (on_message env_ok 1%nat (Some (join_room "A" 7)))
       (exec (on_message env_ok 0%nat (Some (join_room "A" 7))) world0)).

(** Socket 0 joins room 0 as A. *)
Definition world_room_zero : World :=
  exec (on_message env_ok 0%nat (Some (join_room "A" 0))) world0.

(** ** Reading a run: what is written, and to whom *)

(** A computation that always returns. *)
Definition never_throws {A} (m : M A) : Prop :=
  forall w, exists a, fst (m w) = Ok a.

(** A computation that, started with a socket registry satisfying [J],
    keeps it so and adds to the trace only effects satisfying [P]. *)
Definition emits (J : list WebSocketClient -> Prop) (P : Effect -> Prop)
    {A} (m : M A) : Prop :=
  forall w, J (clients w) ->
    J (clients (snd (m w)))
    /\ exists l, trace (snd (m w)) = trace w ++ l /\ Forall P l.

(** [error] frames go to socket [c] and to nobody else. *)
Definition error_only_to (c : nat) (e : Effect) : Prop :=
  match e with
  | Send to (error _) => to = c
  | _ => True
  end.

(** The room an envelope is about: the room named by a [join_room], the
    room of the connection otherwise. *)
Definition room_of_envelope (ws : WebSocketClient) (m : WSMessage) : option RoomID :=
  match m with
  | join_room _ r => Some r
  | _ => roomId ws
  end.

(** Socket [to] is one of the live sockets [cl], is open, and its room
    is [r]: who a broadcast to room [r] is for, said without the filter
    of [broadcastToRoom]. *)
Definition room_socket (r : RoomID) (cl : list WebSocketClient) (to : nat) : Prop :=
  exists ws, In ws cl /\ cid ws = to /\ roomId ws = Some r /\ readyState ws = OPEN.

(** Every open socket of room [r] is sent [ev] among the effects [l]. *)
Definition reaches_room (r : RoomID) (ev : Event) (cl : list WebSocketClient)
    (l : list Effect) : Prop :=
  forall to, room_socket r cl to -> In (Send to ev) l.

(** The frames among [l] go to open sockets of room [r] and to nobody
    else. *)
Definition only_to_room (r : RoomID) (cl : list WebSocketClient)
    (l : list Effect) : Prop :=
  forall to ev, In (Send to ev) l -> room_socket r cl to.

(** A frame stays within what [broadcastToRoom] selects for room [r], or
    with the sender [c]. *)
Definition within_recipients (c : nat) (r : option RoomID) (cl : list WebSocketClient)
    (e : Effect) : Prop :=
  match e with
  | Send to (error _) => to = c
  | Send to pong => to = c
  | Send to _ =>
      to = c \/ match r with Some r => In to (recipients r cl) | None => False end
  | _ => True
  end.

(** A frame stays with the sender [c] or goes to an open socket whose
    room is [r] ([None]: no room); [error] and [pong] frames go to the
    sender. *)
Definition stays_in_room (c : nat) (r : option RoomID) (cl : list WebSocketClient)
    (e : Effect) : Prop :=
  match e with
  | Send to (error _) => to = c
  | Send to pong => to = c
  | Send to _ =>
      to = c \/ match r with Some r => room_socket r cl to | None => False end
  | _ => True
  end.

(** The [error] messages the handler of an envelope sends of its own. *)
Definition own_errors (m : WSMessage) : list string :=
  match m with
  | join_room _ _ => ["Failed to load room history"]
  | send_message _ _ =>
      ["You must join a room before sending messages";
       "Persona not found";
       "Failed to process your message"]
  | send_attachment _ _ _ _ _ =>
      ["You must join a room before sending attachments";
       "Invalid attachment type";
       "Failed to process attachment"]
  | send_voice_message _ _ _ _ =>
      ["You must join a room before sending voice messages";
       "Failed to process voice message"]
  | _ => []
  end.

(** An [error] frame carries one of the messages [l]. *)
Definition error_among (l : list string) (e : Effect) : Prop :=
  match e with
  | Send _ (error msg) => In msg l
  | _ => True
  end.

(** How many generation calls, stored messages and stored attachments a
    list of effects holds. *)
Definition generations (l : list Effect) : nat :=
  length (List.filter (fun e => match e with Generate _ _ => true | _ => false end) l).

(** An upper bound on what a list of effects holds: generation calls, stored messages,
    stored attachments. *)
Definition within (g n : nat) (l : list Effect) : Prop :=
  (generations l <= g)%nat /\ (length (created_messages l) <= n)%nat
  /\ created_attachments l = [].


(** The envelopes whose handlers assign [ws.userId] and [ws.roomId] or
    call the presence tracker. *)
Definition changes_membership (data : option WSMessage) : bool :=
  match data with
  | Some (join_room _ _) | Some leave_room => true
  | _ => false
  end.

(** * Chatroom administration over HTTP (server/routes.ts)

    The route handlers that decide who may delete a chatroom, add a
    persona to it, or add, re-role and remove its members.  A handler is
    a function of the request (the parsed path id, the path user id, the
    authenticated caller [req.user.id], the body fields it reads) and of
    the answers of the storage collaborator; it yields the storage calls
    it made, in order, and the response.  [parseInt] of the path id is
    given as [option Z], [None] being [NaN]. *)

Module Routes.

(** A value of a JSON request body; numbers are integers here. *)
Inductive JsValue :=
  | js_undefined
  | js_null
  | js_bool (b : bool)
  | js_number (z : Z)
  | js_string (s : string)
  | js_object.

(** JavaScript truthiness. *)
Definition truthy (v : JsValue) : bool :=
  match v with
  | js_undefined | js_null => false
  | js_bool b => b
  | js_number z => negb (z =? 0)
  | js_string s => negb (String.eqb s "")
  | js_object => true
  end.

(** [v === s] for a string literal [s]. *)
Definition strict_eq_string (v : JsValue) (s : string) : bool :=
  match v with
  | js_string t => String.eqb t s
  | _ => false
  end.

(** [typeof v === 'number']. *)
Definition is_number (v : JsValue) : bool :=
  match v with
  | js_number _ => true
  | _ => false
  end.

(** [l.includes(v)] for an array [l] of string literals. *)
Definition includes (l : list string) (v : JsValue) : bool :=
  existsb (strict_eq_string v) l.

(** [v || s]. *)
Definition or_default (v : JsValue) (s : string) : JsValue :=
  if truthy v then v else js_string s.

Record Chatroom := mkChatroom {
  chatroom_id : Z;
  chatroom_name : string
}.

Record ChatroomMember := mkChatroomMember {
  member_chatroomId : Z;
  member_userId : string;
  member_role : string
}.

Record ChatroomPersona := mkChatroomPersona {
  association_chatroomId : Z;
  association_personaId : JsValue
}.

(** What [insertChatroomMemberSchema.parse] returns. *)
Record InsertChatroomMember := mkInsertChatroomMember {
  insert_chatroomId : Z;
  insert_userId : string;
  insert_role : string
}.

(** How a promise settles. *)
Inductive answer (A : Type) :=
  | resolved (a : A)
  | rejected.
Arguments resolved {A} a.
Arguments rejected {A}.

(** Modelled from the spec: the storage collaborator and the member
    schema are not in the sources.  Nothing is assumed about them: every
    method is an arbitrary function of its arguments whose promise may
    reject, and the schema may accept or refuse any input. *)
Record Backend := mkBackend {
  getChatroom : Z -> answer (option Chatroom);
  isChatroomOwner : Z -> string -> answer bool;
  isChatroomModerator : Z -> string -> answer bool;
  getChatroomMember : Z -> string -> answer (option ChatroomMember);
  deleteChatroom : Z -> answer unit;
  addChatroomMember : Z -> string -> string -> answer ChatroomMember;
  updateChatroomMemberRole : Z -> string -> JsValue -> answer (option ChatroomMember);
  removeChatroomMember : Z -> string -> answer unit;
  addPersonaToChatroom : Z -> JsValue -> answer ChatroomPersona;
  insertChatroomMemberSchema_parse : Z -> JsValue -> JsValue -> option InsertChatroomMember
}.

(** The storage calls a handler makes. *)
Inductive Call :=
  | call_getChatroom (chatroomId : Z)
  | call_isChatroomOwner (chatroomId : Z) (userId : string)
  | call_isChatroomModerator (chatroomId : Z) (userId : string)
  | call_getChatroomMember (chatroomId : Z) (userId : string)
  | call_deleteChatroom (chatroomId : Z)
  | call_addChatroomMember (chatroomId : Z) (userId : string) (role : string)
  | call_updateChatroomMemberRole (chatroomId : Z) (userId : string) (role : JsValue)
  | call_removeChatroomMember (chatroomId : Z) (userId : string)
  | call_addPersonaToChatroom (chatroomId : Z) (personaId : JsValue).

Inductive Body :=
  | message_body (text : string)
  | errors_body (text : string)
  | member_body (member : option ChatroomMember)
  | association_body (association : ChatroomPersona)
  | no_body.

Record Response := mkResponse {
  status : Z;
  body : Body
}.

Inductive Thrown := ZodError | OtherError.

(** A handler body: the calls made so far, and a value or an exception. *)
Definition H (A : Type) : Type := list Call * (A + Thrown).

Definition h_ret {A} (a : A) : H A := ([], inl a).

Definition h_throw {A} (e : Thrown) : H A := ([], inr e).

Definition h_bind {A B} (m : H A) (k : A -> H B) : H B :=
  match m with
  | (l, inl a) => (l ++ fst (k a), snd (k a))
  | (l, inr e) => (l, inr e)
  end.

Notation "'let!' x := m 'in' k" := (h_bind m (fun x => k))
  (at level 10, x name, m at level 100, k at level 200).

(** [await storage.method(...)]. *)
Definition call {A} (c : Call) (a : answer A) : H A :=
  ([c], match a with resolved x => inl x | rejected => inr OtherError end).

(** [try { ... } catch (error) { ... }] around a handler body. *)
Definition h_catch (m : H Response) (handler : Thrown -> Response)
  : list Call * Response :=
  (fst m, match snd m with inl r => r | inr e => handler e end).

Definition reply (code : Z) (text : string) : Response :=
  mkResponse code (message_body text).

(** [app.delete("/api/chatrooms/:id")]. *)
Definition deleteChatroomRoute (b : Backend) (id : option Z) (user : string)
  : list Call * Response :=
  h_catch
    (match id with
     | None => h_ret (reply 400 "Invalid chatroom ID")
     | Some chatroomId =>
         let! chatroom := call (call_getChatroom chatroomId) (getChatroom b chatroomId) in
         match chatroom with
         | None => h_ret (reply 404 "Chatroom not found")
         | Some _ =>
             let! isOwner := call (call_isChatroomOwner chatroomId user)
                               (isChatroomOwner b chatroomId user) in
             if negb isOwner then
               h_ret (reply 403 "Only the chatroom owner can delete the chatroom")
             else
               let! _ := call (call_deleteChatroom chatroomId) (deleteChatroom b chatroomId) in
               h_ret (mkResponse 204 no_body)
         end
     end)
    (fun _ => reply 500 "Failed to delete chatroom").

(** [app.post("/api/chatrooms/:id/personas")]; [personaId] is
    [req.body.personaId]. *)
Definition postChatroomPersonaRoute (b : Backend) (id : option Z) (user : string)
    (personaId : JsValue) : list Call * Response :=
  h_catch
    (match id with
     | None => h_ret (reply 400 "Invalid chatroom ID")
     | Some chatroomId =>
         let! isModOrOwner := call (call_isChatroomModerator chatroomId user)
                                (isChatroomModerator b chatroomId user) in
         if negb isModOrOwner then
           h_ret (reply 403 "You don't have permission to add personas to this chatroom")
         else if negb (truthy personaId) || negb (is_number personaId) then
           h_ret (reply 400 "Invalid persona ID")
         else
           let! association := call (call_addPersonaToChatroom chatroomId personaId)
                                 (addPersonaToChatroom b chatroomId personaId) in
           h_ret (mkResponse 201 (association_body association))
     end)
    (fun _ => reply 500 "Failed to add persona to chatroom").

(** [app.post("/api/chatrooms/:id/members")]; [userId] and [role] are
    [req.body.userId] and [req.body.role]. *)
Definition postChatroomMemberRoute (b : Backend) (id : option Z) (user : string)
    (userId role : JsValue) : list Call * Response :=
  h_catch
    (match id with
     | None => h_ret (reply 400 "Invalid chatroom ID")
     | Some chatroomId =>
         let! chatroom := call (call_getChatroom chatroomId) (getChatroom b chatroomId) in
         match chatroom with
         | None => h_ret (reply 404 "Chatroom not found")
         | Some _ =>
             let! refused :=
               if truthy role && negb (strict_eq_string role "member") then
                 let! isOwnerOrMod := call (call_isChatroomModerator chatroomId user)
                                        (isChatroomModerator b chatroomId user) in
                 h_ret (if negb isOwnerOrMod then
                          Some (reply 403
                                  "You don't have permission to add members with this role")
                        else None)
               else h_ret None in
             match refused with
             | Some response => h_ret response
             | None =>
                 match insertChatroomMemberSchema_parse b chatroomId userId
                         (or_default role "member") with
                 | None => h_throw ZodError
                 | Some validatedData =>
                     let! member :=
                       call (call_addChatroomMember (insert_chatroomId validatedData)
                               (insert_userId validatedData) (insert_role validatedData))
                         (addChatroomMember b (insert_chatroomId validatedData)
                            (insert_userId validatedData) (insert_role validatedData)) in
                     h_ret (mkResponse 201 (member_body (Some member)))
                 end
             end
         end
     end)
    (fun e => match e with
              | ZodError => mkResponse 400 (errors_body "Invalid data")
              | OtherError => reply 500 "Failed to add chatroom member"
              end).

Definition roles : list string := ["owner"; "moderator"; "member"].

(** [app.patch("/api/chatrooms/:id/members/:userId")]; [userId] is the
    path parameter and [role] is [req.body.role]. *)
Definition patchChatroomMemberRoute (b : Backend) (id : option Z) (userId : string)
    (user : string) (role : JsValue) : list Call * Response :=
  h_catch
    (match id with
     | None => h_ret (reply 400 "Invalid chatroom ID")
     | Some chatroomId =>
         let! chatroom := call (call_getChatroom chatroomId) (getChatroom b chatroomId) in
         match chatroom with
         | None => h_ret (reply 404 "Chatroom not found")
         | Some _ =>
             let! refused :=
               if strict_eq_string role "owner" then
                 let! isOwner := call (call_isChatroomOwner chatroomId user)
                                   (isChatroomOwner b chatroomId user) in
                 h_ret (if negb isOwner then
                          Some (reply 403 "Only the chatroom owner can assign ownership")
                        else None)
               else
                 let! isOwnerOrMod := call (call_isChatroomModerator chatroomId user)
                                        (isChatroomModerator b chatroomId user) in
                 h_ret (if negb isOwnerOrMod then
                          Some (reply 403 "You don't have permission to change member roles")
                        else None) in
             match refused with
             | Some response => h_ret response
             | None =>
                 if negb (truthy role) || negb (includes roles role) then
                   h_ret (reply 400 "Invalid role")
                 else
                   let! member := call (call_updateChatroomMemberRole chatroomId userId role)
                                    (updateChatroomMemberRole b chatroomId userId role) in
                   h_ret (mkResponse 200 (member_body member))
             end
         end
     end)
    (fun _ => reply 500 "Failed to update chatroom member").

(** [app.delete("/api/chatrooms/:id/members/:userId")]. *)
Definition deleteChatroomMemberRoute (b : Backend) (id : option Z) (userId : string)
    (user : string) : list Call * Response :=
  h_catch
    (match id with
     | None => h_ret (reply 400 "Invalid chatroom ID")
     | Some chatroomId =>
         let! chatroom := call (call_getChatroom chatroomId) (getChatroom b chatroomId) in
         match chatroom with
         | None => h_ret (reply 404 "Chatroom not found")
         | Some _ =>
             let! refused :=
               if negb (String.eqb userId user) then
                 let! isOwnerOrMod := call (call_isChatroomModerator chatroomId user)
                                        (isChatroomModerator b chatroomId user) in
                 if negb isOwnerOrMod then
                   h_ret (Some (reply 403 "You don't have permission to remove members"))
                 else
                   let! memberToRemove := call (call_getChatroomMember chatroomId userId)
                                            (getChatroomMember b chatroomId userId) in
                   match memberToRemove with
                   | Some member =>
                       if String.eqb (member_role member) "owner" then
                         let! isOwner := call (call_isChatroomOwner chatroomId user)
                                           (isChatroomOwner b chatroomId user) in
                         h_ret (if negb isOwner then
                                  Some (reply 403 "Moderators cannot remove owners")
                                else None)
                       else h_ret None
                   | None => h_ret None
                   end
               else h_ret None in
             match refused with
             | Some response => h_ret response
             | None =>
                 let! _ := call (call_removeChatroomMember chatroomId userId)
                             (removeChatroomMember b chatroomId userId) in
                 h_ret (mkResponse 204 no_body)
             end
         end
     end)
    (fun _ => reply 500 "Failed to remove chatroom member").

(** A backend for examples: chatroom 7 with owner A, moderator M and
    member B; every call resolves, owners count as moderators, and the
    schema accepts a string user id with a string role. *)
Definition demo_role (chatroomId : Z) (userId : string) : option string :=
  if chatroomId =? 7 then
    if String.eqb userId "A" then Some "owner"
    else if String.eqb userId "M" then Some "moderator"
    else if String.eqb userId "B" then Some "member"
    else None
  else None.

Definition demo : Backend :=
  mkBackend
    (fun id => resolved (if id =? 7 then Some (mkChatroom 7 "lobby") else None))
    (fun id u => resolved (match demo_role id u with
                           | Some r => String.eqb r "owner"
                           | None => false
                           end))
    (fun id u => resolved (match demo_role id u with
                           | Some r => String.eqb r "owner" || String.eqb r "moderator"
                           | None => false
                           end))
    (fun id u => resolved (option_map (mkChatroomMember id u) (demo_role id u)))
    (fun _ => resolved tt)
    (fun id u r => resolved (mkChatroomMember id u r))
    (fun id u r => resolved (match r with
                             | js_string s => Some (mkChatroomMember id u s)
                             | _ => None
                             end))
    (fun _ _ => resolved tt)
    (fun id p => resolved (mkChatroomPersona id p))
    (fun id u r => match u, r with
                   | js_string u, js_string r => Some (mkInsertChatroomMember id u r)
                   | _, _ => None
                   end).

(** The calls that ask for a role. *)
Definition is_role_lookup (c : Call) : bool :=
  match c with
  | call_isChatroomOwner _ _ | call_isChatroomModerator _ _
  | call_getChatroomMember _ _ => true
  | _ => false
  end.

(** The calls the member-adding route can make for a body role [role]. *)
Definition post_member_may_call (role : JsValue) (c : Call) : Prop :=
  match c with
  | call_getChatroom _ | call_addChatroomMember _ _ _ => True
  | call_isChatroomModerator _ _ =>
      truthy role = true /\ role <> js_string "member"
  | _ => False
  end.

End Routes.

(** * Sign-in with Discord (server/discordAuth.ts)

    The verify callback that [setupDiscordAuth] gives the Discord
    strategy: it maps a Discord profile to the user the session is opened
    for. *)

Module DiscordAuth.

(** The fields of the Discord profile the callback reads; [None] is an
    absent or [null] field. *)
Record Profile := mkProfile {
  profile_id : string;
  profile_email : option string;
  profile_username : option string;
  profile_avatar : option string
}.

(** Modelled from the spec: a row of the user table, of which the
    callback reads [email] only. *)
Record StoredUser := mkStoredUser {
  stored_id : string;
  stored_email : option string;
  stored_provider : string
}.

(** The object the callback builds for [upsertUser]. *)
Record UserInfo := mkUserInfo {
  info_id : string;
  info_email : option string;
  info_firstName : option string;
  info_lastName : option string;
  info_profileImageUrl : option string;
  info_provider : string
}.

(** Modelled from the spec: the two storage methods the callback awaits;
    either may reject. *)
Record Backend := mkBackend {
  getAllUsers : Routes.answer (list StoredUser);
  upsertUser : UserInfo -> Routes.answer StoredUser
}.

Inductive Call :=
  | call_getAllUsers
  | call_upsertUser (userInfo : UserInfo).

(** What the callback passes to [done]. *)
Inductive Done :=
  | done_user (user : StoredUser)
  | done_error.

(** [v || null] for a string field. *)
Definition or_null (v : option string) : option string :=
  match v with
  | Some s => if String.eqb s "" then None else Some s
  | None => None
  end.

(** [user.email === email] for a string [email]. *)
Definition has_email (email : string) (user : StoredUser) : bool :=
  match stored_email user with
  | Some e => String.eqb e email
  | None => false
  end.

Definition avatar_url (id avatar : string) : string :=
  String.append "https://cdn.discordapp.com/avatars/"
    (String.append id (String.append "/" (String.append avatar ".png"))).

Definition userInfo_of (profile : Profile) : UserInfo :=
  mkUserInfo (profile_id profile)
    (or_null (profile_email profile))
    (or_null (profile_username profile))
    None
    (match or_null (profile_avatar profile) with
     | Some avatar => Some (avatar_url (profile_id profile) avatar)
     | None => None
     end)
    "discord".

(** The verify callback: the storage calls made, in order, and the
    argument of [done]. *)
Definition verify (b : Backend) (profile : Profile) : list Call * Done :=
  let email := or_null (profile_email profile) in
  let lookup : list Call * option (option StoredUser) :=
    match email with
    | Some e =>
        match getAllUsers b with
        | Routes.resolved allUsers => ([call_getAllUsers], Some (List.find (has_email e) allUsers))
        | Routes.rejected => ([call_getAllUsers], None)
        end
    | None => ([], Some None)
    end in
  match lookup with
  | (calls, None) => (calls, done_error)
  | (calls, Some (Some existingUser)) => (calls, done_user existingUser)
  | (calls, Some None) =>
      let userInfo := userInfo_of profile in
      (calls ++ [call_upsertUser userInfo],
       match upsertUser b userInfo with
       | Routes.resolved savedUser => done_user savedUser
       | Routes.rejected => done_error
       end)
  end.

(** A backend for examples: one user, who signed up with Google. *)
Definition demo : Backend :=
  mkBackend
    (Routes.resolved [mkStoredUser "g-1" (Some "ann@example.org") "google"])
    (fun info => Routes.resolved
                   (mkStoredUser (info_id info) (info_email info) (info_provider info))).

End DiscordAuth.
(** ** Guards *)

Lemma lookup_ws_client c w ws :
  client_of c w = Some ws -> lookup_ws c (clients w) = ws.
Proof. unfold client_of, lookup_ws. now intros ->. Qed.

Lemma joined_fields ws :
  joined ws = true <->
  exists u r, userId ws = Some u /\ roomId ws = Some r /\
              truthy_string u = true /\ truthy_num r = true.
Proof.
  unfold joined. split.
  - destruct (userId ws) as [u|], (roomId ws) as [r|]; simpl; try discriminate.
    + intros [Hu Hr]%andb_true_iff. eauto 6.
    + rewrite andb_false_r. discriminate.
  - intros (u & r & -> & -> & Hu & Hr). simpl. now rewrite Hu, Hr.
Qed.

Lemma sendErrorToClient_open c w ws msg :
  client_of c w = Some ws -> is_open ws = true ->
  sendErrorToClient c msg w = (Ok tt, add_trace [Send c (error msg)] w).
Proof.
  intros Hc Ho. unfold_monad. rewrite (lookup_ws_client _ _ _ Hc), Ho.
  rewrite (lookup_ws_client _ _ _ Hc), Ho. reflexivity.
Qed.

(** A connection that has not joined gets the same answer from every
    guarded handler: one [error] frame, and nothing else happens. *)
Lemma guard_rejects (k : UserID -> RoomID -> M unit) (e : M unit) ws :
  joined ws = false ->
  match userId ws, roomId ws with
  | Some u, Some r => if truthy_string u && truthy_num r then k u r else e
  | _, _ => e
  end = e.
Proof.
  unfold joined. destruct (userId ws) as [u|], (roomId ws) as [r|]; simpl; try reflexivity.
  now intros ->.
Qed.

Lemma guard_accepts (k : UserID -> RoomID -> M unit) (e : M unit) ws u r :
  userId ws = Some u -> roomId ws = Some r ->
  truthy_string u = true -> truthy_num r = true ->
  match userId ws, roomId ws with
  | Some u, Some r => if truthy_string u && truthy_num r then k u r else e
  | _, _ => e
  end = k u r.
Proof. intros -> -> -> ->. reflexivity. Qed.

(** C6. A [send_message] that arrives on an open connection which has not
    joined a room (no identity or no room attached) is answered with
    exactly one [error] frame, written to the sender only; the store is
    left as it was, so no message is persisted, and nothing is broadcast. *)
Theorem send_message_requires_join env w c ws message personaId :
  client_of c w = Some ws ->
  is_open ws = true ->
  joined ws = false ->
  on_message env c (Some (send_message message personaId)) w =
    (Ok tt, mkWorld (clients w) (storage w) (tick w)
              (trace w ++ [Send c (error "You must join a room before sending messages")])).
Proof.
  intros Hc Ho Hj. unfold on_message, try_catch, handleSendMessage.
  unfold bind at 1, get_ws at 1. rewrite (lookup_ws_client _ _ _ Hc).
  rewrite guard_rejects by assumption.
  now rewrite (sendErrorToClient_open c w ws).
Qed.

(** C6 at a concrete input: a freshly connected socket sends a message. *)
Lemma send_message_requires_join_witness :
  client_of 0%nat world0 = Some (mkClient 0 None None OPEN) /\
  is_open (mkClient 0 None None OPEN) = true /\
  joined (mkClient 0 None None OPEN) = false /\
  on_message env_ok 0%nat (Some (send_message "hello" (Some 3))) world0 =
    (Ok tt, mkWorld (clients world0) (storage world0) (tick world0)
              (trace world0 ++ [Send 0%nat (error "You must join a room before sending messages")])).
Proof.
  split; [reflexivity|]. split; [reflexivity|]. split; [reflexivity|].
  apply (send_message_requires_join env_ok world0 0%nat (mkClient 0 None None OPEN));
    reflexivity.
Defined.

Lemma includes_validTypes t :
  existsb (String.eqb t) validTypes = false <-> ~ In t validTypes.
Proof.
  rewrite <- not_true_iff_false, existsb_exists. split.
  - intros H Hin. apply H. exists t. split; [assumption|apply String.eqb_refl].
  - intros H (x & Hin & Heq). apply String.eqb_eq in Heq. now subst.
Qed.

(** C7. A [send_attachment] whose [attachmentType] is none of image, audio,
    video, document, voice_message is answered with one [error] frame to
    the sender, which on a joined connection is the validation error
    "Invalid attachment type"; no storage call is made ([tick] stands
    still) and the store is unchanged: neither a message nor an attachment
    is created. *)
Theorem invalid_attachment_type_rejected
    env w c ws url fileName fileSize fileType attachmentType :
  client_of c w = Some ws ->
  is_open ws = true ->
  ~ In attachmentType ["image"; "audio"; "video"; "document"; "voice_message"] ->
  exists msg,
    on_message env c
      (Some (send_attachment url fileName fileSize fileType attachmentType)) w =
      (Ok tt, mkWorld (clients w) (storage w) (tick w) (trace w ++ [Send c (error msg)]))
    /\ (joined ws = true -> msg = "Invalid attachment type").
Proof.
  intros Hc Ho Hty. apply includes_validTypes in Hty.
  unfold on_message, try_catch at 1, handleSendAttachment.
  unfold bind at 1, get_ws at 1. rewrite (lookup_ws_client _ _ _ Hc).
  destruct (joined ws) eqn:Hj.
  - apply joined_fields in Hj as (u & r & Hu & Hr & Htu & Htr).
    rewrite (guard_accepts _ _ ws u r) by assumption.
    exists "Invalid attachment type". split; [|reflexivity].
    unfold try_catch. rewrite Hty. change (negb false) with true. cbv iota.
    now rewrite (sendErrorToClient_open c w ws "Invalid attachment type").
  - rewrite guard_rejects by assumption.
    eexists. split; [|discriminate].
    now rewrite (sendErrorToClient_open c w ws).
Qed.

(** C7 at a concrete input: A, joined to room 7, sends a "sticker". *)
Lemma invalid_attachment_type_rejected_witness :
  let w := world_AB env_ok in
  client_of 0%nat w = Some (mkClient 0 (Some "A") (Some 7) OPEN) /\
  ~ In "sticker" ["image"; "audio"; "video"; "document"; "voice_message"] /\
  exists msg,
    on_message env_ok 0%nat
      (Some (send_attachment "http://f/1" "s.png" 10 "image/png" "sticker")) w =
      (Ok tt, mkWorld (clients w) (storage w) (tick w) (trace w ++ [Send 0%nat (error msg)]))
    /\ (joined (mkClient 0 (Some "A") (Some 7) OPEN) = true -> msg = "Invalid attachment type").
Proof.
  assert (Hn : ~ In "sticker" ["image"; "audio"; "video"; "document"; "voice_message"]).
  { simpl. intros H. repeat (destruct H as [H|H]; [discriminate H|]). exact H. }
  split; [reflexivity|]. split; [exact Hn|].
  apply (invalid_attachment_type_rejected env_ok (world_AB env_ok) 0%nat
           (mkClient 0 (Some "A") (Some 7) OPEN)); [reflexivity|reflexivity|exact Hn].
Defined.

(** ** Running the collaborator calls *)

Lemma bind_ok {A B} (m : M A) (k : A -> M B) w a w' :
  m w = (Ok a, w') -> bind m k w = k a w'.
Proof. unfold bind. now intros ->. Qed.

Lemma bind_throw {A B} (m : M A) (k : A -> M B) w e w' :
  m w = (Throw e, w') -> bind m k w = (Throw e, w').
Proof. unfold bind. now intros ->. Qed.

Lemma try_ok {A} (m : M A) h w a w' :
  m w = (Ok a, w') -> try_catch m h w = (Ok a, w').
Proof. unfold try_catch. now intros ->. Qed.

Lemma try_throw {A} (m : M A) h w e w' :
  m w = (Throw e, w') -> try_catch m h w = h e w'.
Proof. unfold try_catch. now intros ->. Qed.

Lemma calls_ok_at env w n k :
  calls_ok env w n -> (k < n)%nat -> fails env (k + tick w) = false.
Proof. intros H. apply H. Qed.

Lemma createMessage_ok env i cl s t tr :
  fails env t = false ->
  storage_createMessage env i (mkWorld cl s t tr) =
    (Ok (new_row i s),
     mkWorld cl (stored i s) (S t) (tr ++ [CreatedMessage (new_row i s)])).
Proof.
  intros Hf. unfold storage_createMessage, await, bind, emit, ret. simpl.
  now rewrite Hf.
Qed.

Lemma createMessage_fail env i cl s t tr :
  fails env t = true ->
  storage_createMessage env i (mkWorld cl s t tr) =
    (Throw StorageError, mkWorld cl s (S t) tr).
Proof.
  intros Hf. unfold storage_createMessage, await, bind, emit, ret. simpl.
  now rewrite Hf.
Qed.

Lemma createAttachment_ok env i cl s t tr a s' :
  fails env t = false ->
  createAttachment i s = Some (a, s') ->
  storage_createAttachment env i (mkWorld cl s t tr) =
    (Ok a, mkWorld cl s' (S t) (tr ++ [CreatedAttachment a])).
Proof.
  intros Hf Hc. unfold storage_createAttachment, await, bind, emit, ret. simpl.
  now rewrite Hf, Hc.
Qed.

Lemma createAttachment_fail env i cl s t tr :
  fails env t = true ->
  storage_createAttachment env i (mkWorld cl s t tr) =
    (Throw StorageError, mkWorld cl s (S t) tr).
Proof.
  intros Hf. unfold storage_createAttachment, await, bind, emit, ret. simpl.
  now rewrite Hf.
Qed.

Lemma getUser_ok env u cl s t tr :
  fails env t = false ->
  storage_getUser env u (mkWorld cl s t tr) = (Ok (getUser u s), mkWorld cl s (S t) tr).
Proof. intros Hf. unfold storage_getUser, await. simpl. now rewrite Hf. Qed.

Lemma getUser_fail env u cl s t tr :
  fails env t = true ->
  storage_getUser env u (mkWorld cl s t tr) = (Throw StorageError, mkWorld cl s (S t) tr).
Proof. intros Hf. unfold storage_getUser, await. simpl. now rewrite Hf. Qed.

Lemma getPersona_ok env p cl s t tr :
  fails env t = false ->
  storage_getPersona env p (mkWorld cl s t tr) =
    (Ok (getPersona p s), mkWorld cl s (S t) tr).
Proof. intros Hf. unfold storage_getPersona, await. simpl. now rewrite Hf. Qed.

Lemma getPersona_fail env p cl s t tr :
  fails env t = true ->
  storage_getPersona env p (mkWorld cl s t tr) =
    (Throw StorageError, mkWorld cl s (S t) tr).
Proof. intros Hf. unfold storage_getPersona, await. simpl. now rewrite Hf. Qed.

Lemma getMessagesByRoom_ok env r lim cl s t tr :
  fails env t = false ->
  storage_getMessagesByRoom env r lim (mkWorld cl s t tr) =
    (Ok (getMessagesByRoom r lim s), mkWorld cl s (S t) tr).
Proof. intros Hf. unfold storage_getMessagesByRoom, await. simpl. now rewrite Hf. Qed.

Lemma getMessagesByRoom_fail env r lim cl s t tr :
  fails env t = true ->
  storage_getMessagesByRoom env r lim (mkWorld cl s t tr) =
    (Throw StorageError, mkWorld cl s (S t) tr).
Proof. intros Hf. unfold storage_getMessagesByRoom, await. simpl. now rewrite Hf. Qed.

Lemma generate_ok env persona ctx cl s t tr :
  fails env t = false ->
  generateAIResponse env persona ctx (mkWorld cl s t tr) =
    (Ok (reply env persona ctx), mkWorld cl s (S t) (tr ++ [Generate persona ctx])).
Proof. intros Hf. unfold generateAIResponse, bind, emit. simpl. now rewrite Hf. Qed.

Lemma generate_fail env persona ctx cl s t tr :
  fails env t = true ->
  generateAIResponse env persona ctx (mkWorld cl s t tr) =
    (Throw GenerationError, mkWorld cl s (S t) (tr ++ [Generate persona ctx])).
Proof. intros Hf. unfold generateAIResponse, bind, emit. simpl. now rewrite Hf. Qed.

Lemma broadcastToRoom_run r ev cl s t tr :
  broadcastToRoom r ev (mkWorld cl s t tr) =
    (Ok tt, mkWorld cl s t (tr ++ broadcast r ev cl)).
Proof. reflexivity. Qed.

Lemma sendErrorToClient_run c msg cl s t tr :
  sendErrorToClient c msg (mkWorld cl s t tr) =
    (Ok tt, mkWorld cl s t
              (tr ++ if is_open (lookup_ws c cl) then [Send c (error msg)] else [])).
Proof.
  unfold_monad. simpl. destruct (is_open (lookup_ws c cl)) eqn:Ho; simpl.
  - now rewrite Ho.
  - now rewrite app_nil_r.
Qed.

Lemma ws_send_run c ev cl s t tr :
  ws_send c ev (mkWorld cl s t tr) =
    (Ok tt, mkWorld cl s t (tr ++ if is_open (lookup_ws c cl) then [Send c ev] else [])).
Proof.
  unfold ws_send, get_ws, bind, emit, ret. simpl.
  destruct (is_open (lookup_ws c cl)); simpl; [reflexivity|]. now rewrite app_nil_r.
Qed.

Lemma broadcastActiveUsers_run r cl s t tr :
  broadcastActiveUsers r (mkWorld cl s t tr) =
    (Ok tt, mkWorld cl s t (tr ++ broadcast r (active_users r (getActiveUsers r s)) cl)).
Proof. reflexivity. Qed.

Lemma world_eta w : w = mkWorld (clients w) (storage w) (tick w) (trace w).
Proof. now destruct w. Qed.

(** ** The persona reply pipeline of [handleSendMessage] *)

(** Up to the generation call: the typing indicator is broadcast, the
    persona is resolved and the context is assembled. *)
Lemma generate_reply_reaches_generation env c r p um user cl s t tr persona :
  fails env t = false -> fails env (S t) = false ->
  getPersona p s = Some persona ->
  generate_reply env c r p um user (mkWorld cl s t tr) =
    bind (generateAIResponse env persona
            (context_of um user (getMessagesByRoom r (Some 5%nat) s)))
      (fun aiResponse =>
         bind (storage_createMessage env (mkInsertMessage r None (Some p) aiResponse))
           (fun aiMessage =>
              broadcastToRoom r
                (new_message (mkChatMessage aiMessage None (Some persona) []))))
      (mkWorld cl s (S (S t)) (tr ++ broadcast r (persona_typing p r) cl)).
Proof.
  intros H0 H1 Hp. unfold generate_reply.
  rewrite (bind_ok _ _ _ _ _ (broadcastToRoom_run _ _ _ _ _ _)).
  rewrite (bind_ok _ _ _ _ _ (getPersona_ok _ _ _ _ _ _ H0)). rewrite Hp.
  rewrite (bind_ok _ _ _ _ _ (getMessagesByRoom_ok _ _ _ _ _ _ _ H1)).
  reflexivity.
Qed.

Lemma generate_reply_success env c r p um user cl s t tr persona :
  fails env t = false -> fails env (S t) = false ->
  fails env (S (S t)) = false -> fails env (S (S (S t))) = false ->
  getPersona p s = Some persona ->
  let ctx := context_of um user (getMessagesByRoom r (Some 5%nat) s) in
  let ins := persona_insert r p (reply env persona ctx) in
  generate_reply env c r p um user (mkWorld cl s t tr) =
    (Ok tt,
     mkWorld cl (stored ins s) (S (S (S (S t))))
       (tr ++ broadcast r (persona_typing p r) cl
           ++ [Generate persona ctx]
           ++ [CreatedMessage (new_row ins s)]
           ++ broadcast r
                (new_message (mkChatMessage (new_row ins s) None (Some persona) [])) cl)).
Proof.
  intros H0 H1 H2 H3 Hp ctx ins.
  rewrite (generate_reply_reaches_generation _ _ _ _ _ _ _ _ _ _ persona) by assumption.
  rewrite (bind_ok _ _ _ _ _ (generate_ok _ _ _ _ _ _ _ H2)).
  rewrite (bind_ok _ _ _ _ _ (createMessage_ok _ _ _ _ _ _ H3)).
  rewrite broadcastToRoom_run. subst ctx ins. unfold persona_insert.
  now rewrite <- !app_assoc.
Qed.

Lemma generate_reply_generation_fails env c r p um user cl s t tr persona :
  fails env t = false -> fails env (S t) = false ->
  fails env (S (S t)) = true ->
  getPersona p s = Some persona ->
  let ctx := context_of um user (getMessagesByRoom r (Some 5%nat) s) in
  generate_reply env c r p um user (mkWorld cl s t tr) =
    (Throw GenerationError,
     mkWorld cl s (S (S (S t)))
       (tr ++ broadcast r (persona_typing p r) cl ++ [Generate persona ctx])).
Proof.
  intros H0 H1 H2 Hp ctx.
  rewrite (generate_reply_reaches_generation _ _ _ _ _ _ _ _ _ _ persona) by assumption.
  rewrite (bind_throw _ _ _ _ _ (generate_fail _ _ _ _ _ _ _ H2)).
  now rewrite <- !app_assoc.
Qed.

(** The [catch] branch: the scripted line is stored and broadcast when the
    two storage calls of the fallback work. *)
Lemma fallback_reply_stored env r p cl s t tr :
  fails env t = false -> fails env (S t) = false ->
  let ins := persona_insert r p fallback_text in
  fallback_reply env r p (mkWorld cl s t tr) =
    (Ok tt,
     mkWorld cl (stored ins s) (S (S t))
       (tr ++ [CreatedMessage (new_row ins s)]
           ++ broadcast r
                (new_message (mkChatMessage (new_row ins s) None (getPersona p s) [])) cl)).
Proof.
  intros H0 H1 ins. unfold fallback_reply.
  erewrite try_ok; [reflexivity|].
  rewrite (bind_ok _ _ _ _ _ (getPersona_ok _ _ _ _ _ _ H0)).
  rewrite (bind_ok _ _ _ _ _ (createMessage_ok _ _ _ _ _ _ H1)).
  rewrite broadcastToRoom_run. now rewrite <- !app_assoc.
Qed.

(** The [catch] of the [catch]: when storing the scripted line fails, or
    the persona cannot be read again, one [ai_error] is broadcast and the
    store stays as it was. *)
Lemma fallback_reply_store_fails env r p cl s t tr :
  fails env t = false -> fails env (S t) = true ->
  fallback_reply env r p (mkWorld cl s t tr) =
    (Ok tt,
     mkWorld cl s (S (S t))
       (tr ++ broadcast r (ai_error p "Failed to generate AI response") cl)).
Proof.
  intros H0 H1. unfold fallback_reply.
  erewrite try_throw; [apply broadcastToRoom_run|].
  rewrite (bind_ok _ _ _ _ _ (getPersona_ok _ _ _ _ _ _ H0)).
  now rewrite (bind_throw _ _ _ _ _ (createMessage_fail _ _ _ _ _ _ H1)).
Qed.

Lemma fallback_reply_lookup_fails env r p cl s t tr :
  fails env t = true ->
  fallback_reply env r p (mkWorld cl s t tr) =
    (Ok tt,
     mkWorld cl s (S t)
       (tr ++ broadcast r (ai_error p "Failed to generate AI response") cl)).
Proof.
  intros H0. unfold fallback_reply.
  erewrite try_throw; [apply broadcastToRoom_run|].
  now rewrite (bind_throw _ _ _ _ _ (getPersona_fail _ _ _ _ _ _ H0)).
Qed.

(** The first half of [handleSendMessage] on a joined connection: the
    human message is stored, its author is read, and it is broadcast. *)
Lemma handleSendMessage_human env c ws u r message personaId w :
  client_of c w = Some ws ->
  userId ws = Some u -> roomId ws = Some r ->
  truthy_string u = true -> truthy_num r = true ->
  fails env (tick w) = false -> fails env (S (tick w)) = false ->
  let ins := human_insert r u message in
  let um := new_row ins (storage w) in
  let user := getUser u (stored ins (storage w)) in
  handleSendMessage env c message personaId w =
    try_catch
      (match personaId with
       | Some p =>
           if truthy_num p then
             try_catch (generate_reply env c r p um user) (fun _ => fallback_reply env r p)
           else ret tt
       | None => ret tt
       end)
      (fun _ => sendErrorToClient c "Failed to process your message")
      (mkWorld (clients w) (stored ins (storage w)) (S (S (tick w)))
         (trace w ++ [CreatedMessage um]
                  ++ broadcast r (new_message (mkChatMessage um user None [])) (clients w))).
Proof.
  intros Hc Hu Hr Htu Htr H0 H1 ins um user. unfold handleSendMessage.
  unfold bind at 1, get_ws at 1. rewrite (lookup_ws_client _ _ _ Hc).
  rewrite (guard_accepts _ _ ws u r) by assumption.
  rewrite (world_eta w) at 1. unfold try_catch at 1.
  rewrite (bind_ok _ _ _ _ _ (createMessage_ok _ _ _ _ _ _ H0)).
  rewrite (bind_ok _ _ _ _ _ (getUser_ok _ _ _ _ _ _ H1)).
  rewrite (bind_ok _ _ _ _ _ (broadcastToRoom_run _ _ _ _ _ _)).
  unfold try_catch at 2. subst ins um user. unfold human_insert.
  now rewrite <- !app_assoc.
Qed.

Lemma generate_reply_store_fails env c r p um user cl s t tr persona :
  fails env t = false -> fails env (S t) = false ->
  fails env (S (S t)) = false -> fails env (S (S (S t))) = true ->
  getPersona p s = Some persona ->
  let ctx := context_of um user (getMessagesByRoom r (Some 5%nat) s) in
  generate_reply env c r p um user (mkWorld cl s t tr) =
    (Throw StorageError,
     mkWorld cl s (S (S (S (S t))))
       (tr ++ broadcast r (persona_typing p r) cl ++ [Generate persona ctx])).
Proof.
  intros H0 H1 H2 H3 Hp ctx.
  rewrite (generate_reply_reaches_generation _ _ _ _ _ _ _ _ _ _ persona) by assumption.
  rewrite (bind_ok _ _ _ _ _ (generate_ok _ _ _ _ _ _ _ H2)).
  rewrite (bind_throw _ _ _ _ _ (createMessage_fail _ _ _ _ _ _ H3)).
  now rewrite <- !app_assoc.
Qed.

Lemma fallback_reply_run env r p cl s t tr :
  fallback_reply env r p (mkWorld cl s t tr) =
    let '(s', t', l) := fallback_outcome env r p cl s t in
    (Ok tt, mkWorld cl s' t' (tr ++ l)).
Proof.
  unfold fallback_outcome.
  destruct (fails env t) eqn:H0; [now apply fallback_reply_lookup_fails|].
  destruct (fails env (S t)) eqn:H1; [now apply fallback_reply_store_fails|].
  now apply fallback_reply_stored.
Qed.

(** The whole persona reply, [try] and [catch], once the persona is
    resolved and the history read: typing indicator, generation call, then
    whatever [generation_outcome] says. *)
Lemma persona_reply_run env c r p um user cl s t tr persona :
  fails env t = false -> fails env (S t) = false ->
  getPersona p s = Some persona ->
  let ctx := context_of um user (getMessagesByRoom r (Some 5%nat) s) in
  try_catch (generate_reply env c r p um user) (fun _ => fallback_reply env r p)
    (mkWorld cl s t tr) =
    let '(s', t', l) := generation_outcome env r p persona ctx cl s (S (S t)) in
    (Ok tt,
     mkWorld cl s' t'
       (tr ++ broadcast r (persona_typing p r) cl ++ [Generate persona ctx] ++ l)).
Proof.
  intros H0 H1 Hp ctx. unfold generation_outcome.
  destruct (fails env (S (S t))) eqn:H2.
  - rewrite (try_throw _ _ _ _ _ (generate_reply_generation_fails _ c r p um user cl s t tr persona H0 H1 H2 Hp)).
    rewrite fallback_reply_run.
    destruct (fallback_outcome env r p cl s (S (S (S t)))) as [[s' t'] l].
    now rewrite <- !app_assoc.
  - destruct (fails env (S (S (S t)))) eqn:H3.
    + rewrite (try_throw _ _ _ _ _ (generate_reply_store_fails _ c r p um user cl s t tr persona H0 H1 H2 H3 Hp)).
      rewrite fallback_reply_run.
      destruct (fallback_outcome env r p cl s (S (S (S (S t))))) as [[s' t'] l].
      now rewrite <- !app_assoc.
    + rewrite (try_ok _ _ _ _ _ (generate_reply_success _ c r p um user cl s t tr persona H0 H1 H2 H3 Hp)). reflexivity.
Qed.

(** [handleSendMessage] with a persona, on a joined connection, when the
    human message is stored and the author, persona and history reads
    work. *)
Lemma send_message_persona_run env w c ws u r message p persona :
  client_of c w = Some ws ->
  userId ws = Some u -> roomId ws = Some r ->
  truthy_string u = true -> truthy_num r = true ->
  truthy_num p = true ->
  calls_ok env w 4 ->
  getPersona p (storage w) = Some persona ->
  let ins := human_insert r u message in
  let um := new_row ins (storage w) in
  let s1 := stored ins (storage w) in
  let user := getUser u s1 in
  let ctx := context_of um user (getMessagesByRoom r (Some 5%nat) s1) in
  on_message env c (Some (send_message message (Some p))) w =
    let '(s', t', l) :=
      generation_outcome env r p persona ctx (clients w) s1 (4 + tick w) in
    (Ok tt,
     mkWorld (clients w) s' t'
       (trace w ++ [CreatedMessage um]
                ++ broadcast r (new_message (mkChatMessage um user None [])) (clients w)
                ++ broadcast r (persona_typing p r) (clients w)
                ++ [Generate persona ctx] ++ l)).
Proof.
  intros Hc Hu Hr Htu Htr Htp Hok Hp ins um s1 user ctx.
  pose proof (calls_ok_at _ _ _ 0 Hok ltac:(lia)) as H0.
  pose proof (calls_ok_at _ _ _ 1 Hok ltac:(lia)) as H1.
  pose proof (calls_ok_at _ _ _ 2 Hok ltac:(lia)) as H2.
  pose proof (calls_ok_at _ _ _ 3 Hok ltac:(lia)) as H3.
  simpl in H0, H1, H2, H3.
  change (on_message env c (Some (send_message message (Some p))) w)
    with (try_catch (handleSendMessage env c message (Some p))
            (fun _ => sendErrorToClient c "Failed to process your request") w).
  unfold try_catch at 1.
  rewrite (handleSendMessage_human env c ws u r message (Some p) w) by assumption.
  rewrite Htp. fold ins um s1 user.
  assert (Hp1 : getPersona p s1 = Some persona) by exact Hp.
  unfold try_catch at 1.
  rewrite (persona_reply_run env c r p um user _ _ _ _ persona) by assumption.
  fold ctx. simpl plus.
  destruct (generation_outcome env r p persona ctx (clients w) s1 (S (S (S (S (tick w))))))
    as [[s' t'] l].
  now rewrite <- !app_assoc.
Qed.

Lemma generate_reply_lookup_fails env c r p um user cl s t tr :
  fails env t = true ->
  generate_reply env c r p um user (mkWorld cl s t tr) =
    (Throw StorageError,
     mkWorld cl s (S t) (tr ++ broadcast r (persona_typing p r) cl)).
Proof.
  intros H0. unfold generate_reply.
  rewrite (bind_ok _ _ _ _ _ (broadcastToRoom_run _ _ _ _ _ _)).
  now rewrite (bind_throw _ _ _ _ _ (getPersona_fail _ _ _ _ _ _ H0)).
Qed.

Lemma generate_reply_no_persona env c r p um user cl s t tr :
  fails env t = false -> getPersona p s = None ->
  generate_reply env c r p um user (mkWorld cl s t tr) =
    (Ok tt,
     mkWorld cl s (S t)
       (tr ++ broadcast r (persona_typing p r) cl
           ++ if is_open (lookup_ws c cl) then [Send c (error "Persona not found")] else [])).
Proof.
  intros H0 Hp. unfold generate_reply.
  rewrite (bind_ok _ _ _ _ _ (broadcastToRoom_run _ _ _ _ _ _)).
  rewrite (bind_ok _ _ _ _ _ (getPersona_ok _ _ _ _ _ _ H0)). rewrite Hp.
  rewrite sendErrorToClient_run. now rewrite <- !app_assoc.
Qed.

Lemma generate_reply_history_fails env c r p um user cl s t tr persona :
  fails env t = false -> fails env (S t) = true ->
  getPersona p s = Some persona ->
  generate_reply env c r p um user (mkWorld cl s t tr) =
    (Throw StorageError,
     mkWorld cl s (S (S t)) (tr ++ broadcast r (persona_typing p r) cl)).
Proof.
  intros H0 H1 Hp. unfold generate_reply.
  rewrite (bind_ok _ _ _ _ _ (broadcastToRoom_run _ _ _ _ _ _)).
  rewrite (bind_ok _ _ _ _ _ (getPersona_ok _ _ _ _ _ _ H0)). rewrite Hp.
  now rewrite (bind_throw _ _ _ _ _ (getMessagesByRoom_fail _ _ _ _ _ _ _ H1)).
Qed.

(** Every path through the persona reply. *)
Lemma persona_reply_any_run env c r p um user cl s t tr :
  try_catch (generate_reply env c r p um user) (fun _ => fallback_reply env r p)
    (mkWorld cl s t tr) =
    let '(s', t', l) := reply_outcome env c r p um user cl s t in
    (Ok tt, mkWorld cl s' t' (tr ++ broadcast r (persona_typing p r) cl ++ l)).
Proof.
  unfold reply_outcome.
  destruct (fails env t) eqn:H0.
  { rewrite (try_throw _ _ _ _ _ (generate_reply_lookup_fails _ c r p um user cl s t tr H0)).
    rewrite fallback_reply_run.
    destruct (fallback_outcome env r p cl s (S t)) as [[s' t'] l].
    now rewrite <- !app_assoc. }
  destruct (getPersona p s) as [persona|] eqn:Hp.
  2:{ now rewrite (try_ok _ _ _ _ _ (generate_reply_no_persona _ c r p um user cl s t tr H0 Hp)). }
  destruct (fails env (S t)) eqn:H1.
  { rewrite (try_throw _ _ _ _ _
               (generate_reply_history_fails _ c r p um user cl s t tr persona H0 H1 Hp)).
    rewrite fallback_reply_run.
    destruct (fallback_outcome env r p cl s (S (S t))) as [[s' t'] l].
    now rewrite <- !app_assoc. }
  rewrite (persona_reply_run env c r p um user cl s t tr persona H0 H1 Hp).
  cbv zeta.
  destruct (generation_outcome env r p persona _ cl s (S (S t))) as [[s' t'] l].
  reflexivity.
Qed.

(** [handleSendMessage] with a persona, on a joined connection, once the
    human message is stored and its author read. *)
Lemma send_message_any_run env w c ws u r message p :
  client_of c w = Some ws ->
  userId ws = Some u -> roomId ws = Some r ->
  truthy_string u = true -> truthy_num r = true ->
  truthy_num p = true ->
  calls_ok env w 2 ->
  let ins := human_insert r u message in
  let um := new_row ins (storage w) in
  let s1 := stored ins (storage w) in
  let user := getUser u s1 in
  on_message env c (Some (send_message message (Some p))) w =
    let '(s', t', l) := reply_outcome env c r p um user (clients w) s1 (2 + tick w) in
    (Ok tt,
     mkWorld (clients w) s' t'
       (trace w ++ [CreatedMessage um]
                ++ broadcast r (new_message (mkChatMessage um user None [])) (clients w)
                ++ broadcast r (persona_typing p r) (clients w)
                ++ l)).
Proof.
  intros Hc Hu Hr Htu Htr Htp Hok ins um s1 user.
  pose proof (calls_ok_at _ _ _ 0 Hok ltac:(lia)) as H0.
  pose proof (calls_ok_at _ _ _ 1 Hok ltac:(lia)) as H1.
  simpl in H0, H1.
  change (on_message env c (Some (send_message message (Some p))) w)
    with (try_catch (handleSendMessage env c message (Some p))
            (fun _ => sendErrorToClient c "Failed to process your request") w).
  unfold try_catch at 1.
  rewrite (handleSendMessage_human env c ws u r message (Some p) w) by assumption.
  rewrite Htp. fold ins um s1 user.
  unfold try_catch at 1.
  rewrite persona_reply_any_run. simpl plus.
  destruct (reply_outcome env c r p um user (clients w) s1 (S (S (tick w))))
    as [[s' t'] l].
  now rewrite <- !app_assoc.
Qed.

(** ** Who receives a broadcast *)

Lemma client_of_In c w ws :
  client_of c w = Some ws -> In ws (clients w) /\ cid ws = c.
Proof.
  unfold client_of. intros H. apply find_some in H as [Hin Heq].
  split; [assumption|]. now apply Nat.eqb_eq.
Qed.

Lemma in_room_spec r ws : in_room r ws = true <-> roomId ws = Some r.
Proof.
  unfold in_room. destruct (roomId ws) as [r'|]; [|split; discriminate].
  rewrite Z.eqb_eq. split; [now intros ->|now intros [= ->]].
Qed.

(** An open socket whose room is [r] is among the receivers. *)
Lemma sender_receives c w ws r ev :
  client_of c w = Some ws -> roomId ws = Some r -> is_open ws = true ->
  In (Send c ev) (broadcast r ev (clients w)).
Proof.
  intros Hc Hr Ho. apply client_of_In in Hc as [Hin <-].
  unfold broadcast, recipients. rewrite map_map. apply in_map_iff.
  exists ws. split; [reflexivity|]. apply filter_In. split; [assumption|].
  apply andb_true_iff. split; [now apply in_room_spec|assumption].
Qed.

Lemma Forall_broadcast (P : Effect -> Prop) r ev cl :
  (forall c, P (Send c ev)) -> Forall P (broadcast r ev cl).
Proof.
  intros H. unfold broadcast. apply List.Forall_forall.
  intros e (c & <- & _)%in_map_iff. apply H.
Qed.

(** ** Who a broadcast is for *)

(** [broadcastToRoom] selects the live sockets that are open and whose
    room is the room, and no others. *)
Lemma recipients_spec r cl to : In to (recipients r cl) <-> room_socket r cl to.
Proof.
  unfold recipients, room_socket. rewrite in_map_iff. split.
  - intros (ws & Hcid & Hin). apply filter_In in Hin as [Hin Hb].
    apply andb_true_iff in Hb as [Hr Ho]. apply in_room_spec in Hr.
    exists ws. unfold is_open in Ho.
    destruct (readyState ws) eqn:Hs; try discriminate Ho. now repeat split.
  - intros (ws & Hin & Hcid & Hr & Ho). exists ws. split; [assumption|].
    apply filter_In. split; [assumption|]. apply andb_true_iff.
    split; [now apply in_room_spec|]. unfold is_open. now rewrite Ho.
Qed.

Lemma in_broadcast r ev cl to ev' :
  In (Send to ev') (broadcast r ev cl) <-> ev' = ev /\ room_socket r cl to.
Proof.
  unfold broadcast. rewrite in_map_iff. split.
  - intros (c & [= -> ->] & Hin). split; [reflexivity|]. now apply recipients_spec.
  - intros [-> Hto]. exists to. split; [reflexivity|]. now apply recipients_spec.
Qed.

Lemma broadcast_reaches r ev cl : reaches_room r ev cl (broadcast r ev cl).
Proof. intros to Hto. now apply in_broadcast. Qed.

Lemma broadcast_only_to_room r ev cl : only_to_room r cl (broadcast r ev cl).
Proof. intros to ev' Hin. now apply in_broadcast in Hin. Qed.

Lemma reaches_room_app_l r ev cl l1 l2 :
  reaches_room r ev cl l1 -> reaches_room r ev cl (l1 ++ l2).
Proof. intros H to Hto. apply in_app_iff. left. now apply H. Qed.

Lemma reaches_room_app_r r ev cl l1 l2 :
  reaches_room r ev cl l2 -> reaches_room r ev cl (l1 ++ l2).
Proof. intros H to Hto. apply in_app_iff. right. now apply H. Qed.

Lemma only_to_room_app r cl l1 l2 :
  only_to_room r cl l1 -> only_to_room r cl l2 -> only_to_room r cl (l1 ++ l2).
Proof.
  intros H1 H2 to ev Hin. apply in_app_iff in Hin as [Hin|Hin]; [now apply (H1 to ev)|
  now apply (H2 to ev)].
Qed.

Lemma only_to_room_created r cl m : only_to_room r cl [CreatedMessage m].
Proof. intros to ev [Hin|[]]. discriminate Hin. Qed.

Lemma NoDup_recipients r cl :
  List.NoDup (List.map cid cl) -> List.NoDup (recipients r cl).
Proof.
  unfold recipients. induction cl as [|x cl IH]; simpl; intros Hnd; [constructor|].
  inversion Hnd as [|? ? Hx Hnd']; subst.
  destruct (in_room r x && is_open x); simpl; [|now apply IH].
  constructor; [|now apply IH].
  intros (y & Hy & Hin)%in_map_iff. apply filter_In in Hin as [Hin _].
  apply Hx. rewrite <- Hy. now apply in_map.
Qed.

(** With distinct sockets, one broadcast writes one frame per receiver. *)
Lemma NoDup_broadcast r ev cl :
  List.NoDup (List.map cid cl) -> List.NoDup (broadcast r ev cl).
Proof.
  intros Hnd. unfold broadcast. apply NoDup_recipients with (r := r) in Hnd.
  induction Hnd as [|to l Hto _ IH]; simpl; constructor; [|exact IH].
  intros (to' & [= ->] & Hin)%in_map_iff. contradiction.
Qed.

Lemma fallback_outcome_after_typing env r p cl s t :
  Forall (after_typing p) (fallback_outcome env r p cl s t).2.
Proof.
  unfold fallback_outcome.
  destruct (fails env t); [now apply Forall_broadcast|].
  destruct (fails env (S t)); [now apply Forall_broadcast|].
  simpl. constructor; [now split|]. now apply Forall_broadcast.
Qed.

Lemma generation_outcome_after_typing env r p persona ctx cl s t :
  Forall (after_typing p) (generation_outcome env r p persona ctx cl s t).2.
Proof.
  unfold generation_outcome.
  destruct (fails env t); [apply fallback_outcome_after_typing|].
  destruct (fails env (S t)); [apply fallback_outcome_after_typing|].
  simpl. constructor; [now split|]. now apply Forall_broadcast.
Qed.

Lemma reply_outcome_after_typing env c r p um user cl s t :
  Forall (after_typing p) (reply_outcome env c r p um user cl s t).2.
Proof.
  unfold reply_outcome.
  destruct (fails env t); [apply fallback_outcome_after_typing|].
  destruct (getPersona p s) as [persona|].
  - destruct (fails env (S t)); [apply fallback_outcome_after_typing|].
    pose proof (generation_outcome_after_typing env r p persona
                  (context_of um user (getMessagesByRoom r (Some 5%nat) s)) cl s (S (S t))) as H.
    destruct (generation_outcome _ _ _ _ _ _ _ _) as [[s' t'] l]. simpl in *.
    constructor; [exact I|exact H].
  - simpl. destruct (is_open _); repeat constructor.
Qed.

(** C3. On a joined, open connection, once the human message of a
    [send_message] with a persona is stored and its author read, the trace
    of the run is: the human message created, its [new_message] broadcast,
    then the [persona_typing] broadcast, then the rest.  Both broadcasts
    reach at least the sender; the rest holds no frame of the human message
    and no typing indicator, only what the persona reply produces: the
    generation call, and the persona's reply or scripted fallback stored
    and broadcast.  When all six collaborator calls succeed the rest is
    exactly the generation call, the stored reply and its broadcast. *)
Theorem send_message_broadcast_order env w c ws u r message p :
  client_of c w = Some ws ->
  is_open ws = true ->
  userId ws = Some u -> roomId ws = Some r ->
  truthy_string u = true -> truthy_num r = true ->
  truthy_num p = true ->
  calls_ok env w 2 ->
  let um := new_row (human_insert r u message) (storage w) in
  let s1 := stored (human_insert r u message) (storage w) in
  let human := broadcast r (new_message (mkChatMessage um (getUser u s1) None [])) (clients w) in
  let typing := broadcast r (persona_typing p r) (clients w) in
  exists rest,
    trace (exec (on_message env c (Some (send_message message (Some p)))) w) =
      trace w ++ [CreatedMessage um] ++ human ++ typing ++ rest
    /\ In (Send c (new_message (mkChatMessage um (getUser u s1) None []))) human
    /\ In (Send c (persona_typing p r)) typing
    /\ Forall (after_typing p) rest
    /\ (forall persona,
          calls_ok env w 6 -> getPersona p (storage w) = Some persona ->
          let ctx := context_of um (getUser u s1) (getMessagesByRoom r (Some 5%nat) s1) in
          let am := new_row (persona_insert r p (reply env persona ctx)) s1 in
          rest = [Generate persona ctx] ++ [CreatedMessage am]
                 ++ broadcast r (new_message (mkChatMessage am None (Some persona) []))
                      (clients w)).
Proof.
  intros Hc Ho Hu Hr Htu Htr Htp Hok um s1 human typing.
  pose proof (send_message_any_run env w c ws u r message p Hc Hu Hr Htu Htr Htp Hok) as Hrun.
  cbv zeta in Hrun. fold um s1 in Hrun.
  pose proof (reply_outcome_after_typing env c r p um (getUser u s1) (clients w) s1
                (2 + tick w)) as Hrest.
  destruct (reply_outcome env c r p um (getUser u s1) (clients w) s1 (2 + tick w))
    as [[s' t'] l] eqn:Hout.
  exists l. unfold exec. rewrite Hrun. simpl. split; [reflexivity|].
  split; [now apply (sender_receives c w ws)|].
  split; [now apply (sender_receives c w ws)|].
  split; [exact Hrest|].
  intros persona Hok6 Hp.
  pose proof (calls_ok_at _ _ _ 2 Hok6 ltac:(lia)) as H2.
  pose proof (calls_ok_at _ _ _ 3 Hok6 ltac:(lia)) as H3.
  pose proof (calls_ok_at _ _ _ 4 Hok6 ltac:(lia)) as H4.
  pose proof (calls_ok_at _ _ _ 5 Hok6 ltac:(lia)) as H5.
  simpl in H2, H3, H4, H5.
  unfold reply_outcome, generation_outcome in Hout. simpl plus in Hout.
  assert (Hp1 : getPersona p s1 = Some persona) by exact Hp.
  rewrite H2, Hp1, H3, H4, H5 in Hout. now inversion Hout.
Qed.

Lemma no_error_in_broadcast r ev cl :
  (forall msg, ev <> error msg) ->
  forall to msg, ~ In (Send to (error msg)) (broadcast r ev cl).
Proof.
  intros Hev to msg (c & Heq & _)%in_map_iff. injection Heq as _ Heq.
  now apply (Hev msg).
Qed.

(** C2, as the code has it.  On a joined connection, when a
    [send_message] with a persona gets as far as the generation call and
    that call fails: if the two storage calls of the fallback (reading the
    persona again, storing the line) work, a message authored by the same
    persona, with no user author and body exactly "I'm having trouble
    accessing my knowledge. Please try again later.", is stored and
    broadcast as [new_message]; if one of them fails, the persona read as
    well as the store, one [ai_error] broadcast goes to the room, nothing
    else is written, and the only message stored by the run is the human
    one.  Either broadcast reaches every open socket of the room, the
    sender's included, and no other socket, with one frame per socket
    when sockets are distinct.  In neither case is an [error] frame
    written to anybody. *)
Theorem generation_failure_fallback env w c ws u r message p persona :
  client_of c w = Some ws ->
  userId ws = Some u -> roomId ws = Some r ->
  truthy_string u = true -> truthy_num r = true ->
  truthy_num p = true ->
  calls_ok env w 4 ->
  getPersona p (storage w) = Some persona ->
  fails env (4 + tick w) = true ->
  let um := new_row (human_insert r u message) (storage w) in
  let s1 := stored (human_insert r u message) (storage w) in
  let ctx := context_of um (getUser u s1) (getMessagesByRoom r (Some 5%nat) s1) in
  let before :=
    [CreatedMessage um]
    ++ broadcast r (new_message (mkChatMessage um (getUser u s1) None [])) (clients w)
    ++ broadcast r (persona_typing p r) (clients w)
    ++ [Generate persona ctx] in
  let fb := new_row (persona_insert r p
              "I'm having trouble accessing my knowledge. Please try again later.") s1 in
  let fallback := new_message (mkChatMessage fb None (Some persona) []) in
  let failure := ai_error p "Failed to generate AI response" in
  let w' := exec (on_message env c (Some (send_message message (Some p)))) w in
  exists answer,
    trace w' = trace w ++ before ++ answer
    /\ (fails env (5 + tick w) = false -> fails env (6 + tick w) = false ->
        answer = [CreatedMessage fb] ++ broadcast r fallback (clients w)
        /\ reaches_room r fallback (clients w) answer
        /\ (is_open ws = true -> In (Send c fallback) answer)
        /\ messages (storage w') = fb :: um :: messages (storage w)
        /\ msg_personaId fb = Some p /\ msg_userId fb = None
        /\ msg_message fb =
             "I'm having trouble accessing my knowledge. Please try again later.")
    /\ (fails env (5 + tick w) = true \/ fails env (6 + tick w) = true ->
        answer = broadcast r failure (clients w)
        /\ reaches_room r failure (clients w) answer
        /\ (is_open ws = true -> In (Send c failure) answer)
        /\ Forall (fun e => exists to, e = Send to failure) answer
        /\ messages (storage w') = um :: messages (storage w))
    /\ only_to_room r (clients w) answer
    /\ (distinct_sockets w -> List.NoDup answer)
    /\ (forall to msg, ~ In (Send to (error msg)) (before ++ answer)).
Proof.
  intros Hc Hu Hr Htu Htr Htp Hok Hp Hgen um s1 ctx before fb fallback failure w'.
  pose proof (send_message_persona_run env w c ws u r message p persona
                Hc Hu Hr Htu Htr Htp Hok Hp) as Hrun.
  cbv zeta in Hrun. fold um s1 ctx in Hrun.
  unfold generation_outcome in Hrun. simpl plus in Hrun, Hgen |- *.
  rewrite Hgen in Hrun. unfold fallback_outcome in Hrun.
  assert (Hp1 : getPersona p s1 = Some persona) by exact Hp.
  assert (Hsender : forall ev, is_open ws = true -> In (Send c ev) (broadcast r ev (clients w))).
  { intros ev Ho. now apply (sender_receives c w ws). }
  assert (Hne : forall answer,
             (forall to msg, ~ In (Send to (error msg)) answer) ->
             forall to msg, ~ In (Send to (error msg)) (before ++ answer)).
  { intros answer Ha to msg Hin. unfold before in Hin.
    rewrite !in_app_iff in Hin. simpl in Hin.
    destruct Hin as [[[Hin|[]]|[Hin|[Hin|[Hin|[]]]]]|Hin]; try discriminate Hin.
    - now apply no_error_in_broadcast in Hin.
    - now apply no_error_in_broadcast in Hin.
    - now apply Ha in Hin. }
  assert (Hfail : forall answer,
            answer = broadcast r failure (clients w) ->
            (answer = broadcast r failure (clients w)
             /\ reaches_room r failure (clients w) answer
             /\ (is_open ws = true -> In (Send c failure) answer)
             /\ Forall (fun e => exists to, e = Send to failure) answer)
            /\ only_to_room r (clients w) answer
            /\ (distinct_sockets w -> List.NoDup answer)
            /\ (forall to msg, ~ In (Send to (error msg)) (before ++ answer))).
  { intros answer ->. split; [split; [reflexivity|split; [apply broadcast_reaches|]]|].
    - split; [apply Hsender|]. apply List.Forall_forall.
      intros e (to & <- & _)%in_map_iff. now exists to.
    - split; [apply broadcast_only_to_room|]. split; [apply NoDup_broadcast|].
      apply Hne. now apply no_error_in_broadcast. }
  destruct (fails env (S (S (S (S (S (tick w))))))) eqn:H5.
  { eexists. subst w'. unfold exec. rewrite Hrun. simpl.
    split; [unfold before; now rewrite <- !app_assoc|].
    destruct (Hfail _ eq_refl) as ((He & Hre & Hse & Hall) & Honly & Hnd & Hno).
    split; [discriminate|]. split; [intros _; now repeat split|].
    now repeat split. }
  destruct (fails env (S (S (S (S (S (S (tick w)))))))) eqn:H6.
  { eexists. subst w'. unfold exec. rewrite Hrun. simpl.
    split; [unfold before; now rewrite <- !app_assoc|].
    destruct (Hfail _ eq_refl) as ((He & Hre & Hse & Hall) & Honly & Hnd & Hno).
    split; [discriminate|]. split; [intros _; now repeat split|].
    now repeat split. }
  eexists. subst w'. unfold exec. rewrite Hrun. simpl.
  split; [unfold before; now rewrite <- !app_assoc|].
  rewrite Hp1. fold fb fallback.
  split.
  { intros _ _. split; [reflexivity|].
    split; [apply (reaches_room_app_r r fallback (clients w) [CreatedMessage fb]),
              broadcast_reaches|].
    split; [intros Ho; right; now apply Hsender|]. now repeat split. }
  split; [now intros [|]|].
  split.
  { apply (only_to_room_app r (clients w) [CreatedMessage fb]);
      [apply only_to_room_created|apply broadcast_only_to_room]. }
  split.
  { intros Hnd. constructor; [|now apply NoDup_broadcast].
    intros (to & Heq & _)%in_map_iff. discriminate Heq. }
  apply Hne. intros to msg [Hin|Hin]; [discriminate Hin|].
  now apply no_error_in_broadcast in Hin.
Qed.

(** ** The context handed to the generation capability *)

Lemma StronglySorted_filter_bool {A} (R : A -> A -> Prop) (f : A -> bool) l :
  StronglySorted R l -> StronglySorted R (List.filter f l).
Proof.
  induction 1 as [|x l Hl IH Hx]; simpl; [constructor|].
  destruct (f x); [|assumption]. constructor; [assumption|].
  apply List.Forall_forall. intros y [Hy _]%filter_In.
  rewrite List.Forall_forall in Hx. now apply Hx.
Qed.

Lemma In_take {A} (x : A) n l : In x (take n l) -> In x l.
Proof.
  revert n. induction l as [|y l IH]; intros [|n]; simpl; try tauto.
  intros [H|H]; [now left|right; now apply (IH n)].
Qed.

Lemma StronglySorted_take {A} (R : A -> A -> Prop) n l :
  StronglySorted R l -> StronglySorted R (take n l).
Proof.
  intros H. revert n. induction H as [|x l Hl IH Hx]; intros [|n]; simpl; try constructor.
  - apply IH.
  - apply List.Forall_forall. intros y Hy. rewrite List.Forall_forall in Hx.
    apply Hx. now apply (In_take y n).
Qed.

Lemma embed_stored i s m : embed (stored i s) m = embed s m.
Proof. reflexivity. Qed.

(** The gateway lists a room's rows newest first. *)
Lemma getMessagesByRoom_newest_first r lim s :
  newest_first s -> StronglySorted newer (getMessagesByRoom r lim s).
Proof.
  intros H. unfold getMessagesByRoom.
  apply (StronglySorted_fmap (embed s) (fun a b => msg_id b < msg_id a) newer).
  - intros a b Hab. exact Hab.
  - destruct lim as [n|].
    + apply StronglySorted_take. now apply StronglySorted_filter_bool.
    + now apply StronglySorted_filter_bool.
Qed.

Lemma filter_all {A} (f : A -> bool) l :
  (forall x, In x l -> f x = true) -> List.filter f l = l.
Proof.
  induction l as [|x l IH]; simpl; intros H; [reflexivity|].
  rewrite (H x) by now left. f_equal. apply IH. intros y Hy. apply H. now right.
Qed.

(** With fresh ids, excluding the just-created row by id from the five
    newest rows and keeping three leaves the three newest earlier rows of
    the room. *)
Lemma context_of_fresh r u message user s :
  ids_fresh s ->
  let um := new_row (human_insert r u message) s in
  let s1 := stored (human_insert r u message) s in
  context_of um user (getMessagesByRoom r (Some 5%nat) s1) =
    mkChatMessage um user None [] :: take 3 (getMessagesByRoom r None s).
Proof.
  intros Hfresh um s1. unfold context_of. f_equal.
  unfold getMessagesByRoom. simpl messages. simpl List.filter.
  rewrite Z.eqb_refl. simpl take. simpl List.map.
  rewrite Z.eqb_refl. simpl negb. cbv iota.
  rewrite filter_all.
  - change (List.map (embed s1)) with (fmap (M:=list) (embed s)).
    rewrite fmap_take, take_take. reflexivity.
  - intros cm (m & <- & Hm)%in_map_iff. simpl.
    apply In_take, filter_In in Hm as [Hm _].
    apply Hfresh in Hm. apply negb_true_iff, Z.eqb_neq. simpl. lia.
Qed.

Lemma length_context_of um user prev : (length (context_of um user prev) <= 4)%nat.
Proof. unfold context_of. simpl. rewrite length_take. lia. Qed.

Lemma context_of_excludes um user prev :
  Forall (fun cm => msg_id (cm_msg cm) <> msg_id um) (tl (context_of um user prev)).
Proof.
  unfold context_of. simpl. apply List.Forall_forall. intros cm Hcm.
  apply In_take, filter_In in Hcm as [_ Hcm].
  now apply negb_true_iff, Z.eqb_neq in Hcm.
Qed.

Lemma context_of_from_history um user prev :
  forall cm, In cm (tl (context_of um user prev)) -> In cm prev.
Proof.
  unfold context_of. simpl. intros cm Hcm.
  now apply In_take, filter_In in Hcm as [Hcm _].
Qed.

(** C5. On a joined connection, when a [send_message] with a persona gets
    as far as the generation call (human message stored, author, persona
    and history read), the generation capability is called once, with a
    context whose first entry is the just-created user message; the other
    entries, at most three, are taken in order from what
    [getMessagesByRoom(roomId, 5)] returned, skipping the entry that has
    the id of the just-created message.  In a store with fresh ids they
    are the first three rows of the room's earlier history as the gateway
    lists it, and in a store listing newer rows first the whole context
    runs from newer to older. *)
Theorem generation_context env w c ws u r message p persona :
  client_of c w = Some ws ->
  userId ws = Some u -> roomId ws = Some r ->
  truthy_string u = true -> truthy_num r = true ->
  truthy_num p = true ->
  calls_ok env w 4 ->
  getPersona p (storage w) = Some persona ->
  let um := new_row (human_insert r u message) (storage w) in
  let s1 := stored (human_insert r u message) (storage w) in
  let prev := getMessagesByRoom r (Some 5%nat) s1 in
  exists ctx before rest,
    trace (exec (on_message env c (Some (send_message message (Some p)))) w) =
      trace w ++ before ++ [Generate persona ctx] ++ rest
    /\ (forall q l, ~ In (Generate q l) before /\ ~ In (Generate q l) rest)
    /\ ctx = mkChatMessage um (getUser u s1) None [] ::
             take 3 (List.filter
                       (fun msg => negb (msg_id (cm_msg msg) =? msg_id um)) prev)
    /\ (length (tl ctx) <= 3)%nat
    /\ Forall (fun cm => msg_id (cm_msg cm) <> msg_id um) (tl ctx)
    /\ (forall cm, In cm (tl ctx) -> In cm prev /\ msg_roomId (cm_msg cm) = r)
    /\ (ids_fresh (storage w) ->
        tl ctx = take 3 (getMessagesByRoom r None (storage w))
        /\ (newest_first (storage w) -> StronglySorted newer ctx)).
Proof.
  intros Hc Hu Hr Htu Htr Htp Hok Hp um s1 prev.
  pose proof (send_message_persona_run env w c ws u r message p persona
                Hc Hu Hr Htu Htr Htp Hok Hp) as Hrun.
  cbv zeta in Hrun. fold um s1 prev in Hrun.
  set (ctx := context_of um (getUser u s1) prev) in *.
  destruct (generation_outcome env r p persona ctx (clients w) s1 (4 + tick w))
    as [[s' t'] l] eqn:Hout.
  exists ctx,
    ([CreatedMessage um]
     ++ broadcast r (new_message (mkChatMessage um (getUser u s1) None [])) (clients w)
     ++ broadcast r (persona_typing p r) (clients w)), l.
  split. { unfold exec. rewrite Hrun. simpl. now rewrite <- !app_assoc. }
  split.
  { intros q l'. split.
    - simpl. rewrite in_app_iff. intros [H|[H|H]]; [discriminate H| |].
      + now apply in_map_iff in H as (? & ? & _).
      + now apply in_map_iff in H as (? & ? & _).
    - pose proof (generation_outcome_after_typing env r p persona ctx (clients w) s1
                    (4 + tick w)) as Hl. rewrite Hout in Hl. simpl in Hl.
      intros Hin. unfold generation_outcome, fallback_outcome in Hout.
      repeat match type of Hout with
             | context [if ?b then _ else _] => destruct b
             end; inversion Hout; subst l; simpl in Hin;
        repeat match type of Hin with
               | _ \/ _ => destruct Hin as [Hin|Hin]; [discriminate Hin|]
               end;
        now apply in_map_iff in Hin as (? & ? & _). }
  split; [reflexivity|].
  split. { pose proof (length_context_of um (getUser u s1) prev) as Hlen.
           fold ctx in Hlen. unfold ctx, context_of in *. simpl in *. lia. }
  split; [apply context_of_excludes|].
  split.
  { intros cm Hcm. apply context_of_from_history in Hcm. split; [assumption|].
    unfold prev, getMessagesByRoom in Hcm.
    apply in_map_iff in Hcm as (m & <- & Hm). simpl.
    apply In_take, filter_In in Hm as [_ Hm].
    now apply Z.eqb_eq in Hm. }
  intros Hfresh.
  pose proof (context_of_fresh r u message (getUser u s1) (storage w) Hfresh) as Hctx.
  cbv zeta in Hctx. fold um s1 prev ctx in Hctx.
  split; [now rewrite Hctx|].
  intros Hsorted. rewrite Hctx. constructor.
  - apply StronglySorted_take. now apply getMessagesByRoom_newest_first.
  - apply List.Forall_forall. intros cm Hcm.
    apply In_take in Hcm.
    unfold getMessagesByRoom in Hcm. apply in_map_iff in Hcm as (m & <- & Hm).
    apply filter_In in Hm as [Hm _]. apply Hfresh in Hm. unfold newer. simpl. lia.
Qed.

(** C3 at a concrete input: A and B are in room 7, everything works, A
    says hello to persona 3. *)
Lemma send_message_broadcast_order_witness :
  let w := world_AB env_ok in
  let um := new_row (human_insert 7 "A" "hello") (storage w) in
  let s1 := stored (human_insert 7 "A" "hello") (storage w) in
  let human := broadcast 7 (new_message (mkChatMessage um (getUser "A" s1) None [])) (clients w) in
  let typing := broadcast 7 (persona_typing 3 7) (clients w) in
  calls_ok env_ok w 2 /\
  exists rest,
    trace (exec (on_message env_ok 0%nat (Some (send_message "hello" (Some 3)))) w) =
      trace w ++ [CreatedMessage um] ++ human ++ typing ++ rest
    /\ In (Send 0%nat (new_message (mkChatMessage um (getUser "A" s1) None []))) human
    /\ In (Send 0%nat (persona_typing 3 7)) typing
    /\ Forall (after_typing 3) rest
    /\ (forall persona,
          calls_ok env_ok w 6 -> getPersona 3 (storage w) = Some persona ->
          let ctx := context_of um (getUser "A" s1) (getMessagesByRoom 7 (Some 5%nat) s1) in
          let am := new_row (persona_insert 7 3 (reply env_ok persona ctx)) s1 in
          rest = [Generate persona ctx] ++ [CreatedMessage am]
                 ++ broadcast 7 (new_message (mkChatMessage am None (Some persona) []))
                      (clients w)).
Proof.
  assert (Hok : calls_ok env_ok (world_AB env_ok) 2) by solve_calls_ok.
  split; [exact Hok|].
  apply (send_message_broadcast_order env_ok (world_AB env_ok) 0%nat
           (mkClient 0 (Some "A") (Some 7) OPEN) "A" 7 "hello" 3);
    solve [reflexivity | exact Hok].
Defined.

(** The scenario of the spec: both A and B receive, in order, the human
    message, the typing indicator and the persona's reply. *)
Example scenario_reply_frames :
  List.map (fun e => match e with
                     | Send to (new_message cm) => (to, msg_message (cm_msg cm))
                     | Send to (persona_typing _ _) => (to, "typing")
                     | Send to _ => (to, "other")
                     | _ => (99%nat, "-")
                     end)
    (drop (length (trace (world_AB env_ok)))
       (trace (exec (on_message env_ok 0%nat (Some (send_message "hello" (Some 3))))
                 (world_AB env_ok)))) =
  [(99%nat, "-"); (0%nat, "hello"); (1%nat, "hello"); (0%nat, "typing"); (1%nat, "typing");
   (99%nat, "-"); (99%nat, "-");
   (0%nat, "Elementary, my dear Watson."); (1%nat, "Elementary, my dear Watson.")].
Proof. vm_compute. reflexivity. Qed.

(** C2 at a concrete input: the generation call (the seventh awaited call
    of the session) fails, the fallback works. *)
Lemma generation_failure_fallback_witness :
  let env := env_fail_at 6 in
  let w := world_AB env in
  let um := new_row (human_insert 7 "A" "hello") (storage w) in
  let s1 := stored (human_insert 7 "A" "hello") (storage w) in
  let ctx := context_of um (getUser "A" s1) (getMessagesByRoom 7 (Some 5%nat) s1) in
  let before :=
    [CreatedMessage um]
    ++ broadcast 7 (new_message (mkChatMessage um (getUser "A" s1) None [])) (clients w)
    ++ broadcast 7 (persona_typing 3 7) (clients w)
    ++ [Generate sherlock ctx] in
  let fb := new_row (persona_insert 7 3
              "I'm having trouble accessing my knowledge. Please try again later.") s1 in
  let fallback := new_message (mkChatMessage fb None (Some sherlock) []) in
  let failure := ai_error 3 "Failed to generate AI response" in
  let w' := exec (on_message env 0%nat (Some (send_message "hello" (Some 3)))) w in
  calls_ok env w 4 /\ fails env (4 + tick w) = true /\
  exists answer,
    trace w' = trace w ++ before ++ answer
    /\ (fails env (5 + tick w) = false -> fails env (6 + tick w) = false ->
        answer = [CreatedMessage fb] ++ broadcast 7 fallback (clients w)
        /\ reaches_room 7 fallback (clients w) answer
        /\ (is_open (mkClient 0 (Some "A") (Some 7) OPEN) = true ->
            In (Send 0%nat fallback) answer)
        /\ messages (storage w') = fb :: um :: messages (storage w)
        /\ msg_personaId fb = Some 3 /\ msg_userId fb = None
        /\ msg_message fb =
             "I'm having trouble accessing my knowledge. Please try again later.")
    /\ (fails env (5 + tick w) = true \/ fails env (6 + tick w) = true ->
        answer = broadcast 7 failure (clients w)
        /\ reaches_room 7 failure (clients w) answer
        /\ (is_open (mkClient 0 (Some "A") (Some 7) OPEN) = true ->
            In (Send 0%nat failure) answer)
        /\ Forall (fun e => exists to, e = Send to failure) answer
        /\ messages (storage w') = um :: messages (storage w))
    /\ only_to_room 7 (clients w) answer
    /\ (distinct_sockets w -> List.NoDup answer)
    /\ (forall to msg, ~ In (Send to (error msg)) (before ++ answer)).
Proof.
  assert (Hok : calls_ok (env_fail_at 6) (world_AB (env_fail_at 6)) 4) by solve_calls_ok.
  split; [exact Hok|]. split; [reflexivity|].
  apply (generation_failure_fallback (env_fail_at 6) (world_AB (env_fail_at 6)) 0%nat
           (mkClient 0 (Some "A") (Some 7) OPEN) "A" 7 "hello" 3 sherlock);
    solve [reflexivity | exact Hok].
Defined.

(** C2 as stated fails when the generation call fails and the persona
    cannot be read again: no storing of the fallback is attempted, so
    persistence does not fail, and yet the room gets [ai_error] and no
    fallback message is stored. *)
Lemma generation_failure_reread_counterexample :
  let env := env_fail_in [6; 7]%nat in
  let w := world_AB env in
  let w' := exec (on_message env 0%nat (Some (send_message "hello" (Some 3)))) w in
  calls_ok env w 4
  /\ fails env (4 + tick w) = true
  /\ fails env (5 + tick w) = true
  /\ (forall k, (7 < k)%nat -> fails env k = false)
  /\ new_effects w w' =
       [CreatedMessage (new_row (human_insert 7 "A" "hello") (storage w));
        Send 0%nat (new_message
                      (mkChatMessage (new_row (human_insert 7 "A" "hello") (storage w))
                         (Some alice) None []));
        Send 1%nat (new_message
                      (mkChatMessage (new_row (human_insert 7 "A" "hello") (storage w))
                         (Some alice) None []));
        Send 0%nat (persona_typing 3 7); Send 1%nat (persona_typing 3 7);
        Generate sherlock
          [mkChatMessage (new_row (human_insert 7 "A" "hello") (storage w))
             (Some alice) None []];
        Send 0%nat (ai_error 3 "Failed to generate AI response");
        Send 1%nat (ai_error 3 "Failed to generate AI response")]
  /\ List.map msg_message (messages (storage w')) = ["hello"]
  /\ tick w' = (6 + tick w)%nat.
Proof.
  cbv zeta. split; [solve_calls_ok|]. split; [reflexivity|]. split; [reflexivity|].
  split.
  { intros k Hk. simpl.
    do 8 (destruct k as [|k]; [lia|]). reflexivity. }
  split; [vm_compute; reflexivity|]. split; vm_compute; reflexivity.
Qed.

(** The two failure scenarios, as the room sees them. *)
Example scenario_fallback_frames :
  List.map (fun e => match e with
                     | Send to (new_message cm) => (to, msg_message (cm_msg cm))
                     | Send to (ai_error _ _) => (to, "ai_error")
                     | Send to _ => (to, "other")
                     | _ => (99%nat, "-")
                     end)
    (drop (7 + length (trace (world_AB (env_fail_at 6))))
       (trace (exec (on_message (env_fail_at 6) 0%nat (Some (send_message "hello" (Some 3))))
                 (world_AB (env_fail_at 6))))) =
  [(0%nat, fallback_text); (1%nat, fallback_text)].
Proof. vm_compute. reflexivity. Qed.

Example scenario_double_failure_frames :
  let env := env_fail_in [6; 8]%nat in
  drop (6 + length (trace (world_AB env)))
    (trace (exec (on_message env 0%nat (Some (send_message "hello" (Some 3))))
              (world_AB env))) =
  [Send 0%nat (ai_error 3 "Failed to generate AI response");
   Send 1%nat (ai_error 3 "Failed to generate AI response")]
  /\ List.map msg_message
       (messages (storage (exec (on_message env 0%nat (Some (send_message "hello" (Some 3))))
                             (world_AB env)))) = ["hello"].
Proof. vm_compute. split; reflexivity. Qed.

(** C5 at a concrete input: room 7 holds four earlier messages. *)
Lemma generation_context_witness :
  let w := world_busy in
  let um := new_row (human_insert 7 "A" "six") (storage w) in
  let s1 := stored (human_insert 7 "A" "six") (storage w) in
  let prev := getMessagesByRoom 7 (Some 5%nat) s1 in
  calls_ok env_ok w 4 /\
  exists ctx before rest,
    trace (exec (on_message env_ok 0%nat (Some (send_message "six" (Some 3)))) w) =
      trace w ++ before ++ [Generate sherlock ctx] ++ rest
    /\ (forall q l, ~ In (Generate q l) before /\ ~ In (Generate q l) rest)
    /\ ctx = mkChatMessage um (getUser "A" s1) None [] ::
             take 3 (List.filter
                       (fun msg => negb (msg_id (cm_msg msg) =? msg_id um)) prev)
    /\ (length (tl ctx) <= 3)%nat
    /\ Forall (fun cm => msg_id (cm_msg cm) <> msg_id um) (tl ctx)
    /\ (forall cm, In cm (tl ctx) -> In cm prev /\ msg_roomId (cm_msg cm) = 7)
    /\ (ids_fresh (storage w) ->
        tl ctx = take 3 (getMessagesByRoom 7 None (storage w))
        /\ (newest_first (storage w) -> StronglySorted newer ctx)).
Proof.
  assert (Hok : calls_ok env_ok world_busy 4) by solve_calls_ok.
  split; [exact Hok|].
  apply (generation_context env_ok world_busy 0%nat
           (mkClient 0 (Some "A") (Some 7) OPEN) "A" 7 "six" 3 sherlock);
    solve [reflexivity | exact Hok].
Defined.

(** In that world the context is the new message 6, then 5, 4 and 2: the
    message of room 8 and the oldest one of room 7 are left out. *)
Example scenario_context_ids :
  List.map (fun e => match e with
                     | Generate _ ctx => List.map (fun cm => msg_id (cm_msg cm)) ctx
                     | _ => []
                     end)
    (trace (exec (on_message env_ok 0%nat (Some (send_message "six" (Some 3)))) world_busy))
  = [[]; []; []; [6; 5; 4; 2]; []; []].
Proof. vm_compute. reflexivity. Qed.

Lemma store_busy_fresh : ids_fresh store_busy.
Proof.
  intros m Hm. simpl in Hm.
  repeat (destruct Hm as [<-|Hm]; [simpl; lia|]). destruct Hm.
Qed.

Lemma store_busy_newest_first : newest_first store_busy.
Proof. unfold newest_first. simpl. repeat constructor; simpl; lia. Qed.

(** ** Voice messages *)

Lemma new_effects_app w w' l : trace w' = trace w ++ l -> new_effects w w' = l.
Proof. unfold new_effects. intros ->. now rewrite drop_app_length. Qed.

Lemma createAttachment_after_createMessage i url fileName fileSize fileType ty s :
  let ins := mkInsertAttachment (msg_id (new_row i s)) url fileName fileSize fileType ty in
  createAttachment ins (stored i s) =
    Some (new_attachment ins (stored i s), stored_attachment ins (stored i s)).
Proof.
  intros ins. unfold stored_attachment, createAttachment, has_message. simpl.
  now rewrite Z.eqb_refl.
Qed.

(** Every path through [handleSendVoiceMessage] on a joined connection. *)
Lemma voice_message_run env w c ws u r url fileName fileSize fileType :
  client_of c w = Some ws ->
  userId ws = Some u -> roomId ws = Some r ->
  truthy_string u = true -> truthy_num r = true ->
  let i := mkInsertMessage r (Some u) None "Voice message" in
  let vm := new_row i (storage w) in
  let s1 := stored i (storage w) in
  let ia := mkInsertAttachment (msg_id vm) url fileName fileSize
              (fileType_or_default fileType) "voice_message" in
  let va := new_attachment ia s1 in
  let s2 := stored_attachment ia s1 in
  let err := if is_open ws then [Send c (error "Failed to process voice message")] else [] in
  on_message env c (Some (send_voice_message url fileName fileSize fileType)) w =
    (Ok tt,
     if fails env (tick w) then
       mkWorld (clients w) (storage w) (1 + tick w) (trace w ++ err)
     else if fails env (1 + tick w) then
       mkWorld (clients w) s1 (2 + tick w) (trace w ++ [CreatedMessage vm] ++ err)
     else if fails env (2 + tick w) then
       mkWorld (clients w) s2 (3 + tick w)
         (trace w ++ [CreatedMessage vm; CreatedAttachment va] ++ err)
     else
       mkWorld (clients w) s2 (3 + tick w)
         (trace w ++ [CreatedMessage vm; CreatedAttachment va]
                  ++ broadcast r (new_message (mkChatMessage vm (getUser u s2) None [va]))
                       (clients w))).
Proof.
  intros Hc Hu Hr Htu Htr i vm s1 ia va s2 err.
  change (on_message env c (Some (send_voice_message url fileName fileSize fileType)) w)
    with (try_catch (handleSendVoiceMessage env c url fileName fileSize fileType)
            (fun _ => sendErrorToClient c "Failed to process your request") w).
  unfold try_catch at 1, handleSendVoiceMessage.
  unfold bind at 1, get_ws at 1. rewrite (lookup_ws_client _ _ _ Hc).
  rewrite (guard_accepts _ _ ws u r) by assumption.
  rewrite (world_eta w) at 1. unfold try_catch at 1. fold i. simpl plus.
  assert (Herr : forall cl s t tr,
            cl = clients w ->
            sendErrorToClient c "Failed to process voice message" (mkWorld cl s t tr) =
              (Ok tt, mkWorld cl s t (tr ++ err))).
  { intros cl s t tr ->. rewrite sendErrorToClient_run.
    now rewrite (lookup_ws_client _ _ _ Hc). }
  destruct (fails env (tick w)) eqn:H0.
  { rewrite (bind_throw _ _ _ _ _ (createMessage_fail _ _ _ _ _ _ H0)).
    now rewrite Herr. }
  rewrite (bind_ok _ _ _ _ _ (createMessage_ok _ _ _ _ _ _ H0)). fold vm s1 ia.
  destruct (fails env (S (tick w))) eqn:H1.
  { rewrite (bind_throw _ _ _ _ _ (createAttachment_fail _ _ _ _ _ _ H1)).
    rewrite Herr by reflexivity. now rewrite <- !app_assoc. }
  rewrite (bind_ok _ _ _ _ _
             (createAttachment_ok _ _ _ _ _ _ _ _ H1
                (createAttachment_after_createMessage i url fileName fileSize
                   (fileType_or_default fileType) "voice_message" (storage w)))).
  fold vm s1 ia va s2.
  destruct (fails env (S (S (tick w)))) eqn:H2.
  { rewrite (bind_throw _ _ _ _ _ (getUser_fail _ _ _ _ _ _ H2)).
    rewrite Herr by reflexivity. now rewrite <- !app_assoc. }
  rewrite (bind_ok _ _ _ _ _ (getUser_ok _ _ _ _ _ _ H2)).
  rewrite broadcastToRoom_run. now rewrite <- !app_assoc.
Qed.

Lemma created_messages_app l1 l2 :
  created_messages (l1 ++ l2) = created_messages l1 ++ created_messages l2.
Proof. unfold created_messages. apply bind_app. Qed.

Lemma created_attachments_app l1 l2 :
  created_attachments (l1 ++ l2) = created_attachments l1 ++ created_attachments l2.
Proof. unfold created_attachments. apply bind_app. Qed.

Lemma created_messages_sends l :
  Forall (fun e => exists to ev, e = Send to ev) l -> created_messages l = [].
Proof.
  induction 1 as [|e l (to & ev & ->) _ IH]; [reflexivity|].
  unfold created_messages in *. csimpl. exact IH.
Qed.

Lemma created_attachments_sends l :
  Forall (fun e => exists to ev, e = Send to ev) l -> created_attachments l = [].
Proof.
  induction 1 as [|e l (to & ev & ->) _ IH]; [reflexivity|].
  unfold created_attachments in *. csimpl. exact IH.
Qed.

Lemma broadcast_sends r ev cl :
  Forall (fun e => exists to ev, e = Send to ev) (broadcast r ev cl).
Proof. apply Forall_broadcast. eauto. Qed.

Lemma error_reply_sends (b : bool) c msg :
  Forall (fun e => exists to ev, e = Send to ev)
    (if b then [Send c (error msg)] else []).
Proof. destruct b; repeat constructor. eauto. Qed.

(** C9. For a [send_voice_message] on a joined connection: the only
    message the run can create is the row with body "Voice message"
    authored by the user in the connection's room; the only attachment it
    can create belongs to that message, has [attachmentType]
    "voice_message" and the supplied [fileType], or "audio/webm" when the
    supplied one is absent or empty; and when the two storage writes
    succeed both are created and stored. *)
Theorem voice_message_defaults env w c ws u r url fileName fileSize fileType :
  client_of c w = Some ws ->
  userId ws = Some u -> roomId ws = Some r ->
  truthy_string u = true -> truthy_num r = true ->
  let w' := exec (on_message env c
                    (Some (send_voice_message url fileName fileSize fileType))) w in
  let new := new_effects w w' in
  let vm := mkMessage (nextMessageId (storage w)) r (Some u) None "Voice message"
              (clock (storage w)) false in
  let va := mkAttachment (nextAttachmentId (storage w)) (msg_id vm) url fileName fileSize
              (match fileType with
               | Some t => if String.eqb t "" then "audio/webm" else t
               | None => "audio/webm"
               end)
              "voice_message" in
  (forall m, In m (created_messages new) -> m = vm)
  /\ (forall a, In a (created_attachments new) -> a = va /\ In vm (created_messages new))
  /\ (calls_ok env w 2 ->
      created_messages new = [vm] /\ created_attachments new = [va]
      /\ messages (storage w') = vm :: messages (storage w)
      /\ attachments (storage w') = va :: attachments (storage w)).
Proof.
  intros Hc Hu Hr Htu Htr w' new vm va.
  pose proof (voice_message_run env w c ws u r url fileName fileSize fileType
                Hc Hu Hr Htu Htr) as Hrun.
  cbv zeta in Hrun.
  set (i := mkInsertMessage r (Some u) None "Voice message") in *.
  assert (Hva : new_attachment
                  (mkInsertAttachment (msg_id (new_row i (storage w))) url fileName fileSize
                     (fileType_or_default fileType) "voice_message")
                  (stored i (storage w)) = va).
  { unfold new_attachment, va. simpl. f_equal.
    destruct fileType as [t|]; [|reflexivity]. simpl.
    unfold truthy_string. now destruct (String.eqb t ""). }
  rewrite Hva in Hrun. clear Hva.
  change (new_row i (storage w)) with vm in Hrun.
  set (err := if is_open ws then [Send c (error "Failed to process voice message")] else [])
    in *.
  assert (Herr : created_messages err = [] /\ created_attachments err = []).
  { split; [apply created_messages_sends|apply created_attachments_sends];
      apply error_reply_sends. }
  destruct Herr as [Hem Hea].
  subst new w'. unfold exec. rewrite Hrun. clear Hrun. simpl snd. simpl plus.
  destruct (fails env (tick w)) eqn:H0.
  { rewrite (new_effects_app w _ err) by reflexivity. rewrite Hem, Hea.
    split; [intros m []|]. split; [intros a []|].
    intros Hok. pose proof (calls_ok_at _ _ _ 0 Hok ltac:(lia)) as H. simpl in H. congruence. }
  destruct (fails env (S (tick w))) eqn:H1.
  { rewrite (new_effects_app w _ ([CreatedMessage vm] ++ err)) by reflexivity.
    rewrite created_messages_app, created_attachments_app, Hem, Hea.
    split; [intros m [<-|[]]; reflexivity|]. split; [intros a []|].
    intros Hok. pose proof (calls_ok_at _ _ _ 1 Hok ltac:(lia)) as H. simpl in H. congruence. }
  assert (Hstore :
            messages (stored_attachment
                        (mkInsertAttachment (msg_id vm) url fileName fileSize
                           (fileType_or_default fileType) "voice_message")
                        (stored i (storage w))) = vm :: messages (storage w)
            /\ attachments (stored_attachment
                        (mkInsertAttachment (msg_id vm) url fileName fileSize
                           (fileType_or_default fileType) "voice_message")
                        (stored i (storage w))) = va :: attachments (storage w)).
  { unfold stored_attachment, createAttachment, has_message. simpl.
    rewrite Z.eqb_refl. simpl. split; [reflexivity|]. f_equal.
    unfold new_attachment, va. simpl. f_equal.
    destruct fileType as [t|]; [|reflexivity]. simpl.
    unfold truthy_string. now destruct (String.eqb t ""). }
  destruct Hstore as [Hsm Hsa].
  destruct (fails env (S (S (tick w)))) eqn:H2.
  { rewrite (new_effects_app w _ ([CreatedMessage vm; CreatedAttachment va] ++ err))
      by reflexivity.
    rewrite created_messages_app, created_attachments_app, Hem, Hea. simpl.
    split; [intros m [<-|[]]; reflexivity|].
    split; [intros a [<-|[]]; split; [reflexivity|now left]|].
    intros _. split; [reflexivity|]. split; [reflexivity|]. split; [exact Hsm|exact Hsa]. }
  rewrite (new_effects_app w _
             ([CreatedMessage vm; CreatedAttachment va]
              ++ broadcast r _ (clients w))) by reflexivity.
  rewrite created_messages_app, created_attachments_app.
  rewrite (created_messages_sends (broadcast _ _ _)) by apply broadcast_sends.
  rewrite (created_attachments_sends (broadcast _ _ _)) by apply broadcast_sends.
  simpl.
  split; [intros m [<-|[]]; reflexivity|].
  split; [intros a [<-|[]]; split; [reflexivity|now left]|].
  intros _. split; [reflexivity|]. split; [reflexivity|]. split; [exact Hsm|exact Hsa].
Qed.

(** C9 at a concrete input: A sends a voice message without [fileType]. *)
Lemma voice_message_defaults_witness :
  let w := world_AB env_ok in
  let w' := exec (on_message env_ok 0%nat
                    (Some (send_voice_message "http://f/v" "v.webm" 2048 None))) w in
  let new := new_effects w w' in
  let vm := mkMessage (nextMessageId (storage w)) 7 (Some "A") None "Voice message"
              (clock (storage w)) false in
  let va := mkAttachment (nextAttachmentId (storage w)) (msg_id vm) "http://f/v" "v.webm" 2048
              "audio/webm" "voice_message" in
  (forall m, In m (created_messages new) -> m = vm)
  /\ (forall a, In a (created_attachments new) -> a = va /\ In vm (created_messages new))
  /\ (calls_ok env_ok w 2 ->
      created_messages new = [vm] /\ created_attachments new = [va]
      /\ messages (storage w') = vm :: messages (storage w)
      /\ attachments (storage w') = va :: attachments (storage w)).
Proof.
  apply (voice_message_defaults env_ok (world_AB env_ok) 0%nat
           (mkClient 0 (Some "A") (Some 7) OPEN) "A" 7 "http://f/v" "v.webm" 2048 None);
    reflexivity.
Defined.

(** ** Presence *)

Lemma getActiveUsers_spec r u s :
  In u (getActiveUsers r s) <-> (0 < multiplicity (r, u) (presence s))%nat.
Proof.
  unfold getActiveUsers. rewrite <- list_elem_of_In, list_elem_of_bind. split.
  - intros ([r' u'] & Hu & Hin). simpl in Hu.
    destruct (decide (r' = r)) as [->|]; [|now apply elem_of_nil in Hu].
    apply list_elem_of_singleton in Hu as ->.
    apply elem_of_elements, gmultiset_elem_of_dom in Hin.
    now apply elem_of_multiplicity.
  - intros H. exists (r, u). simpl. rewrite decide_True by reflexivity.
    split; [now apply list_elem_of_singleton|].
    apply elem_of_elements, gmultiset_elem_of_dom. now apply elem_of_multiplicity.
Qed.

Lemma multiplicity_addActiveUser r u s k :
  multiplicity k (presence (addActiveUser r u s)) =
    (multiplicity k (presence s) + if decide (k = (r, u)) then 1 else 0)%nat.
Proof.
  simpl. rewrite multiplicity_disj_union, multiplicity_singleton.
  now destruct (decide (k = (r, u))).
Qed.

Lemma multiplicity_removeActiveUser r u s k :
  multiplicity k (presence (removeActiveUser r u s)) =
    (multiplicity k (presence s) - if decide (k = (r, u)) then 1 else 0)%nat.
Proof.
  simpl. rewrite multiplicity_difference, multiplicity_singleton.
  now destruct (decide (k = (r, u))).
Qed.

(** ** Joining *)

Lemma lookup_ws_update c f l ws :
  List.find (fun x => Nat.eqb (cid x) c) l = Some ws ->
  (forall x, cid (f x) = cid x) ->
  lookup_ws c (List.map (fun x => if Nat.eqb (cid x) c then f x else x) l) = f ws.
Proof.
  intros Hfind Hf. unfold lookup_ws.
  induction l as [|x l IH]; simpl in *; [discriminate|].
  destruct (Nat.eqb (cid x) c) eqn:Hx.
  - injection Hfind as ->. now rewrite Hf, Hx.
  - rewrite Hx. now apply IH.
Qed.

Lemma client_of_update c f w ws :
  client_of c w = Some ws ->
  (forall x, cid (f x) = cid x) ->
  List.find (fun x => Nat.eqb (cid x) c)
    (List.map (fun x => if Nat.eqb (cid x) c then f x else x) (clients w)) = Some (f ws).
Proof.
  unfold client_of. intros Hfind Hf.
  induction (clients w) as [|x l IH]; simpl in *; [discriminate|].
  destruct (Nat.eqb (cid x) c) eqn:Hx.
  - injection Hfind as ->. now rewrite Hf, Hx.
  - rewrite Hx. now apply IH.
Qed.

(** Every path through [handleJoinRoom]: the fields are set, one presence
    reference is taken, [user_joined] and [active_users] are broadcast to
    the room as it is after the join, and the joining socket is then sent
    the history, or an [error] frame when the history read fails. *)
Lemma join_room_run env w c ws u r :
  client_of c w = Some ws ->
  let cl' := List.map (fun x => if Nat.eqb (cid x) c
                                then set_room (Some u) (Some r) x else x) (clients w) in
  let s' := addActiveUser r u (storage w) in
  on_message env c (Some (join_room u r)) w =
    (Ok tt,
     mkWorld cl' s' (S (tick w))
       (trace w ++ broadcast r (user_joined u r) cl'
                ++ broadcast r (active_users r (getActiveUsers r s')) cl'
                ++ if is_open ws then
                     [Send c (if fails env (tick w)
                              then error "Failed to load room history"
                              else room_history (getMessagesByRoom r None s'))]
                   else [])).
Proof.
  intros Hc cl' s'.
  change (on_message env c (Some (join_room u r)) w)
    with (try_catch (handleJoinRoom env c u r)
            (fun _ => sendErrorToClient c "Failed to process your request") w).
  assert (Hws : lookup_ws c cl' = set_room (Some u) (Some r) ws).
  { now apply lookup_ws_update. }
  unfold try_catch at 1, handleJoinRoom.
  unfold bind at 1, update_ws at 1. fold cl'.
  unfold bind at 1, get_storage at 1. simpl storage.
  unfold bind at 1, set_storage at 1. simpl. fold s'.
  rewrite (bind_ok _ _ _ _ _ (broadcastToRoom_run _ _ _ _ _ _)).
  unfold sendRoomHistory_issue, settle, bind at 1.
  destruct (fails env (tick w)) eqn:H0.
  - rewrite (getMessagesByRoom_fail _ _ _ _ _ _ _ H0).
    rewrite (bind_ok _ _ _ _ _ (broadcastActiveUsers_run _ _ _ _ _)).
    unfold sendRoomHistory_resume, try_catch, bind, settled.
    rewrite sendErrorToClient_run, Hws.
    change (is_open (set_room (Some u) (Some r) ws)) with (is_open ws).
    now rewrite <- !app_assoc.
  - rewrite (getMessagesByRoom_ok _ _ _ _ _ _ _ H0).
    rewrite (bind_ok _ _ _ _ _ (broadcastActiveUsers_run _ _ _ _ _)).
    unfold sendRoomHistory_resume, try_catch, bind, settled.
    rewrite ws_send_run, Hws.
    change (is_open (set_room (Some u) (Some r) ws)) with (is_open ws).
    now rewrite <- !app_assoc.
Qed.

(** C10, as the code has it.  A [join_room] with any [userId] and [roomId],
    received on an open connection, records both on the connection, takes
    one presence reference for the user in the room (so the user is in the
    room's active set), broadcasts [user_joined] and then [active_users] to
    the room, the joining connection included, and finally sends the
    joining connection [room_history] when the history read succeeds and
    an [error] frame "Failed to load room history" when it fails.  Nothing
    is assumed about the room or user tables: no existence or membership
    check is made. *)
Theorem join_room_unchecked env w c ws u r :
  client_of c w = Some ws ->
  is_open ws = true ->
  let w' := exec (on_message env c (Some (join_room u r))) w in
  let joined_frames := broadcast r (user_joined u r) (clients w') in
  let active_frames :=
    broadcast r (active_users r (getActiveUsers r (storage w'))) (clients w') in
  (exists ws', client_of c w' = Some ws' /\ userId ws' = Some u /\ roomId ws' = Some r
               /\ is_open ws' = true)
  /\ storage w' = addActiveUser r u (storage w)
  /\ In u (getActiveUsers r (storage w'))
  /\ (exists last,
        trace w' = trace w ++ joined_frames ++ active_frames ++ [Send c last]
        /\ (fails env (tick w) = false ->
            last = room_history (getMessagesByRoom r None (storage w')))
        /\ (fails env (tick w) = true -> last = error "Failed to load room history"))
  /\ In (Send c (user_joined u r)) joined_frames
  /\ In (Send c (active_users r (getActiveUsers r (storage w')))) active_frames.
Proof.
  intros Hc Ho w' joined_frames active_frames.
  pose proof (join_room_run env w c ws u r Hc) as Hrun. cbv zeta in Hrun.
  rewrite Ho in Hrun.
  assert (Hc' : client_of c w' = Some (set_room (Some u) (Some r) ws)).
  { subst w'. unfold exec. rewrite Hrun. unfold client_of. simpl.
    now apply client_of_update. }
  assert (Hs : storage w' = addActiveUser r u (storage w)).
  { subst w'. unfold exec. now rewrite Hrun. }
  split; [exists (set_room (Some u) (Some r) ws); now repeat split|].
  split; [exact Hs|].
  split.
  { rewrite Hs. apply getActiveUsers_spec. rewrite multiplicity_addActiveUser.
    rewrite decide_True by reflexivity. lia. }
  split.
  { exists (if fails env (tick w)
            then error "Failed to load room history"
            else room_history (getMessagesByRoom r None (storage w'))).
    split.
    - subst joined_frames active_frames. rewrite Hs.
      subst w'. unfold exec. rewrite Hrun. simpl. reflexivity.
    - split; intros ->; reflexivity. }
  split; now apply (sender_receives c w' (set_room (Some u) (Some r) ws)).
Qed.

(** C10 at a concrete input: an unknown user joins a room that does not
    exist. *)
Lemma join_room_unchecked_witness :
  ~ In 99 (chatrooms (storage world0)) /\
  ~ In (99, "Z") (members (storage world0)) /\
  getUser "Z" (storage world0) = None /\
  let w := world0 in
  let w' := exec (on_message env_ok 0%nat (Some (join_room "Z" 99))) w in
  let joined_frames := broadcast 99 (user_joined "Z" 99) (clients w') in
  let active_frames :=
    broadcast 99 (active_users 99 (getActiveUsers 99 (storage w'))) (clients w') in
  (exists ws', client_of 0%nat w' = Some ws' /\ userId ws' = Some "Z" /\ roomId ws' = Some 99
               /\ is_open ws' = true)
  /\ storage w' = addActiveUser 99 "Z" (storage w)
  /\ In "Z" (getActiveUsers 99 (storage w'))
  /\ (exists last,
        trace w' = trace w ++ joined_frames ++ active_frames ++ [Send 0%nat last]
        /\ (fails env_ok (tick w) = false ->
            last = room_history (getMessagesByRoom 99 None (storage w')))
        /\ (fails env_ok (tick w) = true -> last = error "Failed to load room history"))
  /\ In (Send 0%nat (user_joined "Z" 99)) joined_frames
  /\ In (Send 0%nat (active_users 99 (getActiveUsers 99 (storage w')))) active_frames.
Proof.
  split. { simpl. intros [H|[]]. discriminate H. }
  split. { simpl. intros [H|[H|[]]]; discriminate H. }
  split; [reflexivity|].
  apply (join_room_unchecked env_ok world0 0%nat (mkClient 0 None None OPEN) "Z" 99);
    reflexivity.
Defined.

(** C10 as stated fails: when the history read rejects, the joining
    connection is sent an [error] frame and no [room_history] frame is
    sent to anybody. *)
Lemma join_room_history_counterexample :
  trace world_join_no_history =
    [Send 0%nat (user_joined "A" 7); Send 0%nat (active_users 7 ["A"]);
     Send 0%nat (error "Failed to load room history")]
  /\ forall to msgs, ~ In (Send to (room_history msgs)) (trace world_join_no_history).
Proof.
  assert (H : trace world_join_no_history =
    [Send 0%nat (user_joined "A" 7); Send 0%nat (active_users 7 ["A"]);
     Send 0%nat (error "Failed to load room history")]) by (vm_compute; reflexivity).
  split; [exact H|]. rewrite H. intros to msgs Hin. simpl in Hin.
  repeat (destruct Hin as [Hin|Hin]; [discriminate Hin|]). exact Hin.
Qed.

(** ** Leaving and closing *)

(** [handleLeaveRoom] on a joined connection. *)
Lemma handleLeaveRoom_joined c ws u r cl s t tr :
  lookup_ws c cl = ws ->
  userId ws = Some u -> roomId ws = Some r ->
  truthy_string u = true -> truthy_num r = true ->
  let s' := removeActiveUser r u s in
  handleLeaveRoom c (mkWorld cl s t tr) =
    (Ok tt,
     mkWorld (List.map (fun x => if Nat.eqb (cid x) c then set_room None None x else x) cl)
       s' t
       (tr ++ broadcast r (user_left u r) cl
           ++ broadcast r (active_users r (getActiveUsers r s')) cl)).
Proof.
  intros Hws Hu Hr Htu Htr s'. unfold handleLeaveRoom.
  unfold bind at 1, get_ws at 1. cbn [clients]. rewrite Hws.
  rewrite (guard_accepts _ _ ws u r) by assumption.
  unfold bind at 1, get_storage at 1. cbn [storage].
  unfold bind at 1, set_storage at 1. cbn [clients storage tick trace]. fold s'.
  rewrite (bind_ok _ _ _ _ _ (broadcastToRoom_run _ _ _ _ _ _)).
  rewrite (bind_ok _ _ _ _ _ (broadcastActiveUsers_run _ _ _ _ _)).
  unfold update_ws. cbn [clients storage tick trace].
  now rewrite <- !app_assoc.
Qed.

(** [handleLeaveRoom] on a connection that has not joined does nothing. *)
Lemma handleLeaveRoom_not_joined c w :
  joined (lookup_ws c (clients w)) = false ->
  handleLeaveRoom c w = (Ok tt, w).
Proof.
  intros Hj. unfold handleLeaveRoom. unfold bind at 1, get_ws at 1.
  now rewrite guard_rejects by assumption.
Qed.

(** The closed socket gets no frame; the others are untouched. *)
Lemma recipients_after_close r c l :
  recipients r (List.map (fun x => if Nat.eqb (cid x) c
                                   then set_readyState CLOSED x else x) l) =
  recipients r (List.filter (fun x => negb (Nat.eqb (cid x) c)) l).
Proof.
  unfold recipients. induction l as [|x l IH]; [reflexivity|]. simpl.
  destruct (Nat.eqb (cid x) c) eqn:Hx; simpl.
  - rewrite andb_false_r. exact IH.
  - destruct (in_room r x && is_open x); simpl; now rewrite IH.
Qed.

Lemma remaining_after_close c (f g : WebSocketClient -> WebSocketClient) l :
  (forall x, cid (f x) = cid x) -> (forall x, cid (g x) = cid x) ->
  List.filter (fun x => negb (Nat.eqb (cid x) c))
    (List.map (fun x => if Nat.eqb (cid x) c then g x else x)
       (List.map (fun x => if Nat.eqb (cid x) c then f x else x) l)) =
  List.filter (fun x => negb (Nat.eqb (cid x) c)) l.
Proof.
  intros Hf Hg. induction l as [|x l IH]; [reflexivity|]. simpl.
  destruct (Nat.eqb (cid x) c) eqn:Hx; simpl.
  - rewrite Hf, Hx. simpl. rewrite Hg, Hf, Hx. simpl. exact IH.
  - rewrite Hx. simpl. rewrite Hx. simpl. now rewrite IH.
Qed.

(** Closing a joined connection. *)
Lemma on_close_joined w c ws u r :
  client_of c w = Some ws ->
  userId ws = Some u -> roomId ws = Some r ->
  truthy_string u = true -> truthy_num r = true ->
  let remaining := List.filter (fun x => negb (Nat.eqb (cid x) c)) (clients w) in
  let s' := removeActiveUser r u (storage w) in
  on_close c w =
    (Ok tt,
     mkWorld remaining s' (tick w)
       (trace w ++ broadcast r (user_left u r) remaining
                ++ broadcast r (active_users r (getActiveUsers r s')) remaining)).
Proof.
  intros Hc Hu Hr Htu Htr remaining s'. unfold on_close.
  unfold bind at 1, update_ws at 1.
  rewrite (bind_ok _ _ _ _ _
             (handleLeaveRoom_joined c (set_readyState CLOSED ws) u r _ _ _ _
                (lookup_ws_update c (set_readyState CLOSED) (clients w) ws Hc
                   (fun x => eq_refl)) Hu Hr Htu Htr)).
  simpl. unfold broadcast. rewrite !recipients_after_close.
  rewrite (remaining_after_close c (set_readyState CLOSED) (set_room None None))
    by reflexivity.
  reflexivity.
Qed.

(** ** Joining while already attached *)

(** [handleJoinRoom] never releases a presence reference: whoever was in
    some room's active set before a [join_room] still is afterwards. *)
Lemma join_room_never_detaches env w c ws u r r1 u1 :
  client_of c w = Some ws ->
  In u1 (getActiveUsers r1 (storage w)) ->
  In u1 (getActiveUsers r1 (storage (exec (on_message env c (Some (join_room u r))) w))).
Proof.
  intros Hc Hin. unfold exec. rewrite (join_room_run env w c ws u r Hc). simpl snd.
  cbn [storage]. apply getActiveUsers_spec. apply getActiveUsers_spec in Hin.
  rewrite multiplicity_addActiveUser. lia.
Qed.

(** C1 fails on the code.  A is attached to room 7 on socket 0 and B is in
    room 7 too; socket 0 then sends [join_room] for room 8.  The socket now
    belongs to room 8 only, but A is still in the active set of room 7, no
    [user_left] or [active_users] frame is sent to room 7 (B hears
    nothing), and A stays in room 7's active set even after the socket
    has closed. *)
Theorem join_other_room_leaks_presence :
  client_of 0%nat (world_AB env_ok) = Some (mkClient 0 (Some "A") (Some 7) OPEN)
  /\ client_of 0%nat world_switch = Some (mkClient 0 (Some "A") (Some 8) OPEN)
  /\ getActiveUsers 7 (storage world_switch) = ["A"; "B"]
  /\ getActiveUsers 8 (storage world_switch) = ["A"]
  /\ new_effects (world_AB env_ok) world_switch =
       [Send 0%nat (user_joined "A" 8); Send 0%nat (active_users 8 ["A"]);
        Send 0%nat (room_history [])]
  /\ clients (exec (on_close 0%nat) world_switch) = [mkClient 1 (Some "B") (Some 7) OPEN]
  /\ getActiveUsers 7 (storage (exec (on_close 0%nat) world_switch)) = ["A"; "B"].
Proof. repeat split; vm_compute; reflexivity. Qed.

(** C4 fails on the code.  Socket 0 joins room 7 as A, joins room 7 as A
    again, and leaves: no connection is attached to room 7 any more, yet A
    is still in the room's active set.  The presence tracker cannot tell
    this run from the one where two sockets join and one leaves: it is
    left in the same state by both, while in that run a connection of A
    is still attached. *)
Theorem rejoin_then_leave_leaks_presence :
  clients world_rejoin_leave = [mkClient 0 None None OPEN; mkClient 1 None None OPEN]
  /\ getActiveUsers 7 (storage world_rejoin_leave) = ["A"]
  /\ multiplicity (7, "A") (presence (storage world_rejoin_leave)) = 1%nat
  /\ clients world_two_join_leave =
       [mkClient 0 None None OPEN; mkClient 1 (Some "A") (Some 7) OPEN]
  /\ presence (storage world_two_join_leave) = presence (storage world_rejoin_leave).
Proof. repeat split; vm_compute; reflexivity. Qed.

(** ** What leaves registry and presence alone *)

Create HintDb steady.

Lemma steady_ret {A} (a : A) : steady (ret a).
Proof. now intros w. Qed.

Lemma steady_throw {A} e : steady (@throw A e).
Proof. now intros w. Qed.

Lemma steady_emit l : steady (emit l).
Proof. now intros w. Qed.

Lemma steady_get_ws c : steady (get_ws c).
Proof. now intros w. Qed.

Lemma steady_bind {A B} (m : M A) (k : A -> M B) :
  steady m -> (forall a, steady (k a)) -> steady (bind m k).
Proof.
  intros Hm Hk w. unfold bind. specialize (Hm w).
  destruct (m w) as [[a|e] w1]; simpl in *; [|exact Hm].
  specialize (Hk a w1). destruct Hm as [H1 H2], Hk as [H3 H4]. split; congruence.
Qed.

Lemma steady_try {A} (m : M A) h :
  steady m -> (forall e, steady (h e)) -> steady (try_catch m h).
Proof.
  intros Hm Hh w. unfold try_catch. specialize (Hm w).
  destruct (m w) as [[a|e] w1]; simpl in *; [exact Hm|].
  specialize (Hh e w1). destruct Hm as [H1 H2], Hh as [H3 H4]. split; congruence.
Qed.

Lemma steady_await env {A} (f : Storage -> option (A * Storage)) :
  (forall s a s', f s = Some (a, s') -> presence s' = presence s) ->
  steady (await env f).
Proof.
  intros Hf w. unfold await. destruct (fails env (tick w)); [now split|].
  destruct (f (storage w)) as [[a s']|] eqn:Hfs; [|now split].
  simpl. split; [reflexivity|]. now apply (Hf _ a).
Qed.

Lemma steady_createMessage env i : steady (storage_createMessage env i).
Proof.
  unfold storage_createMessage. apply steady_bind.
  - apply steady_await. now intros s a s' [= <- <-].
  - intros m. apply steady_bind; [apply steady_emit|intros _; apply steady_ret].
Qed.

Lemma steady_createAttachment env i : steady (storage_createAttachment env i).
Proof.
  unfold storage_createAttachment. apply steady_bind.
  - apply steady_await. intros s a s'. unfold createAttachment.
    destruct (has_message _ _); [|discriminate]. now intros [= <- <-].
  - intros m. apply steady_bind; [apply steady_emit|intros _; apply steady_ret].
Qed.

Lemma steady_getUser env u : steady (storage_getUser env u).
Proof. apply steady_await. now intros s a s' [= <- <-]. Qed.

Lemma steady_getPersona env p : steady (storage_getPersona env p).
Proof. apply steady_await. now intros s a s' [= <- <-]. Qed.

Lemma steady_getMessagesByRoom env r lim : steady (storage_getMessagesByRoom env r lim).
Proof. apply steady_await. now intros s a s' [= <- <-]. Qed.

Lemma steady_generate env persona ctx : steady (generateAIResponse env persona ctx).
Proof.
  unfold generateAIResponse. apply steady_bind; [apply steady_emit|].
  intros _ w. now destruct (fails env (tick w)).
Qed.

Lemma steady_broadcastToRoom r ev : steady (broadcastToRoom r ev).
Proof. now intros w. Qed.

Lemma steady_ws_send c ev : steady (ws_send c ev).
Proof.
  unfold ws_send. apply steady_bind; [apply steady_get_ws|].
  intros ws. destruct (is_open ws); [apply steady_emit|apply steady_ret].
Qed.

Lemma steady_sendErrorToClient c msg : steady (sendErrorToClient c msg).
Proof.
  unfold sendErrorToClient. apply steady_bind; [apply steady_get_ws|].
  intros ws. destruct (is_open ws); [apply steady_ws_send|apply steady_ret].
Qed.

#[local] Hint Resolve steady_ret steady_throw steady_emit steady_get_ws
  steady_createMessage steady_createAttachment steady_getUser steady_getPersona
  steady_getMessagesByRoom steady_generate steady_broadcastToRoom steady_ws_send
  steady_sendErrorToClient : steady.

Ltac steady_step :=
  match goal with
  | |- steady (bind _ _) => apply steady_bind; [|intros ?]
  | |- steady (try_catch _ _) => apply steady_try; [|intros ?]
  | |- steady (match ?x with _ => _ end) => destruct x
  | |- steady _ => solve [auto with steady]
  end.

Lemma steady_fallback_reply env r p : steady (fallback_reply env r p).
Proof. unfold fallback_reply. repeat steady_step. Qed.

Lemma steady_generate_reply env c r p um user : steady (generate_reply env c r p um user).
Proof. unfold generate_reply. repeat steady_step. Qed.

#[local] Hint Resolve steady_fallback_reply steady_generate_reply : steady.

Lemma steady_handleSendMessage env c message personaId :
  steady (handleSendMessage env c message personaId).
Proof. unfold handleSendMessage. repeat steady_step. Qed.

Lemma steady_handleSendAttachment env c url fileName fileSize fileType attachmentType :
  steady (handleSendAttachment env c url fileName fileSize fileType attachmentType).
Proof. unfold handleSendAttachment. repeat steady_step. Qed.

Lemma steady_handleSendVoiceMessage env c url fileName fileSize fileType :
  steady (handleSendVoiceMessage env c url fileName fileSize fileType).
Proof. unfold handleSendVoiceMessage. repeat steady_step. Qed.

Lemma steady_on_message env c data :
  (forall u r, data <> Some (join_room u r)) -> data <> Some leave_room ->
  steady (on_message env c data).
Proof.
  intros Hj Hl. unfold on_message. apply steady_try; [|auto with steady].
  destruct data as [[u r| | | | | |]|]; auto with steady.
  - now destruct (Hj u r).
  - now destruct Hl.
  - apply steady_handleSendMessage.
  - apply steady_handleSendAttachment.
  - apply steady_handleSendVoiceMessage.
Qed.

(** ** Counting attached connections *)

Lemma update_absent c (f : WebSocketClient -> WebSocketClient) l :
  ~ In c (List.map cid l) ->
  List.map (fun x => if Nat.eqb (cid x) c then f x else x) l = l.
Proof.
  induction l as [|x l IH]; simpl; intros Hn; [reflexivity|].
  destruct (Nat.eqb (cid x) c) eqn:Hx.
  - apply Nat.eqb_eq in Hx. tauto.
  - f_equal. apply IH. tauto.
Qed.

Lemma remove_absent c l :
  ~ In c (List.map cid l) ->
  List.filter (fun x => negb (Nat.eqb (cid x) c)) l = l.
Proof.
  induction l as [|x l IH]; simpl; intros Hn; [reflexivity|].
  destruct (Nat.eqb (cid x) c) eqn:Hx; simpl.
  - apply Nat.eqb_eq in Hx. tauto.
  - f_equal. apply IH. tauto.
Qed.

Lemma attached_count_cons u r x l :
  attached_count u r (x :: l) = (b2n (attached_to u r x) + attached_count u r l)%nat.
Proof. unfold attached_count. simpl. now destruct (attached_to u r x). Qed.

Lemma attached_count_update u r c f l ws :
  List.NoDup (List.map cid l) ->
  List.find (fun x => Nat.eqb (cid x) c) l = Some ws ->
  (forall x, cid (f x) = cid x) ->
  (attached_count u r (List.map (fun x => if Nat.eqb (cid x) c then f x else x) l)
   + b2n (attached_to u r ws) =
   attached_count u r l + b2n (attached_to u r (f ws)))%nat.
Proof.
  intros Hnd Hfind Hf. induction l as [|x l IH]; simpl in *; [discriminate|].
  inversion Hnd as [|? ? Hx Hnd']; subst.
  destruct (Nat.eqb (cid x) c) eqn:Hc.
  - injection Hfind as ->. apply Nat.eqb_eq in Hc. subst c.
    rewrite update_absent by assumption. rewrite !attached_count_cons. lia.
  - rewrite !attached_count_cons. specialize (IH Hnd' Hfind). lia.
Qed.

Lemma attached_count_remove u r c l ws :
  List.NoDup (List.map cid l) ->
  List.find (fun x => Nat.eqb (cid x) c) l = Some ws ->
  (attached_count u r (List.filter (fun x => negb (Nat.eqb (cid x) c)) l)
   + b2n (attached_to u r ws) = attached_count u r l)%nat.
Proof.
  intros Hnd Hfind. induction l as [|x l IH]; simpl in *; [discriminate|].
  inversion Hnd as [|? ? Hx Hnd']; subst.
  destruct (Nat.eqb (cid x) c) eqn:Hc; simpl.
  - injection Hfind as ->. apply Nat.eqb_eq in Hc. subst c.
    rewrite remove_absent by assumption. rewrite attached_count_cons. lia.
  - rewrite !attached_count_cons. specialize (IH Hnd' Hfind). lia.
Qed.

Lemma cids_update c (f : WebSocketClient -> WebSocketClient) l :
  (forall x, cid (f x) = cid x) ->
  List.map cid (List.map (fun x => if Nat.eqb (cid x) c then f x else x) l) =
  List.map cid l.
Proof.
  intros Hf. rewrite map_map. apply map_ext. intros x.
  now destruct (Nat.eqb (cid x) c).
Qed.

Lemma NoDup_cids_remove c l :
  List.NoDup (List.map cid l) ->
  List.NoDup (List.map cid (List.filter (fun x => negb (Nat.eqb (cid x) c)) l)).
Proof.
  induction l as [|x l IH]; simpl; intros Hnd; [constructor|].
  inversion Hnd as [|? ? Hx Hnd']; subst.
  destruct (Nat.eqb (cid x) c); simpl; [now apply IH|].
  constructor; [|now apply IH].
  intros (y & Hy & Hin%filter_In)%in_map_iff. apply Hx. apply in_map_iff.
  exists y. tauto.
Qed.

Lemma enabled_client c w :
  In c (List.map cid (clients w)) -> exists ws, client_of c w = Some ws.
Proof.
  intros (x & Hx & Hin)%in_map_iff. unfold client_of.
  destruct (List.find _ (clients w)) as [ws|] eqn:Hf; [eauto|].
  apply (find_none _ _ Hf) in Hin. apply Nat.eqb_neq in Hin. contradiction.
Qed.

Lemma attached_to_fields u r x u0 r0 :
  userId x = Some u0 -> roomId x = Some r0 ->
  b2n (attached_to u r x) = if decide ((r, u) = (r0, u0)) then 1%nat else 0%nat.
Proof.
  intros Hu Hr. unfold attached_to. rewrite Hu, Hr.
  destruct (decide ((r, u) = (r0, u0))) as [[= -> ->]|Hne].
  - now rewrite String.eqb_refl, Z.eqb_refl.
  - destruct (String.eqb u0 u) eqn:Hus; [|reflexivity].
    destruct (r0 =? r) eqn:Hrs; [|reflexivity].
    apply String.eqb_eq in Hus. apply Z.eqb_eq in Hrs. subst. contradiction.
Qed.

Lemma attached_to_not_joined u r x :
  joined x = false -> truthy_string u = true -> truthy_num r = true ->
  attached_to u r x = false.
Proof.
  unfold joined, attached_to. intros Hj Hu Hr.
  destruct (userId x) as [u0|], (roomId x) as [r0|]; try reflexivity.
  destruct (String.eqb u0 u) eqn:Hus; [|reflexivity].
  destruct (r0 =? r) eqn:Hrs; [|reflexivity].
  apply String.eqb_eq in Hus. apply Z.eqb_eq in Hrs. subst. simpl in Hj.
  now rewrite Hu, Hr in Hj.
Qed.

Lemma attached_to_reset u r x : attached_to u r (set_room None None x) = false.
Proof. reflexivity. Qed.

(** ** What each event does to registry and presence *)

Lemma join_room_effect env w c ws u r :
  client_of c w = Some ws ->
  let w' := exec (on_message env c (Some (join_room u r))) w in
  clients w' = List.map (fun x => if Nat.eqb (cid x) c
                                  then set_room (Some u) (Some r) x else x) (clients w)
  /\ storage w' = addActiveUser r u (storage w).
Proof.
  intros Hc w'. subst w'. unfold exec. now rewrite (join_room_run env w c ws u r Hc).
Qed.

Lemma leave_room_effect_joined env w c ws u r :
  client_of c w = Some ws ->
  userId ws = Some u -> roomId ws = Some r ->
  truthy_string u = true -> truthy_num r = true ->
  let w' := exec (on_message env c (Some leave_room)) w in
  clients w' = List.map (fun x => if Nat.eqb (cid x) c
                                  then set_room None None x else x) (clients w)
  /\ storage w' = removeActiveUser r u (storage w).
Proof.
  intros Hc Hu Hr Htu Htr w'. subst w'. unfold exec, on_message.
  pose proof (handleLeaveRoom_joined c ws u r (clients w) (storage w) (tick w) (trace w)
                (lookup_ws_client c w ws Hc) Hu Hr Htu Htr) as Hrun.
  cbv zeta in Hrun. rewrite <- world_eta in Hrun.
  rewrite (try_ok _ _ _ _ _ Hrun). now split.
Qed.

Lemma leave_room_effect_not_joined env w c :
  joined (lookup_ws c (clients w)) = false ->
  exec (on_message env c (Some leave_room)) w = w.
Proof.
  intros Hj. unfold exec, on_message.
  now rewrite (try_ok _ _ _ _ _ (handleLeaveRoom_not_joined c w Hj)).
Qed.

Lemma on_close_effect_not_joined w c :
  joined (lookup_ws c (clients w)) = false ->
  let w' := exec (on_close c) w in
  clients w' = List.filter (fun x => negb (Nat.eqb (cid x) c)) (clients w)
  /\ storage w' = storage w.
Proof.
  intros Hj w'. subst w'. unfold exec, on_close.
  pose (w1 := mkWorld (List.map (fun x => if Nat.eqb (cid x) c
                                          then set_readyState CLOSED x else x) (clients w))
                (storage w) (tick w) (trace w)).
  rewrite (bind_ok (update_ws c (set_readyState CLOSED)) _ w tt w1 eq_refl).
  assert (Hj1 : joined (lookup_ws c (clients w1)) = false).
  { subst w1. cbn [clients]. unfold lookup_ws in *.
    destruct (List.find _ (clients w)) as [ws|] eqn:Hf.
    - rewrite (client_of_update c (set_readyState CLOSED) w ws Hf) by reflexivity.
      exact Hj.
    - assert (Hn : List.find (fun x => Nat.eqb (cid x) c)
                     (List.map (fun x => if Nat.eqb (cid x) c
                                         then set_readyState CLOSED x else x) (clients w))
                   = None).
      { clear Hj. induction (clients w) as [|x l IH]; simpl in *; [reflexivity|].
        destruct (Nat.eqb (cid x) c) eqn:Hx; [discriminate|]. rewrite Hx. now apply IH. }
      now rewrite Hn. }
  rewrite (bind_ok _ _ _ _ _ (handleLeaveRoom_not_joined c w1 Hj1)).
  subst w1. cbn [snd clients storage]. split; [|reflexivity].
  clear. induction (clients w) as [|x l IH]; simpl; [reflexivity|].
  destruct (Nat.eqb (cid x) c) eqn:Hx; simpl; [now rewrite Hx|]. rewrite Hx. simpl.
  now rewrite IH.
Qed.

Lemma not_truthy_not_joined ws u r :
  userId ws = Some u -> roomId ws = Some r ->
  truthy_string u && truthy_num r = false -> joined ws = false.
Proof. unfold joined. now intros -> ->. Qed.

(** A connection is either joined, with its identity and room, or not. *)
Lemma joined_cases ws :
  (exists u r, userId ws = Some u /\ roomId ws = Some r
               /\ truthy_string u = true /\ truthy_num r = true)
  \/ joined ws = false.
Proof.
  destruct (joined ws) eqn:Hj; [left; now apply joined_fields|now right].
Qed.

(** Every enabled event has one of the shapes. *)
Lemma step_shape env e w strict :
  enabled e w -> (strict = true -> disciplined e w) ->
  StepShape strict w (exec (fire env e) w).
Proof.
  destruct e as [c|c data|c]; simpl; intros Hen Hdis.
  - now apply (shape_connection _ _ _ c).
  - apply enabled_client in Hen as [ws Hc].
    destruct data as [[u r| | | | | |]|].
    + destruct (join_room_effect env w c ws u r Hc) as [Hcl Hs].
      apply (shape_join _ _ _ c ws u r); [assumption| |assumption|now rewrite Hs].
      intros Hst. specialize (Hdis Hst). now rewrite (lookup_ws_client _ _ _ Hc) in Hdis.
    + destruct (joined_cases ws) as [(u & r & Hu & Hr & Htu & Htr)|Hj].
      * destruct (leave_room_effect_joined env w c ws u r Hc Hu Hr Htu Htr) as [Hcl Hs].
        apply (shape_leave _ _ _ c ws u r); try assumption. now rewrite Hs.
      * rewrite leave_room_effect_not_joined
          by now rewrite (lookup_ws_client _ _ _ Hc).
        now apply shape_steady.
    + apply shape_steady; now apply steady_on_message.
    + apply shape_steady; now apply steady_on_message.
    + apply shape_steady; now apply steady_on_message.
    + apply shape_steady; now apply steady_on_message.
    + apply shape_steady; now apply steady_on_message.
    + apply shape_steady; now apply steady_on_message.
  - apply enabled_client in Hen as [ws Hc].
    destruct (joined_cases ws) as [(u & r & Hu & Hr & Htu & Htr)|Hj].
    + pose proof (on_close_joined w c ws u r Hc Hu Hr Htu Htr) as Hrun. cbv zeta in Hrun.
      apply (shape_close _ _ _ c ws u r); try assumption; unfold exec; now rewrite Hrun.
    + destruct (on_close_effect_not_joined w c) as [Hcl Hs];
        [now rewrite (lookup_ws_client _ _ _ Hc)|].
      apply (shape_drop _ _ _ c ws); try assumption. now rewrite Hs.
Qed.

Lemma attached_count_app u r l1 l2 :
  attached_count u r (l1 ++ l2) = (attached_count u r l1 + attached_count u r l2)%nat.
Proof. unfold attached_count. now rewrite List.filter_app, length_app. Qed.

Lemma distinct_sockets_shape strict w w' :
  StepShape strict w w' -> distinct_sockets w -> distinct_sockets w'.
Proof.
  unfold distinct_sockets.
  intros [c Hn Hcl _|Hcl _|c ws u r _ _ Hcl _|c ws u r _ _ _ _ _ Hcl _
         |c ws u r _ _ _ _ _ Hcl _|c ws _ _ Hcl _] Hnd; rewrite Hcl.
  - rewrite map_app. simpl. apply List.NoDup_app; [assumption|repeat constructor; intros []|].
    intros x Hx [<-|[]]. contradiction.
  - assumption.
  - now rewrite cids_update.
  - now rewrite cids_update.
  - now apply NoDup_cids_remove.
  - now apply NoDup_cids_remove.
Qed.

Lemma multiplicity_add (k k' : RoomID * UserID) (X : gmultiset (RoomID * UserID)) :
  multiplicity k (X ⊎ {[+ k' +]}) =
    (multiplicity k X + if decide (k = k') then 1 else 0)%nat.
Proof.
  rewrite multiplicity_disj_union, multiplicity_singleton.
  now destruct (decide (k = k')).
Qed.

Lemma multiplicity_release (k k' : RoomID * UserID) (X : gmultiset (RoomID * UserID)) :
  multiplicity k (X ∖ {[+ k' +]}) =
    (multiplicity k X - if decide (k = k') then 1 else 0)%nat.
Proof.
  rewrite multiplicity_difference, multiplicity_singleton.
  now destruct (decide (k = k')).
Qed.

Lemma b2n_le_1 b : (b2n b <= 1)%nat.
Proof. destruct b; simpl; lia. Qed.

(** Whatever the clients do, an attached connection keeps its user in the
    active set. *)
Lemma presence_covers_shape strict w w' :
  StepShape strict w w' -> distinct_sockets w -> presence_covers w -> presence_covers w'.
Proof.
  intros Hshape Hnd Hinv u r Htu Htr. specialize (Hinv u r Htu Htr).
  destruct Hshape as [c Hn Hcl Hp|Hcl Hp|c ws u' r' Hc _ Hcl Hp
                     |c ws u' r' Hc Hu Hr _ _ Hcl Hp
                     |c ws u' r' Hc Hu Hr _ _ Hcl Hp|c ws Hc Hj Hcl Hp];
    rewrite Hcl, Hp.
  - rewrite attached_count_app. unfold attached_count at 2. simpl. lia.
  - exact Hinv.
  - pose proof (attached_count_update u r c (set_room (Some u') (Some r')) (clients w) ws
                  Hnd Hc (fun x => eq_refl)) as Hcount.
    rewrite (attached_to_fields u r (set_room (Some u') (Some r') ws) u' r') in Hcount
      by reflexivity.
    rewrite multiplicity_add. pose proof (b2n_le_1 (attached_to u r ws)) as Hb.
    repeat case_decide; solve [lia | congruence].
  - pose proof (attached_count_update u r c (set_room None None) (clients w) ws
                  Hnd Hc (fun x => eq_refl)) as Hcount.
    rewrite attached_to_reset in Hcount. simpl in Hcount.
    rewrite (attached_to_fields u r ws u' r' Hu Hr) in Hcount.
    rewrite multiplicity_release. repeat case_decide; solve [lia | congruence].
  - pose proof (attached_count_remove u r c (clients w) ws Hnd Hc) as Hcount.
    rewrite (attached_to_fields u r ws u' r' Hu Hr) in Hcount.
    rewrite multiplicity_release. repeat case_decide; solve [lia | congruence].
  - pose proof (attached_count_remove u r c (clients w) ws Hnd Hc) as Hcount.
    rewrite (attached_to_not_joined u r ws Hj Htu Htr) in Hcount. simpl in Hcount. lia.
Qed.

(** With disciplined clients the references are exactly those of the
    attached connections. *)
Lemma presence_exact_shape w w' :
  StepShape true w w' -> distinct_sockets w -> presence_exact w -> presence_exact w'.
Proof.
  intros Hshape Hnd Hinv u r Htu Htr. specialize (Hinv u r Htu Htr).
  destruct Hshape as [c Hn Hcl Hp|Hcl Hp|c ws u' r' Hc Hj Hcl Hp
                     |c ws u' r' Hc Hu Hr _ _ Hcl Hp
                     |c ws u' r' Hc Hu Hr _ _ Hcl Hp|c ws Hc Hj Hcl Hp];
    rewrite Hcl, Hp.
  - rewrite attached_count_app. unfold attached_count at 2. simpl. lia.
  - exact Hinv.
  - pose proof (attached_count_update u r c (set_room (Some u') (Some r')) (clients w) ws
                  Hnd Hc (fun x => eq_refl)) as Hcount.
    rewrite (attached_to_fields u r (set_room (Some u') (Some r') ws) u' r') in Hcount
      by reflexivity.
    rewrite (attached_to_not_joined u r ws (Hj eq_refl) Htu Htr) in Hcount.
    simpl in Hcount. rewrite multiplicity_add.
    repeat case_decide; solve [lia | congruence].
  - pose proof (attached_count_update u r c (set_room None None) (clients w) ws
                  Hnd Hc (fun x => eq_refl)) as Hcount.
    rewrite attached_to_reset in Hcount. simpl in Hcount.
    rewrite (attached_to_fields u r ws u' r' Hu Hr) in Hcount.
    rewrite multiplicity_release. repeat case_decide; solve [lia | congruence].
  - pose proof (attached_count_remove u r c (clients w) ws Hnd Hc) as Hcount.
    rewrite (attached_to_fields u r ws u' r' Hu Hr) in Hcount.
    rewrite multiplicity_release. repeat case_decide; solve [lia | congruence].
  - pose proof (attached_count_remove u r c (clients w) ws Hnd Hc) as Hcount.
    rewrite (attached_to_not_joined u r ws Hj Htu Htr) in Hcount. simpl in Hcount. lia.
Qed.

(** In every world the server can reach, sockets are distinct and every
    attached connection holds a presence reference. *)
Lemma presence_covers_attached env w :
  reachable env w -> distinct_sockets w /\ presence_covers w.
Proof.
  induction 1 as [s t tr Hs|w e _ [Hnd Hinv] Hen].
  - split; [constructor|]. intros u r _ _. simpl. rewrite Hs. cbn. lia.
  - pose proof (step_shape env e w false Hen ltac:(discriminate)) as Hshape.
    split; [now apply (distinct_sockets_shape false w)|].
    now apply (presence_covers_shape false w).
Qed.

Lemma presence_exact_disciplined env w :
  reachable_disciplined env w -> distinct_sockets w /\ presence_exact w.
Proof.
  induction 1 as [s t tr Hs|w e _ [Hnd Hinv] Hen Hdis].
  - split; [constructor|]. intros u r _ _. simpl. now rewrite Hs.
  - pose proof (step_shape env e w true Hen (fun _ => Hdis)) as Hshape.
    split; [now apply (distinct_sockets_shape true w)|].
    now apply (presence_exact_shape w).
Qed.

Lemma attached_count_pos u r l :
  (0 < attached_count u r l)%nat <->
  exists x, In x l /\ userId x = Some u /\ roomId x = Some r.
Proof.
  unfold attached_count. split.
  - destruct (List.filter (attached_to u r) l) as [|x l'] eqn:Hf; simpl; [lia|].
    intros _. assert (Hin : In x (List.filter (attached_to u r) l)) by (rewrite Hf; now left).
    apply filter_In in Hin as [Hin Hat]. exists x. split; [assumption|].
    unfold attached_to in Hat.
    destruct (userId x) as [u0|], (roomId x) as [r0|]; try discriminate.
    apply andb_true_iff in Hat as [->%String.eqb_eq ->%Z.eqb_eq]. now split.
  - intros (x & Hin & Hu & Hr).
    assert (Hin' : In x (List.filter (attached_to u r) l)).
    { apply filter_In. split; [assumption|]. unfold attached_to.
      now rewrite Hu, Hr, String.eqb_refl, Z.eqb_refl. }
    destruct (List.filter (attached_to u r) l); [destruct Hin'|simpl; lia].
Qed.

(** X19. The half of the presence contract that holds for all clients: a user
    with a connection attached to a room is in the room's active set, so
    a second tab's leave or disconnect never evicts a still-connected
    user. *)
Lemma attached_user_is_active env w x u r :
  reachable env w ->
  In x (clients w) -> userId x = Some u -> roomId x = Some r ->
  truthy_string u = true -> truthy_num r = true ->
  In u (getActiveUsers r (storage w)).
Proof.
  intros Hreach Hin Hu Hr Htu Htr.
  destruct (presence_covers_attached env w Hreach) as [_ Hinv].
  specialize (Hinv u r Htu Htr). apply getActiveUsers_spec.
  assert (0 < attached_count u r (clients w))%nat by (apply attached_count_pos; eauto).
  lia.
Qed.

(** X20. The whole contract, for clients that join only on connections that
    are not joined: a user is in a room's active set iff one of the live
    connections is attached to the room with that identity. *)
Lemma active_iff_attached env w u r :
  reachable_disciplined env w ->
  truthy_string u = true -> truthy_num r = true ->
  In u (getActiveUsers r (storage w)) <->
  exists x, In x (clients w) /\ userId x = Some u /\ roomId x = Some r.
Proof.
  intros Hreach Htu Htr.
  destruct (presence_exact_disciplined env w Hreach) as [_ Hinv].
  specialize (Hinv u r Htu Htr).
  rewrite getActiveUsers_spec, <- Hinv. apply attached_count_pos.
Qed.

(** C8, as the code and the reference-counted presence have it.  When the
    transport of a joined connection closes, whether or not a
    [leave_room] was sent first, the cleanup runs: the connection is gone,
    one presence reference of its user in its room is released, and
    [user_left] followed by [active_users] with the updated list is
    broadcast to every remaining open connection of the room.  The user
    stays in the room's active set exactly when another reference of the
    user remains there.  When clients have sent [join_room] only on
    connections that were not joined, so that every reference belongs to
    an attached connection, that is exactly when another live connection
    is still attached to the room as that user: the user is removed when
    the closed connection was the last one. *)
Theorem close_runs_detach env w c ws u r :
  client_of c w = Some ws ->
  userId ws = Some u -> roomId ws = Some r ->
  truthy_string u = true -> truthy_num r = true ->
  let w' := exec (on_close c) w in
  let new := new_effects w w' in
  clients w' = List.filter (fun x => negb (Nat.eqb (cid x) c)) (clients w)
  /\ storage w' = removeActiveUser r u (storage w)
  /\ multiplicity (r, u) (presence (storage w')) =
       (multiplicity (r, u) (presence (storage w)) - 1)%nat
  /\ (In u (getActiveUsers r (storage w')) <->
      (2 <= multiplicity (r, u) (presence (storage w)))%nat)
  /\ new = broadcast r (user_left u r) (clients w')
           ++ broadcast r (active_users r (getActiveUsers r (storage w'))) (clients w')
  /\ (forall c' ws', client_of c' w' = Some ws' -> roomId ws' = Some r ->
                     is_open ws' = true ->
                     In (Send c' (user_left u r)) new
                     /\ In (Send c' (active_users r (getActiveUsers r (storage w')))) new)
  /\ (reachable_disciplined env w ->
      (In u (getActiveUsers r (storage w')) <->
       exists x, In x (clients w') /\ userId x = Some u /\ roomId x = Some r)).
Proof.
  intros Hc Hu Hr Htu Htr w' new.
  pose proof (on_close_joined w c ws u r Hc Hu Hr Htu Htr) as Hrun. cbv zeta in Hrun.
  assert (Hcl : clients w' = List.filter (fun x => negb (Nat.eqb (cid x) c)) (clients w)).
  { subst w'. unfold exec. now rewrite Hrun. }
  assert (Hs : storage w' = removeActiveUser r u (storage w)).
  { subst w'. unfold exec. now rewrite Hrun. }
  assert (Hnew : new = broadcast r (user_left u r) (clients w')
           ++ broadcast r (active_users r (getActiveUsers r (storage w'))) (clients w')).
  { subst new. apply new_effects_app. rewrite Hcl, Hs.
    subst w'. unfold exec. now rewrite Hrun. }
  assert (Hm : multiplicity (r, u) (presence (storage w')) =
               (multiplicity (r, u) (presence (storage w)) - 1)%nat).
  { rewrite Hs, multiplicity_removeActiveUser. now rewrite decide_True by reflexivity. }
  split; [exact Hcl|]. split; [exact Hs|]. split; [exact Hm|].
  split; [rewrite getActiveUsers_spec, Hm; lia|].
  split; [exact Hnew|].
  split.
  { intros c' ws' Hc' Hr' Ho'. rewrite Hnew, !in_app_iff.
    split; [left|right]; now apply (sender_receives c' w' ws'). }
  intros Hreach.
  destruct (presence_exact_disciplined env w Hreach) as [Hnd Hexact].
  specialize (Hexact u r Htu Htr).
  pose proof (attached_count_remove u r c (clients w) ws Hnd Hc) as Hcount.
  rewrite (attached_to_fields u r ws u r Hu Hr) in Hcount.
  rewrite decide_True in Hcount by reflexivity.
  rewrite getActiveUsers_spec, Hm, <- attached_count_pos, Hcl. lia.
Qed.

(** C8 at a concrete input: A and B are in room 7, each on one
    connection, and A's transport closes without a [leave_room]. *)
Lemma close_runs_detach_witness :
  let w := world_AB env_ok in
  let w' := exec (on_close 0%nat) w in
  let new := new_effects w w' in
  reachable_disciplined env_ok w
  /\ clients w' = List.filter (fun x => negb (Nat.eqb (cid x) 0%nat)) (clients w)
  /\ storage w' = removeActiveUser 7 "A" (storage w)
  /\ multiplicity (7, "A") (presence (storage w')) =
       (multiplicity (7%Z, "A") (presence (storage w)) - 1)%nat
  /\ (In "A" (getActiveUsers 7 (storage w')) <->
      (2 <= multiplicity (7%Z, "A") (presence (storage w)))%nat)
  /\ new = broadcast 7 (user_left "A" 7) (clients w')
           ++ broadcast 7 (active_users 7 (getActiveUsers 7 (storage w'))) (clients w')
  /\ (forall c' ws', client_of c' w' = Some ws' -> roomId ws' = Some 7 ->
                     is_open ws' = true ->
                     In (Send c' (user_left "A" 7)) new
                     /\ In (Send c' (active_users 7 (getActiveUsers 7 (storage w')))) new)
  /\ (In "A" (getActiveUsers 7 (storage w')) <->
      exists x, In x (clients w') /\ userId x = Some "A" /\ roomId x = Some 7).
Proof.
  assert (Hreach : reachable_disciplined env_ok (world_AB env_ok)).
  { change (world_AB env_ok) with
      (exec (fire env_ok (message 1%nat (Some (join_room "B" 7))))
         (exec (fire env_ok (message 0%nat (Some (join_room "A" 7))))
            (exec (fire env_ok (connection 1%nat))
               (exec (fire env_ok (connection 0%nat)) (mkWorld [] store0 0 []))))).
    repeat (apply disciplined_step;
              [| solve [simpl; tauto | simpl; intuition discriminate]
               | solve [exact I | reflexivity]]).
    apply disciplined_start. reflexivity. }
  split; [exact Hreach|].
  destruct (close_runs_detach env_ok (world_AB env_ok) 0%nat
              (mkClient 0 (Some "A") (Some 7) OPEN) "A" 7
              eq_refl eq_refl eq_refl eq_refl eq_refl)
    as (H1 & H2 & H3 & H4 & H5 & H6 & H7).
  split; [exact H1|]. split; [exact H2|]. split; [exact H3|]. split; [exact H4|].
  split; [exact H5|]. split; [exact H6|]. exact (H7 Hreach).
Defined.

(** The scenario of the spec: B is told that A left and that B is now the
    only active user of room 7. *)
Example scenario_close_frames :
  new_effects (world_AB env_ok) (exec (on_close 0%nat) (world_AB env_ok)) =
    [Send 1%nat (user_left "A" 7); Send 1%nat (active_users 7 ["B"])].
Proof. vm_compute. reflexivity. Qed.

(** C8 as stated fails for a user with two connections in the room: when
    one of them closes the user is, and has to be, still in the active
    set. *)
Lemma close_keeps_second_tab_counterexample :
  let w' := exec (on_close 0%nat) world_two_tabs in
  client_of 0%nat world_two_tabs = Some (mkClient 0 (Some "A") (Some 7) OPEN)
  /\ client_of 1%nat w' = Some (mkClient 1 (Some "A") (Some 7) OPEN)
  /\ In "A" (getActiveUsers 7 (storage w'))
  /\ new_effects world_two_tabs w' =
       [Send 1%nat (user_left "A" 7); Send 2%nat (user_left "A" 7);
        Send 1%nat (active_users 7 ["A"; "B"]); Send 2%nat (active_users 7 ["A"; "B"])].
Proof.
  cbv zeta. split; [reflexivity|]. split; [reflexivity|].
  split; [|vm_compute; reflexivity].
  apply getActiveUsers_spec. vm_compute. lia.
Qed.

(** ** The message table stays well formed *)

Lemma store_ordered_createMessage i s :
  store_ordered s -> store_ordered (stored i s).
Proof.
  intros [Hfresh Hsorted]. split.
  - intros m [<-|Hm]; simpl; [lia|]. apply Hfresh in Hm. lia.
  - unfold newest_first. simpl. constructor; [exact Hsorted|].
    apply List.Forall_forall. intros m Hm. apply Hfresh in Hm. simpl. lia.
Qed.

Lemma store_ordered_presence p s :
  store_ordered s -> store_ordered (set_presence p s).
Proof. intros H. exact H. Qed.

Lemma keeps_ret {A} (a : A) : keeps (ret a).
Proof. now intros w. Qed.

Lemma keeps_throw {A} e : keeps (@throw A e).
Proof. now intros w. Qed.

Lemma keeps_emit l : keeps (emit l).
Proof. now intros w. Qed.

Lemma keeps_get_ws c : keeps (get_ws c).
Proof. now intros w. Qed.

Lemma keeps_update_ws c f : keeps (update_ws c f).
Proof. now intros w. Qed.

Lemma keeps_bind {A B} (m : M A) (k : A -> M B) :
  keeps m -> (forall a, keeps (k a)) -> keeps (bind m k).
Proof.
  intros Hm Hk w Hw. unfold bind. specialize (Hm w Hw).
  destruct (m w) as [[a|e] w1]; simpl in *; [|exact Hm]. now apply Hk.
Qed.

Lemma keeps_try {A} (m : M A) h :
  keeps m -> (forall e, keeps (h e)) -> keeps (try_catch m h).
Proof.
  intros Hm Hh w Hw. unfold try_catch. specialize (Hm w Hw).
  destruct (m w) as [[a|e] w1]; simpl in *; [exact Hm|]. now apply Hh.
Qed.

Lemma keeps_settled {A} (r : result A) : keeps (settled r).
Proof. now intros w. Qed.

Lemma keeps_settle {A} (m : M A) : keeps m -> keeps (settle m).
Proof.
  intros Hm w Hw. unfold settle. specialize (Hm w Hw). now destruct (m w).
Qed.

(** [storage.f(...)] for a synchronous update [g] of the store. *)
Lemma keeps_modify {B} (g : Storage -> Storage) (k : M B) :
  (forall s, store_ordered s -> store_ordered (g s)) -> keeps k ->
  keeps (bind get_storage (fun s => bind (set_storage (g s)) (fun _ => k))).
Proof.
  intros Hg Hk w Hw. unfold bind, get_storage, set_storage. apply Hk. simpl. now apply Hg.
Qed.

Lemma keeps_await env {A} (f : Storage -> option (A * Storage)) :
  (forall s a s', f s = Some (a, s') -> store_ordered s -> store_ordered s') ->
  keeps (await env f).
Proof.
  intros Hf w Hw. unfold await. destruct (fails env (tick w)); [exact Hw|].
  destruct (f (storage w)) as [[a s']|] eqn:Hfs; [|exact Hw].
  simpl. exact (Hf (storage w) a s' Hfs Hw).
Qed.

Lemma keeps_createMessage env i : keeps (storage_createMessage env i).
Proof.
  unfold storage_createMessage. apply keeps_bind.
  - apply keeps_await. intros s a s' [= <- <-]. apply store_ordered_createMessage.
  - intros m. apply keeps_bind; [apply keeps_emit|intros _; apply keeps_ret].
Qed.

Lemma keeps_createAttachment env i : keeps (storage_createAttachment env i).
Proof.
  unfold storage_createAttachment. apply keeps_bind.
  - apply keeps_await. intros s a s'. unfold createAttachment.
    destruct (has_message _ _); [|discriminate]. now intros [= <- <-].
  - intros m. apply keeps_bind; [apply keeps_emit|intros _; apply keeps_ret].
Qed.

Lemma keeps_getUser env u : keeps (storage_getUser env u).
Proof. apply keeps_await. now intros s a s' [= <- <-]. Qed.

Lemma keeps_getPersona env p : keeps (storage_getPersona env p).
Proof. apply keeps_await. now intros s a s' [= <- <-]. Qed.

Lemma keeps_getMessagesByRoom env r lim : keeps (storage_getMessagesByRoom env r lim).
Proof. apply keeps_await. now intros s a s' [= <- <-]. Qed.

Lemma keeps_generate env persona ctx : keeps (generateAIResponse env persona ctx).
Proof.
  unfold generateAIResponse. apply keeps_bind; [apply keeps_emit|].
  intros _ w Hw. now destruct (fails env (tick w)).
Qed.

Lemma keeps_broadcastToRoom r ev : keeps (broadcastToRoom r ev).
Proof. now intros w. Qed.

Lemma keeps_ws_send c ev : keeps (ws_send c ev).
Proof.
  unfold ws_send. apply keeps_bind; [apply keeps_get_ws|].
  intros ws. destruct (is_open ws); [apply keeps_emit|apply keeps_ret].
Qed.

Lemma keeps_sendErrorToClient c msg : keeps (sendErrorToClient c msg).
Proof.
  unfold sendErrorToClient. apply keeps_bind; [apply keeps_get_ws|].
  intros ws. destruct (is_open ws); [apply keeps_ws_send|apply keeps_ret].
Qed.

Lemma keeps_broadcastActiveUsers r : keeps (broadcastActiveUsers r).
Proof. now intros w. Qed.

Create HintDb keeps.

#[local] Hint Resolve keeps_ret keeps_throw keeps_emit keeps_get_ws keeps_update_ws
  keeps_settled
  keeps_createMessage keeps_createAttachment keeps_getUser keeps_getPersona
  keeps_getMessagesByRoom keeps_generate keeps_broadcastToRoom keeps_ws_send
  keeps_sendErrorToClient keeps_broadcastActiveUsers store_ordered_presence : keeps.

Ltac keeps_step :=
  match goal with
  | |- keeps (bind get_storage (fun s => bind (set_storage _) _)) =>
      apply keeps_modify; [intros ? ?; apply store_ordered_presence; assumption|]
  | |- keeps (bind _ _) => apply keeps_bind; [|intros ?]
  | |- keeps (try_catch _ _) => apply keeps_try; [|intros ?]
  | |- keeps (settle _) => apply keeps_settle
  | |- keeps (match ?x with _ => _ end) => destruct x
  | |- keeps _ => solve [auto with keeps]
  end.

(** Every event keeps the message table well formed, so the hypotheses of
    the context theorem hold in every world reached from a well-formed
    store. *)
Lemma store_ordered_step env e w :
  store_ordered (storage w) -> store_ordered (storage (exec (fire env e) w)).
Proof.
  assert (H : keeps (fire env e)); [|exact (H w)].
  destruct e as [c|c data|c]; simpl.
  - now intros w'.
  - unfold on_message. apply keeps_try; [|auto with keeps].
    destruct data as [[u r| | | | | |]|]; auto with keeps.
    + unfold handleJoinRoom, sendRoomHistory_issue, sendRoomHistory_resume.
      repeat keeps_step.
    + unfold handleLeaveRoom. repeat keeps_step.
    + unfold handleSendMessage, generate_reply, fallback_reply. repeat keeps_step.
    + unfold handleSendAttachment. repeat keeps_step.
    + unfold handleSendVoiceMessage. repeat keeps_step.
  - unfold on_close, handleLeaveRoom. repeat keeps_step. now intros w'.
Qed.

(** ** Ids that the guards take for absent *)

(** A room id of 0 (or an empty user id) is falsy for [userId && roomId]:
    after such a [join_room] the connection gets the room's broadcasts and
    the user is in its active set, but the handlers treat the connection
    as not joined, and closing it releases nothing. *)
Example room_zero_is_not_joined :
  client_of 0%nat world_room_zero = Some (mkClient 0 (Some "A") (Some 0) OPEN)
  /\ joined (mkClient 0 (Some "A") (Some 0) OPEN) = false
  /\ getActiveUsers 0 (storage world_room_zero) = ["A"]
  /\ new_effects world_room_zero (exec (on_close 0%nat) world_room_zero) = []
  /\ clients (exec (on_close 0%nat) world_room_zero) = [mkClient 1 None None OPEN]
  /\ getActiveUsers 0 (storage (exec (on_close 0%nat) world_room_zero)) = ["A"].
Proof. repeat split; vm_compute; reflexivity. Qed.

(** * Beyond the claims: the dispatcher and the remaining paths *)

(** ** Handlers never let an exception escape *)

Lemma never_throws_ret {A} (a : A) : never_throws (ret a).
Proof. intros w. now exists a. Qed.

Lemma never_throws_bind {A B} (m : M A) (k : A -> M B) :
  never_throws m -> (forall a, never_throws (k a)) -> never_throws (bind m k).
Proof.
  intros Hm Hk w. unfold bind. destruct (Hm w) as [a Ha].
  destruct (m w) as [[a'|e] w1]; simpl in Ha; [|discriminate]. apply Hk.
Qed.

Lemma never_throws_try {A} (m : M A) h :
  (forall e, never_throws (h e)) -> never_throws (try_catch m h).
Proof.
  intros Hh w. unfold try_catch. destruct (m w) as [[a|e] w1]; [now exists a|apply Hh].
Qed.

Lemma never_throws_emit l : never_throws (emit l).
Proof. intros w. now exists tt. Qed.

Lemma never_throws_get_ws c : never_throws (get_ws c).
Proof. intros w. now eexists. Qed.

Lemma never_throws_get_storage : never_throws get_storage.
Proof. intros w. now eexists. Qed.

Lemma never_throws_set_storage s : never_throws (set_storage s).
Proof. intros w. now exists tt. Qed.

Lemma never_throws_update_ws c f : never_throws (update_ws c f).
Proof. intros w. now exists tt. Qed.

Lemma never_throws_settle {A} (m : M A) : never_throws (settle m).
Proof. intros w. unfold settle. destruct (m w) as [r w1]. now exists r. Qed.

Lemma never_throws_broadcastToRoom r ev : never_throws (broadcastToRoom r ev).
Proof. intros w. now exists tt. Qed.

Lemma never_throws_ws_send c ev : never_throws (ws_send c ev).
Proof.
  unfold ws_send. apply never_throws_bind; [apply never_throws_get_ws|].
  intros ws. destruct (is_open ws); [apply never_throws_emit|apply never_throws_ret].
Qed.

Lemma never_throws_sendErrorToClient c msg : never_throws (sendErrorToClient c msg).
Proof.
  unfold sendErrorToClient. apply never_throws_bind; [apply never_throws_get_ws|].
  intros ws. destruct (is_open ws); [apply never_throws_ws_send|apply never_throws_ret].
Qed.

Lemma never_throws_broadcastActiveUsers r : never_throws (broadcastActiveUsers r).
Proof. intros w. now exists tt. Qed.

Create HintDb never_throws.

#[local] Hint Resolve never_throws_ret never_throws_emit never_throws_get_ws
  never_throws_get_storage never_throws_set_storage never_throws_update_ws
  never_throws_settle never_throws_broadcastToRoom never_throws_ws_send
  never_throws_sendErrorToClient never_throws_broadcastActiveUsers : never_throws.

Ltac never_throws_step :=
  match goal with
  | |- never_throws (try_catch _ _) => apply never_throws_try; intros ?
  | |- never_throws (bind _ _) => apply never_throws_bind; [|intros ?]
  | |- never_throws (match ?x with _ => _ end) => destruct x
  | |- never_throws _ => solve [auto with never_throws]
  end.

(** Each handler catches what its collaborators throw. *)
Lemma handlers_never_throw env c (m : WSMessage) :
  never_throws
    (match m with
     | join_room u r => handleJoinRoom env c u r
     | leave_room => handleLeaveRoom c
     | send_message text personaId => handleSendMessage env c text personaId
     | send_attachment url fileName fileSize fileType attachmentType =>
         handleSendAttachment env c url fileName fileSize fileType attachmentType
     | send_voice_message url fileName fileSize fileType =>
         handleSendVoiceMessage env c url fileName fileSize fileType
     | ping => ws_send c pong
     | unknown_type _ => ret tt
     end).
Proof.
  destruct m; unfold handleJoinRoom, sendRoomHistory_issue, sendRoomHistory_resume,
    handleLeaveRoom, handleSendMessage, handleSendAttachment, handleSendVoiceMessage;
    repeat never_throws_step.
Qed.

Lemma try_catch_never_throws {A} (m : M A) h w :
  never_throws m -> try_catch m h w = m w.
Proof.
  intros Hm. unfold try_catch. destruct (Hm w) as [a Ha].
  destruct (m w) as [[a'|e] w1]; simpl in Ha; [reflexivity|discriminate].
Qed.

(** For an envelope with a payload of the declared shape the handlers
    let nothing escape to the dispatcher's own [catch]. *)
Lemma on_message_decoded env c (m : WSMessage) w :
  on_message env c (Some m) w =
    (match m with
     | join_room u r => handleJoinRoom env c u r
     | leave_room => handleLeaveRoom c
     | send_message text personaId => handleSendMessage env c text personaId
     | send_attachment url fileName fileSize fileType attachmentType =>
         handleSendAttachment env c url fileName fileSize fileType attachmentType
     | send_voice_message url fileName fileSize fileType =>
         handleSendVoiceMessage env c url fileName fileSize fileType
     | ping => ws_send c pong
     | unknown_type _ => ret tt
     end) w.
Proof.
  unfold on_message. apply try_catch_never_throws. apply handlers_never_throw.
Qed.

(** ** What a computation writes *)

Section Emits.

Variable J : list WebSocketClient -> Prop.
Variable P : Effect -> Prop.

Lemma emits_silent {A} (m : M A) :
  (forall w, clients (snd (m w)) = clients w /\ trace (snd (m w)) = trace w) ->
  emits J P m.
Proof.
  intros H w HJ. destruct (H w) as [Hc Ht]. rewrite Hc, Ht. split; [exact HJ|].
  exists []. now rewrite app_nil_r.
Qed.

Lemma emits_ret {A} (a : A) : emits J P (ret a).
Proof. now apply emits_silent. Qed.

Lemma emits_throw {A} e : emits J P (@throw A e).
Proof. now apply emits_silent. Qed.

Lemma emits_get_ws c : emits J P (get_ws c).
Proof. now apply emits_silent. Qed.

Lemma emits_get_storage : emits J P get_storage.
Proof. now apply emits_silent. Qed.

Lemma emits_set_storage s : emits J P (set_storage s).
Proof. now apply emits_silent. Qed.

Lemma emits_settled {A} (r : result A) : emits J P (settled r).
Proof. now apply emits_silent. Qed.

Lemma emits_await env {A} (f : Storage -> option (A * Storage)) :
  emits J P (await env f).
Proof.
  apply emits_silent. intros w. unfold await.
  destruct (fails env (tick w)); [now split|].
  now destruct (f (storage w)) as [[a s']|].
Qed.

Lemma emits_update_ws c f :
  (forall cl, J cl ->
     J (List.map (fun x => if Nat.eqb (cid x) c then f x else x) cl)) ->
  emits J P (update_ws c f).
Proof.
  intros H w HJ. simpl. split; [now apply H|]. exists []. now rewrite app_nil_r.
Qed.

Lemma emits_emit l : Forall P l -> emits J P (emit l).
Proof. intros H w HJ. simpl. split; [exact HJ|]. now exists l. Qed.

Lemma emits_bind {A B} (m : M A) (k : A -> M B) :
  emits J P m -> (forall a, emits J P (k a)) -> emits J P (bind m k).
Proof.
  intros Hm Hk w HJ. unfold bind. destruct (Hm w HJ) as (HJ1 & l1 & Ht1 & Hl1).
  destruct (m w) as [[a|e] w1]; simpl in *.
  - destruct (Hk a w1 HJ1) as (HJ2 & l2 & Ht2 & Hl2). split; [exact HJ2|].
    exists (l1 ++ l2). rewrite Ht2, Ht1, <- app_assoc. split; [reflexivity|].
    now apply Forall_app.
  - split; [exact HJ1|]. now exists l1.
Qed.

Lemma emits_try {A} (m : M A) h :
  emits J P m -> (forall e, emits J P (h e)) -> emits J P (try_catch m h).
Proof.
  intros Hm Hh w HJ. unfold try_catch. destruct (Hm w HJ) as (HJ1 & l1 & Ht1 & Hl1).
  destruct (m w) as [[a|e] w1]; simpl in *.
  - split; [exact HJ1|]. now exists l1.
  - destruct (Hh e w1 HJ1) as (HJ2 & l2 & Ht2 & Hl2). split; [exact HJ2|].
    exists (l1 ++ l2). rewrite Ht2, Ht1, <- app_assoc. split; [reflexivity|].
    now apply Forall_app.
Qed.

Lemma emits_settle {A} (m : M A) : emits J P m -> emits J P (settle m).
Proof.
  intros Hm w HJ. unfold settle. specialize (Hm w HJ). now destruct (m w).
Qed.

Lemma emits_createMessage env i :
  (forall m, P (CreatedMessage m)) -> emits J P (storage_createMessage env i).
Proof.
  intros H. unfold storage_createMessage. apply emits_bind; [apply emits_await|].
  intros m. apply emits_bind; [|intros _; apply emits_ret].
  apply emits_emit. constructor; [apply H|constructor].
Qed.

Lemma emits_createAttachment env i :
  (forall a, P (CreatedAttachment a)) -> emits J P (storage_createAttachment env i).
Proof.
  intros H. unfold storage_createAttachment. apply emits_bind; [apply emits_await|].
  intros m. apply emits_bind; [|intros _; apply emits_ret].
  apply emits_emit. constructor; [apply H|constructor].
Qed.

Lemma emits_generate env persona ctx :
  P (Generate persona ctx) -> emits J P (generateAIResponse env persona ctx).
Proof.
  intros H. unfold generateAIResponse. apply emits_bind.
  - apply emits_emit. constructor; [exact H|constructor].
  - intros _. apply emits_silent. intros w. now destruct (fails env (tick w)).
Qed.

Lemma emits_broadcastToRoom r ev :
  (forall cl, J cl -> Forall P (broadcast r ev cl)) ->
  emits J P (broadcastToRoom r ev).
Proof.
  intros H w HJ. simpl. split; [exact HJ|]. eexists. split; [reflexivity|]. now apply H.
Qed.

Lemma emits_broadcastActiveUsers r :
  (forall cl users, J cl -> Forall P (broadcast r (active_users r users) cl)) ->
  emits J P (broadcastActiveUsers r).
Proof.
  intros H w HJ. simpl. split; [exact HJ|]. eexists. split; [reflexivity|]. now apply H.
Qed.

Lemma emits_ws_send c ev :
  (forall cl, J cl -> is_open (lookup_ws c cl) = true -> P (Send c ev)) ->
  emits J P (ws_send c ev).
Proof.
  intros H w HJ. unfold ws_send, bind, get_ws.
  destruct (is_open (lookup_ws c (clients w))) eqn:Ho; simpl.
  - split; [exact HJ|]. eexists. split; [reflexivity|].
    constructor; [now apply (H (clients w))|constructor].
  - split; [exact HJ|]. exists []. now rewrite app_nil_r.
Qed.

Lemma emits_sendErrorToClient c msg :
  (forall cl, J cl -> is_open (lookup_ws c cl) = true -> P (Send c (error msg))) ->
  emits J P (sendErrorToClient c msg).
Proof.
  intros H. unfold sendErrorToClient. apply emits_bind; [apply emits_get_ws|].
  intros ws. destruct (is_open ws); [now apply emits_ws_send|apply emits_ret].
Qed.

End Emits.

(** One step of a proof that a handler body [emits]; [side] closes the
    conditions on what is written. *)
Ltac emits_step side :=
  match goal with
  | |- emits _ _ (try_catch _ _) => apply emits_try; [|intros ?]
  | |- emits _ _ (bind _ _) => apply emits_bind; [|intros ?]
  | |- emits _ _ (settle _) => apply emits_settle
  | |- emits _ _ (match ?x with _ => _ end) => destruct x
  | |- emits _ _ (ret _) => apply emits_ret
  | |- emits _ _ (throw _) => apply emits_throw
  | |- emits _ _ (get_ws _) => apply emits_get_ws
  | |- emits _ _ get_storage => apply emits_get_storage
  | |- emits _ _ (set_storage _) => apply emits_set_storage
  | |- emits _ _ (settled _) => apply emits_settled
  | |- emits _ _ (storage_getUser _ _) => apply emits_await
  | |- emits _ _ (storage_getPersona _ _) => apply emits_await
  | |- emits _ _ (storage_getMessagesByRoom _ _ _) => apply emits_await
  | |- emits _ _ (storage_createMessage _ _) => apply emits_createMessage; side
  | |- emits _ _ (storage_createAttachment _ _) => apply emits_createAttachment; side
  | |- emits _ _ (generateAIResponse _ _ _) => apply emits_generate; side
  | |- emits _ _ (broadcastToRoom _ _) => apply emits_broadcastToRoom; side
  | |- emits _ _ (broadcastActiveUsers _) => apply emits_broadcastActiveUsers; side
  | |- emits _ _ (ws_send _ _) => apply emits_ws_send; side
  | |- emits _ _ (sendErrorToClient _ _) => apply emits_sendErrorToClient; side
  | |- emits _ _ (update_ws _ _) => apply emits_update_ws; side
  end.

Lemma emits_new_effects J P {A} (m : M A) w :
  emits J P m -> J (clients w) -> Forall P (new_effects w (snd (m w))).
Proof.
  intros Hm HJ. destruct (Hm w HJ) as (_ & l & Ht & Hl).
  now rewrite (new_effects_app w _ l Ht).
Qed.

Lemma Forall_broadcast_in (P : Effect -> Prop) r ev cl :
  (forall to, In to (recipients r cl) -> P (Send to ev)) ->
  Forall P (broadcast r ev cl).
Proof.
  intros H. unfold broadcast. apply List.Forall_forall.
  intros e (to & <- & Hin)%in_map_iff. now apply H.
Qed.

Ltac side_any :=
  first [ intros; apply Forall_broadcast; intros; exact I
        | intros; exact I
        | intros; simpl; tauto
        | intros; simpl; reflexivity ].

(** X1. Each handler answers for its own failures.  For an envelope whose
    payload has the declared shape, whatever the awaited storage calls
    and the text generator do, every [error] frame written carries one
    of the messages of the envelope's own handler: the refusal of a
    connection that has not joined, "Invalid attachment type", "Persona
    not found", the message of the handler's own [catch], or, for
    [join_room], "Failed to load room history".  The dispatcher's
    catch-all "Failed to process your request" is not among them, and
    [leave_room], [ping] and unknown types, which await nothing, write no
    [error] frame at all. *)
Theorem handlers_send_own_errors env c (m : WSMessage) w :
  Forall (error_among (own_errors m)) (new_effects w (exec (on_message env c (Some m)) w))
  /\ ~ In "Failed to process your request" (own_errors m).
Proof.
  split.
  - unfold exec. rewrite on_message_decoded.
    apply (emits_new_effects (fun _ => True) (error_among (own_errors m))); [|exact I].
    destruct m; unfold handleJoinRoom, sendRoomHistory_issue, sendRoomHistory_resume,
      handleLeaveRoom, handleSendMessage, generate_reply, fallback_reply,
      handleSendAttachment, handleSendVoiceMessage;
      repeat emits_step side_any.
  - destruct m; simpl; intuition discriminate.
Qed.

(** X2. A frame that is not valid JSON gets exactly one reply, the
    catch-all [error] frame, written to the offending connection only;
    registry, store and call counter are untouched. *)
Theorem malformed_envelope_reply env w c ws :
  client_of c w = Some ws ->
  is_open ws = true ->
  on_message env c None w =
    (Ok tt, mkWorld (clients w) (storage w) (tick w)
              (trace w ++ [Send c (error "Failed to process your request")])).
Proof.
  intros Hc Ho. unfold on_message, try_catch, throw.
  now rewrite (sendErrorToClient_open c w ws).
Qed.

Lemma malformed_envelope_reply_witness :
  client_of 1%nat (world_AB env_ok) = Some (mkClient 1 (Some "B") (Some 7) OPEN) /\
  on_message env_ok 1%nat None (world_AB env_ok) =
    (Ok tt, mkWorld (clients (world_AB env_ok)) (storage (world_AB env_ok))
              (tick (world_AB env_ok))
              (trace (world_AB env_ok) ++ [Send 1%nat (error "Failed to process your request")])).
Proof.
  split; [reflexivity|].
  apply (malformed_envelope_reply env_ok (world_AB env_ok) 1%nat
           (mkClient 1 (Some "B") (Some 7) OPEN)); reflexivity.
Defined.

(** X3. Every [error] frame an inbound frame causes, decoded or not, is
    addressed to the connection it arrived on: no other connection is
    ever sent an [error]. *)
Theorem errors_go_to_sender_only env c data w :
  Forall (error_only_to c) (new_effects w (exec (on_message env c data) w)).
Proof.
  unfold exec.
  apply (emits_new_effects (fun _ => True) (error_only_to c)); [|exact I].
  unfold on_message. apply emits_try; [|intros ?; repeat emits_step side_any].
  destruct data as [m|]; [|apply emits_throw].
  destruct m; unfold handleJoinRoom, sendRoomHistory_issue, sendRoomHistory_resume,
    handleLeaveRoom, handleSendMessage, generate_reply, fallback_reply,
    handleSendAttachment, handleSendVoiceMessage;
    repeat emits_step side_any.
Qed.

(** ** Frames stay in the room *)

Lemma recipients_after_join r c u r' l to :
  In to (recipients r (List.map (fun x => if Nat.eqb (cid x) c
                                           then set_room (Some u) (Some r') x else x) l)) ->
  to = c \/ In to (recipients r l).
Proof.
  unfold recipients. induction l as [|x l IH]; simpl; [tauto|].
  destruct (Nat.eqb (cid x) c) eqn:Hx.
  - apply Nat.eqb_eq in Hx.
    destruct (in_room r (set_room (Some u) (Some r') x) && is_open (set_room (Some u) (Some r') x));
      simpl.
    + intros [<-|Hin]; [now left|].
      destruct (IH Hin) as [->|Hin']; [now left|].
      right. destruct (in_room r x && is_open x); simpl; tauto.
    + intros Hin. destruct (IH Hin) as [->|Hin']; [now left|].
      right. destruct (in_room r x && is_open x); simpl; tauto.
  - destruct (in_room r x && is_open x); simpl.
    + intros [<-|Hin]; [right; now left|].
      destruct (IH Hin) as [->|Hin']; [now left|right; now right].
    + exact IH.
Qed.

Lemma new_effects_same w : new_effects w w = [].
Proof. unfold new_effects. apply drop_all. Qed.

Ltac side_room :=
  first [ intros ? ->; apply Forall_broadcast_in; intros; simpl; auto
        | intros ? ? ->; apply Forall_broadcast_in; intros; simpl; auto
        | intros; simpl; auto ].

(** [leave_room] on a joined connection. *)
Lemma leave_room_run_joined env w c ws u r :
  client_of c w = Some ws ->
  userId ws = Some u -> roomId ws = Some r ->
  truthy_string u = true -> truthy_num r = true ->
  let s' := removeActiveUser r u (storage w) in
  on_message env c (Some leave_room) w =
    (Ok tt,
     mkWorld (List.map (fun x => if Nat.eqb (cid x) c then set_room None None x else x)
                (clients w))
       s' (tick w)
       (trace w ++ broadcast r (user_left u r) (clients w)
                ++ broadcast r (active_users r (getActiveUsers r s')) (clients w))).
Proof.
  intros Hc Hu Hr Htu Htr s'. rewrite on_message_decoded.
  pose proof (handleLeaveRoom_joined c ws u r (clients w) (storage w) (tick w) (trace w)
                (lookup_ws_client c w ws Hc) Hu Hr Htu Htr) as Hrun.
  cbv zeta in Hrun. now rewrite <- world_eta in Hrun.
Qed.

(** What every handler writes stays within what [broadcastToRoom]
    selects, or with the sender. *)
Lemma frames_within_recipients env w c ws (m : WSMessage) :
  client_of c w = Some ws ->
  Forall (within_recipients c (room_of_envelope ws m) (clients w))
    (new_effects w (exec (on_message env c (Some m)) w)).
Proof.
  intros Hc.
  assert (Hguard : forall (k : UserID -> RoomID -> M unit) (msg : string),
            (forall u r, roomId ws = Some r ->
                         emits (fun cl => cl = clients w)
                           (within_recipients c (Some r) (clients w)) (k u r)) ->
            Forall (within_recipients c (roomId ws) (clients w))
              (new_effects w
                 (snd ((let* ws0 := get_ws c in
                        match userId ws0, roomId ws0 with
                        | Some u, Some r =>
                            if truthy_string u && truthy_num r then k u r
                            else sendErrorToClient c msg
                        | _, _ => sendErrorToClient c msg
                        end) w)))).
  { intros k msg Hk. unfold bind at 1, get_ws at 1. rewrite (lookup_ws_client _ _ _ Hc).
    destruct (joined_cases ws) as [(u & r & Hu & Hr & Htu & Htr)|Hj].
    - rewrite (guard_accepts _ _ ws u r) by assumption. rewrite Hr.
      apply (emits_new_effects (fun cl => cl = clients w)); [now apply Hk|reflexivity].
    - rewrite guard_rejects by assumption.
      apply (emits_new_effects (fun cl => cl = clients w)); [|reflexivity].
      emits_step side_room. }
  destruct m as [u r| |text personaId|url fileName fileSize fileType aty
                |url fileName fileSize fileType| |ty].
  - unfold exec. rewrite (join_room_run env w c ws u r Hc). cbv zeta. simpl snd.
    erewrite new_effects_app by reflexivity. simpl room_of_envelope.
    apply Forall_app. split; [|apply Forall_app; split].
    + apply Forall_broadcast_in. intros to Hin. simpl.
      now apply recipients_after_join in Hin.
    + apply Forall_broadcast_in. intros to Hin. simpl.
      now apply recipients_after_join in Hin.
    + destruct (is_open ws); [|constructor].
      constructor; [|constructor]. destruct (fails env (tick w)); simpl; auto.
  - destruct (joined_cases ws) as [(u & r & Hu & Hr & Htu & Htr)|Hj].
    + unfold exec. rewrite (leave_room_run_joined env w c ws u r Hc Hu Hr Htu Htr).
      cbv zeta. simpl snd. erewrite new_effects_app by reflexivity.
      simpl room_of_envelope. rewrite Hr.
      apply Forall_app. split;
        apply Forall_broadcast_in; intros to Hin; simpl; auto.
    + rewrite leave_room_effect_not_joined by now rewrite (lookup_ws_client _ _ _ Hc).
      rewrite new_effects_same. constructor.
  - unfold exec. rewrite on_message_decoded. simpl room_of_envelope.
    unfold handleSendMessage. apply Hguard. intros u r Hr.
    unfold generate_reply, fallback_reply. repeat emits_step side_room.
  - unfold exec. rewrite on_message_decoded. simpl room_of_envelope.
    unfold handleSendAttachment. apply Hguard. intros u r Hr.
    repeat emits_step side_room.
  - unfold exec. rewrite on_message_decoded. simpl room_of_envelope.
    unfold handleSendVoiceMessage. apply Hguard. intros u r Hr.
    repeat emits_step side_room.
  - unfold exec. rewrite on_message_decoded.
    apply (emits_new_effects (fun cl => cl = clients w)); [|reflexivity].
    emits_step side_room.
  - unfold exec. rewrite on_message_decoded. simpl. rewrite new_effects_same. constructor.
Qed.


(** X4. No frame leaks into another room.  Whatever an envelope with a
    payload of the declared shape triggers on connection [c], every
    frame written goes either to [c] itself or to a live socket that is
    open and whose room is the room the envelope is about (the room
    named by a [join_room], the connection's current room otherwise);
    [error] and [pong] frames go to [c] only. *)
Theorem frames_stay_in_room env w c ws (m : WSMessage) :
  client_of c w = Some ws ->
  Forall (stays_in_room c (room_of_envelope ws m) (clients w))
    (new_effects w (exec (on_message env c (Some m)) w)).
Proof.
  intros Hc. eapply List.Forall_impl; [|exact (frames_within_recipients env w c ws m Hc)].
  intros [to ev| | |]; simpl; try exact (fun H => H).
  destruct ev; try exact (fun H => H);
    (intros [Hto|Hin]; [now left|right];
     destruct (room_of_envelope ws m) as [r|]; [now apply recipients_spec|exact Hin]).
Qed.

(** At a concrete input: with A and B in room 7 and all collaborators
    working, A's message to persona 3 reaches sockets 0 and 1 only. *)
Lemma frames_stay_in_room_witness :
  client_of 0%nat (world_AB env_ok) = Some (mkClient 0 (Some "A") (Some 7) OPEN) /\
  Forall (stays_in_room 0%nat
            (room_of_envelope (mkClient 0 (Some "A") (Some 7) OPEN)
               (send_message "hello" (Some 3)))
            (clients (world_AB env_ok)))
    (new_effects (world_AB env_ok)
       (exec (on_message env_ok 0%nat (Some (send_message "hello" (Some 3))))
          (world_AB env_ok))).
Proof.
  split; [reflexivity|].
  apply (frames_stay_in_room env_ok (world_AB env_ok) 0%nat
           (mkClient 0 (Some "A") (Some 7) OPEN)); reflexivity.
Defined.

(** ** The remaining paths of [handleSendMessage] *)

Lemma error_reply_open (ws : WebSocketClient) c msg cl :
  lookup_ws c cl = ws ->
  (if is_open (lookup_ws c cl) then [Send c (error msg)] else []) =
  (if is_open ws then [Send c (error msg)] else []).
Proof. now intros ->. Qed.

Lemma sender_room_socket c w ws r :
  client_of c w = Some ws -> roomId ws = Some r -> is_open ws = true ->
  room_socket r (clients w) c.
Proof.
  intros Hc Hr Ho. apply client_of_In in Hc as [Hin Hcid]. exists ws.
  unfold is_open in Ho. destruct (readyState ws) eqn:Hs; try discriminate Ho.
  now repeat split.
Qed.

Lemma reaches_room_cons r ev cl e l :
  reaches_room r ev cl l -> reaches_room r ev cl (e :: l).
Proof. intros H to Hto. right. now apply H. Qed.

(** A broadcast that is part of what a run wrote reaches the room. *)
Ltac reach :=
  solve [ apply broadcast_reaches
        | apply reaches_room_app_l; apply broadcast_reaches
        | apply reaches_room_app_r; reach
        | apply reaches_room_cons; reach ].

(** The run of a [send_message] that names no persona. *)
Lemma send_message_without_persona_run env w c ws u r text personaId :
  client_of c w = Some ws ->
  userId ws = Some u -> roomId ws = Some r ->
  truthy_string u = true -> truthy_num r = true ->
  truthy_onum personaId = false ->
  calls_ok env w 2 ->
  let um := new_row (human_insert r u text) (storage w) in
  let s1 := stored (human_insert r u text) (storage w) in
  on_message env c (Some (send_message text personaId)) w =
    (Ok tt,
     mkWorld (clients w) s1 (2 + tick w)
       (trace w ++ [CreatedMessage um]
                ++ broadcast r (new_message (mkChatMessage um (getUser u s1) None []))
                     (clients w))).
Proof.
  intros Hc Hu Hr Htu Htr Hp Hok um s1.
  pose proof (calls_ok_at _ _ _ 0 Hok ltac:(lia)) as H0.
  pose proof (calls_ok_at _ _ _ 1 Hok ltac:(lia)) as H1.
  simpl in H0, H1.
  rewrite on_message_decoded.
  rewrite (handleSendMessage_human env c ws u r text personaId w) by assumption.
  unfold try_catch.
  destruct personaId as [p|]; simpl in Hp; [rewrite Hp|]; reflexivity.
Qed.
(** X5. A [send_message] without a persona, or with [personaId] 0, which
    the guard [if (personaId)] takes for absent, stores the human message
    and broadcasts it to the room, where every open socket, the sender's
    included, is sent it; no typing indicator is sent and the generation
    capability is not called. *)
Theorem send_message_without_persona env w c ws u r text personaId :
  client_of c w = Some ws ->
  userId ws = Some u -> roomId ws = Some r ->
  truthy_string u = true -> truthy_num r = true ->
  truthy_onum personaId = false ->
  calls_ok env w 2 ->
  let um := new_row (human_insert r u text) (storage w) in
  let s1 := stored (human_insert r u text) (storage w) in
  let human := new_message (mkChatMessage um (getUser u s1) None []) in
  let w' := exec (on_message env c (Some (send_message text personaId))) w in
  on_message env c (Some (send_message text personaId)) w =
    (Ok tt,
     mkWorld (clients w) s1 (2 + tick w)
       (trace w ++ [CreatedMessage um] ++ broadcast r human (clients w)))
  /\ reaches_room r human (clients w) (new_effects w w')
  /\ (is_open ws = true -> In (Send c human) (new_effects w w')).
Proof.
  intros Hc Hu Hr Htu Htr Hp Hok um s1 human w'.
  pose proof (send_message_without_persona_run env w c ws u r text personaId
                Hc Hu Hr Htu Htr Hp Hok) as Hrun.
  cbv zeta in Hrun. fold um s1 human in Hrun.
  split; [exact Hrun|].
  assert (Hreach : reaches_room r human (clients w) (new_effects w w')).
  { subst w'. unfold exec. rewrite Hrun. simpl snd.
    erewrite new_effects_app by reflexivity. reach. }
  split; [exact Hreach|]. intros Ho. apply Hreach.
  now apply (sender_room_socket c w ws).
Qed.


Lemma send_message_without_persona_witness :
  let w := world_AB env_ok in
  let um := new_row (human_insert 7 "A" "hello") (storage w) in
  let s1 := stored (human_insert 7 "A" "hello") (storage w) in
  let human := new_message (mkChatMessage um (getUser "A" s1) None []) in
  let w' := exec (on_message env_ok 0%nat (Some (send_message "hello" (Some 0)))) w in
  truthy_onum (Some 0) = false /\ calls_ok env_ok w 2 /\
  on_message env_ok 0%nat (Some (send_message "hello" (Some 0))) w =
    (Ok tt,
     mkWorld (clients w) s1 (2 + tick w)
       (trace w ++ [CreatedMessage um] ++ broadcast 7 human (clients w)))
  /\ reaches_room 7 human (clients w) (new_effects w w')
  /\ (is_open (mkClient 0 (Some "A") (Some 7) OPEN) = true ->
      In (Send 0%nat human) (new_effects w w')).
Proof.
  assert (Hok : calls_ok env_ok (world_AB env_ok) 2) by solve_calls_ok.
  split; [reflexivity|]. split; [exact Hok|].
  apply (send_message_without_persona env_ok (world_AB env_ok) 0%nat
           (mkClient 0 (Some "A") (Some 7) OPEN) "A" 7 "hello" (Some 0));
    solve [reflexivity | exact Hok].
Defined.

(** X6. When storing the human message fails, the sender gets one [error]
    frame "Failed to process your message"; nothing is stored, nothing is
    broadcast, and no persona reply is attempted even if a persona was
    named. *)
Theorem send_message_store_failure env w c ws u r text personaId :
  client_of c w = Some ws ->
  userId ws = Some u -> roomId ws = Some r ->
  truthy_string u = true -> truthy_num r = true ->
  fails env (tick w) = true ->
  on_message env c (Some (send_message text personaId)) w =
    (Ok tt,
     mkWorld (clients w) (storage w) (1 + tick w)
       (trace w ++ if is_open ws
                   then [Send c (error "Failed to process your message")] else [])).
Proof.
  intros Hc Hu Hr Htu Htr H0. rewrite on_message_decoded. unfold handleSendMessage.
  unfold bind at 1, get_ws at 1. rewrite (lookup_ws_client _ _ _ Hc).
  rewrite (guard_accepts _ _ ws u r) by assumption.
  rewrite (world_eta w) at 1.
  rewrite (try_throw _ _ _ StorageError (mkWorld (clients w) (storage w) (S (tick w)) (trace w))).
  - rewrite sendErrorToClient_run. now rewrite (lookup_ws_client _ _ _ Hc).
  - now rewrite (bind_throw _ _ _ _ _ (createMessage_fail _ _ _ _ _ _ H0)).
Qed.

Lemma send_message_store_failure_witness :
  let env := env_fail_at 2 in
  let w := world_AB env in
  fails env (tick w) = true /\
  on_message env 0%nat (Some (send_message "hello" (Some 3))) w =
    (Ok tt,
     mkWorld (clients w) (storage w) (1 + tick w)
       (trace w ++ [Send 0%nat (error "Failed to process your message")])).
Proof.
  split; [reflexivity|].
  apply (send_message_store_failure (env_fail_at 2) (world_AB (env_fail_at 2)) 0%nat
           (mkClient 0 (Some "A") (Some 7) OPEN) "A" 7 "hello" (Some 3)); reflexivity.
Defined.

(** X7. When the message is stored but reading its author fails, the
    message stays in the store and is never broadcast: the sender gets
    one [error] frame, the other members of the room get nothing, and no
    persona reply is attempted. *)
Theorem send_message_stored_but_not_broadcast env w c ws u r text personaId :
  client_of c w = Some ws ->
  userId ws = Some u -> roomId ws = Some r ->
  truthy_string u = true -> truthy_num r = true ->
  fails env (tick w) = false ->
  fails env (1 + tick w) = true ->
  let um := new_row (human_insert r u text) (storage w) in
  let s1 := stored (human_insert r u text) (storage w) in
  on_message env c (Some (send_message text personaId)) w =
    (Ok tt,
     mkWorld (clients w) s1 (2 + tick w)
       (trace w ++ [CreatedMessage um]
                ++ if is_open ws
                   then [Send c (error "Failed to process your message")] else [])).
Proof.
  intros Hc Hu Hr Htu Htr H0 H1 um s1. simpl in H1.
  rewrite on_message_decoded. unfold handleSendMessage.
  unfold bind at 1, get_ws at 1. rewrite (lookup_ws_client _ _ _ Hc).
  rewrite (guard_accepts _ _ ws u r) by assumption.
  rewrite (world_eta w) at 1.
  rewrite (try_throw _ _ _ StorageError
             (mkWorld (clients w) s1 (S (S (tick w))) (trace w ++ [CreatedMessage um]))).
  - rewrite sendErrorToClient_run. rewrite (lookup_ws_client _ _ _ Hc).
    now rewrite <- app_assoc.
  - rewrite (bind_ok _ _ _ _ _ (createMessage_ok _ _ _ _ _ _ H0)).
    now rewrite (bind_throw _ _ _ _ _ (getUser_fail _ _ _ _ _ _ H1)).
Qed.

Lemma send_message_stored_but_not_broadcast_witness :
  let env := env_fail_at 3 in
  let w := world_AB env in
  let um := new_row (human_insert 7 "A" "hello") (storage w) in
  let s1 := stored (human_insert 7 "A" "hello") (storage w) in
  fails env (tick w) = false /\ fails env (1 + tick w) = true /\
  on_message env 0%nat (Some (send_message "hello" None)) w =
    (Ok tt,
     mkWorld (clients w) s1 (2 + tick w)
       (trace w ++ [CreatedMessage um]
                ++ [Send 0%nat (error "Failed to process your message")])).
Proof.
  split; [reflexivity|]. split; [reflexivity|].
  apply (send_message_stored_but_not_broadcast (env_fail_at 3) (world_AB (env_fail_at 3))
           0%nat (mkClient 0 (Some "A") (Some 7) OPEN) "A" 7 "hello" None); reflexivity.
Defined.

(** The run of a [send_message] that names a persona that does not exist. *)
Lemma send_message_persona_not_found_run env w c ws u r text p :
  client_of c w = Some ws ->
  userId ws = Some u -> roomId ws = Some r ->
  truthy_string u = true -> truthy_num r = true ->
  truthy_num p = true ->
  calls_ok env w 3 ->
  getPersona p (storage w) = None ->
  let um := new_row (human_insert r u text) (storage w) in
  let s1 := stored (human_insert r u text) (storage w) in
  on_message env c (Some (send_message text (Some p))) w =
    (Ok tt,
     mkWorld (clients w) s1 (3 + tick w)
       (trace w ++ [CreatedMessage um]
                ++ broadcast r (new_message (mkChatMessage um (getUser u s1) None []))
                     (clients w)
                ++ broadcast r (persona_typing p r) (clients w)
                ++ if is_open ws then [Send c (error "Persona not found")] else [])).
Proof.
  intros Hc Hu Hr Htu Htr Htp Hok Hp um s1.
  assert (Hok2 : calls_ok env w 2) by (intros k Hk; apply Hok; lia).
  pose proof (calls_ok_at _ _ _ 2 Hok ltac:(lia)) as H2. simpl in H2.
  rewrite (send_message_any_run env w c ws u r text p Hc Hu Hr Htu Htr Htp Hok2).
  cbv zeta. fold um s1. unfold reply_outcome. simpl plus. rewrite H2.
  assert (Hp1 : getPersona p s1 = None) by exact Hp. rewrite Hp1.
  now rewrite (lookup_ws_client _ _ _ Hc).
Qed.
(** X8. When the named persona does not exist, the human message is
    already stored and broadcast and the room has been shown the typing
    indicator, both sent to every open socket of the room; the sender
    alone is then told "Persona not found", the generation capability is
    not called and nothing more is stored. *)
Theorem send_message_persona_not_found env w c ws u r text p :
  client_of c w = Some ws ->
  userId ws = Some u -> roomId ws = Some r ->
  truthy_string u = true -> truthy_num r = true ->
  truthy_num p = true ->
  calls_ok env w 3 ->
  getPersona p (storage w) = None ->
  let um := new_row (human_insert r u text) (storage w) in
  let s1 := stored (human_insert r u text) (storage w) in
  let human := new_message (mkChatMessage um (getUser u s1) None []) in
  let w' := exec (on_message env c (Some (send_message text (Some p)))) w in
  on_message env c (Some (send_message text (Some p))) w =
    (Ok tt,
     mkWorld (clients w) s1 (3 + tick w)
       (trace w ++ [CreatedMessage um]
                ++ broadcast r human (clients w)
                ++ broadcast r (persona_typing p r) (clients w)
                ++ if is_open ws then [Send c (error "Persona not found")] else []))
  /\ reaches_room r human (clients w) (new_effects w w')
  /\ reaches_room r (persona_typing p r) (clients w) (new_effects w w')
  /\ (is_open ws = true ->
      In (Send c human) (new_effects w w')
      /\ In (Send c (persona_typing p r)) (new_effects w w')).
Proof.
  intros Hc Hu Hr Htu Htr Htp Hok Hp um s1 human w'.
  pose proof (send_message_persona_not_found_run env w c ws u r text p
                Hc Hu Hr Htu Htr Htp Hok Hp) as Hrun.
  cbv zeta in Hrun. fold um s1 human in Hrun.
  split; [exact Hrun|].
  assert (Hreach : reaches_room r human (clients w) (new_effects w w')
                   /\ reaches_room r (persona_typing p r) (clients w) (new_effects w w')).
  { subst w'. unfold exec. rewrite Hrun. simpl snd.
    erewrite new_effects_app by reflexivity. split; reach. }
  destruct Hreach as [Hh Ht].
  split; [exact Hh|]. split; [exact Ht|]. intros Ho.
  split; [apply Hh|apply Ht]; now apply (sender_room_socket c w ws).
Qed.


Lemma send_message_persona_not_found_witness :
  let w := world_AB env_ok in
  let um := new_row (human_insert 7 "A" "hello") (storage w) in
  let s1 := stored (human_insert 7 "A" "hello") (storage w) in
  let human := new_message (mkChatMessage um (getUser "A" s1) None []) in
  let w' := exec (on_message env_ok 0%nat (Some (send_message "hello" (Some 42)))) w in
  calls_ok env_ok w 3 /\ getPersona 42 (storage w) = None /\
  on_message env_ok 0%nat (Some (send_message "hello" (Some 42))) w =
    (Ok tt,
     mkWorld (clients w) s1 (3 + tick w)
       (trace w ++ [CreatedMessage um]
                ++ broadcast 7 human (clients w)
                ++ broadcast 7 (persona_typing 42 7) (clients w)
                ++ [Send 0%nat (error "Persona not found")]))
  /\ reaches_room 7 human (clients w) (new_effects w w')
  /\ reaches_room 7 (persona_typing 42 7) (clients w) (new_effects w w')
  /\ (is_open (mkClient 0 (Some "A") (Some 7) OPEN) = true ->
      In (Send 0%nat human) (new_effects w w')
      /\ In (Send 0%nat (persona_typing 42 7)) (new_effects w w')).
Proof.
  assert (Hok : calls_ok env_ok (world_AB env_ok) 3) by solve_calls_ok.
  split; [exact Hok|]. split; [reflexivity|].
  apply (send_message_persona_not_found env_ok (world_AB env_ok) 0%nat
           (mkClient 0 (Some "A") (Some 7) OPEN) "A" 7 "hello" 42);
    solve [reflexivity | exact Hok].
Defined.

(** The run of a [send_message] whose generated reply cannot be stored. *)
Lemma generated_reply_lost_on_store_failure_run env w c ws u r text p persona :
  client_of c w = Some ws ->
  userId ws = Some u -> roomId ws = Some r ->
  truthy_string u = true -> truthy_num r = true ->
  truthy_num p = true ->
  calls_ok env w 5 ->
  getPersona p (storage w) = Some persona ->
  fails env (5 + tick w) = true ->
  fails env (6 + tick w) = false ->
  fails env (7 + tick w) = false ->
  let um := new_row (human_insert r u text) (storage w) in
  let s1 := stored (human_insert r u text) (storage w) in
  let ctx := context_of um (getUser u s1) (getMessagesByRoom r (Some 5%nat) s1) in
  let fb := new_row (persona_insert r p
              "I'm having trouble accessing my knowledge. Please try again later.") s1 in
  let w' := exec (on_message env c (Some (send_message text (Some p)))) w in
  new_effects w w' =
    [CreatedMessage um]
    ++ broadcast r (new_message (mkChatMessage um (getUser u s1) None [])) (clients w)
    ++ broadcast r (persona_typing p r) (clients w)
    ++ [Generate persona ctx]
    ++ [CreatedMessage fb]
    ++ broadcast r (new_message (mkChatMessage fb None (Some persona) [])) (clients w)
  /\ messages (storage w') = fb :: um :: messages (storage w).
Proof.
  intros Hc Hu Hr Htu Htr Htp Hok Hp H5 H6 H7 um s1 ctx fb w'.
  assert (Hok4 : calls_ok env w 4) by (intros k Hk; apply Hok; lia).
  pose proof (calls_ok_at _ _ _ 4 Hok ltac:(lia)) as H4.
  simpl in H4, H5, H6, H7.
  pose proof (send_message_persona_run env w c ws u r text p persona
                Hc Hu Hr Htu Htr Htp Hok4 Hp) as Hrun.
  cbv zeta in Hrun. fold um s1 ctx in Hrun.
  unfold generation_outcome, fallback_outcome in Hrun. simpl plus in Hrun.
  rewrite H4, H5, H6, H7 in Hrun.
  assert (Hp1 : getPersona p s1 = Some persona) by exact Hp. rewrite Hp1 in Hrun.
  subst w'. unfold exec. rewrite Hrun. simpl snd. split; [|reflexivity].
  now apply new_effects_app.
Qed.
(** X9. The scripted fallback also covers a failure to store the reply:
    when the generation call succeeds but storing its text fails, and the
    two storage calls of the fallback work, the room is sent the scripted
    line, every open socket of the room and the sender's among them, and
    the generated text is neither stored nor broadcast. *)
Theorem generated_reply_lost_on_store_failure env w c ws u r text p persona :
  client_of c w = Some ws ->
  userId ws = Some u -> roomId ws = Some r ->
  truthy_string u = true -> truthy_num r = true ->
  truthy_num p = true ->
  calls_ok env w 5 ->
  getPersona p (storage w) = Some persona ->
  fails env (5 + tick w) = true ->
  fails env (6 + tick w) = false ->
  fails env (7 + tick w) = false ->
  let um := new_row (human_insert r u text) (storage w) in
  let s1 := stored (human_insert r u text) (storage w) in
  let ctx := context_of um (getUser u s1) (getMessagesByRoom r (Some 5%nat) s1) in
  let fb := new_row (persona_insert r p
              "I'm having trouble accessing my knowledge. Please try again later.") s1 in
  let human := new_message (mkChatMessage um (getUser u s1) None []) in
  let fallback := new_message (mkChatMessage fb None (Some persona) []) in
  let w' := exec (on_message env c (Some (send_message text (Some p)))) w in
  new_effects w w' =
    [CreatedMessage um]
    ++ broadcast r human (clients w)
    ++ broadcast r (persona_typing p r) (clients w)
    ++ [Generate persona ctx]
    ++ [CreatedMessage fb]
    ++ broadcast r fallback (clients w)
  /\ messages (storage w') = fb :: um :: messages (storage w)
  /\ reaches_room r human (clients w) (new_effects w w')
  /\ reaches_room r (persona_typing p r) (clients w) (new_effects w w')
  /\ reaches_room r fallback (clients w) (new_effects w w')
  /\ (is_open ws = true -> In (Send c fallback) (new_effects w w')).
Proof.
  intros Hc Hu Hr Htu Htr Htp Hok Hp H5 H6 H7 um s1 ctx fb human fallback w'.
  destruct (generated_reply_lost_on_store_failure_run env w c ws u r text p persona
              Hc Hu Hr Htu Htr Htp Hok Hp H5 H6 H7) as [Hnew Hst].
  fold um s1 ctx fb human fallback w' in Hnew, Hst.
  split; [exact Hnew|]. split; [exact Hst|].
  assert (Hf : reaches_room r fallback (clients w) (new_effects w w')).
  { rewrite Hnew. reach. }
  split; [rewrite Hnew; reach|]. split; [rewrite Hnew; reach|].
  split; [exact Hf|]. intros Ho. apply Hf. now apply (sender_room_socket c w ws).
Qed.


Lemma generated_reply_lost_on_store_failure_witness :
  let env := env_fail_at 7 in
  let w := world_AB env in
  let um := new_row (human_insert 7 "A" "hello") (storage w) in
  let s1 := stored (human_insert 7 "A" "hello") (storage w) in
  let ctx := context_of um (getUser "A" s1) (getMessagesByRoom 7 (Some 5%nat) s1) in
  let fb := new_row (persona_insert 7 3
              "I'm having trouble accessing my knowledge. Please try again later.") s1 in
  let w' := exec (on_message env 0%nat (Some (send_message "hello" (Some 3)))) w in
  let human := new_message (mkChatMessage um (getUser "A" s1) None []) in
  let fallback := new_message (mkChatMessage fb None (Some sherlock) []) in
  calls_ok env w 5 /\ fails env (5 + tick w) = true /\
  new_effects w w' =
    [CreatedMessage um]
    ++ broadcast 7 human (clients w)
    ++ broadcast 7 (persona_typing 3 7) (clients w)
    ++ [Generate sherlock ctx]
    ++ [CreatedMessage fb]
    ++ broadcast 7 fallback (clients w)
  /\ messages (storage w') = fb :: um :: messages (storage w)
  /\ reaches_room 7 human (clients w) (new_effects w w')
  /\ reaches_room 7 (persona_typing 3 7) (clients w) (new_effects w w')
  /\ reaches_room 7 fallback (clients w) (new_effects w w')
  /\ (is_open (mkClient 0 (Some "A") (Some 7) OPEN) = true ->
      In (Send 0%nat fallback) (new_effects w w')).
Proof.
  assert (Hok : calls_ok (env_fail_at 7) (world_AB (env_fail_at 7)) 5) by solve_calls_ok.
  split; [exact Hok|]. split; [reflexivity|].
  apply (generated_reply_lost_on_store_failure (env_fail_at 7) (world_AB (env_fail_at 7))
           0%nat (mkClient 0 (Some "A") (Some 7) OPEN) "A" 7 "hello" 3 sherlock);
    solve [reflexivity | exact Hok].
Defined.

Lemma generations_app l1 l2 :
  generations (l1 ++ l2) = (generations l1 + generations l2)%nat.
Proof. unfold generations. now rewrite List.filter_app, length_app. Qed.

Lemma generations_sends l :
  Forall (fun e => exists to ev, e = Send to ev) l -> generations l = 0%nat.
Proof.
  induction 1 as [|e l (to & ev & ->) _ IH]; [reflexivity|]. exact IH.
Qed.

Lemma generations_broadcast r ev cl : generations (broadcast r ev cl) = 0%nat.
Proof. apply generations_sends, broadcast_sends. Qed.

(** The run of a [send_message] whose persona cannot be read. *)
Lemma fallback_without_generation_run env w c ws u r text p :
  client_of c w = Some ws ->
  userId ws = Some u -> roomId ws = Some r ->
  truthy_string u = true -> truthy_num r = true ->
  truthy_num p = true ->
  calls_ok env w 2 ->
  fails env (2 + tick w) = true ->
  fails env (3 + tick w) = false ->
  fails env (4 + tick w) = false ->
  let um := new_row (human_insert r u text) (storage w) in
  let s1 := stored (human_insert r u text) (storage w) in
  let fb := new_row (persona_insert r p
              "I'm having trouble accessing my knowledge. Please try again later.") s1 in
  let w' := exec (on_message env c (Some (send_message text (Some p)))) w in
  new_effects w w' =
    [CreatedMessage um]
    ++ broadcast r (new_message (mkChatMessage um (getUser u s1) None [])) (clients w)
    ++ broadcast r (persona_typing p r) (clients w)
    ++ [CreatedMessage fb]
    ++ broadcast r (new_message (mkChatMessage fb None (getPersona p (storage w)) []))
         (clients w)
  /\ generations (new_effects w w') = 0%nat.
Proof.
  intros Hc Hu Hr Htu Htr Htp Hok H2 H3 H4 um s1 fb w'. simpl in H2, H3, H4.
  pose proof (send_message_any_run env w c ws u r text p Hc Hu Hr Htu Htr Htp Hok) as Hrun.
  cbv zeta in Hrun. fold um s1 in Hrun.
  unfold reply_outcome, fallback_outcome in Hrun. simpl plus in Hrun.
  rewrite H2, H3, H4 in Hrun.
  assert (Hnew : new_effects w w' =
    [CreatedMessage um]
    ++ broadcast r (new_message (mkChatMessage um (getUser u s1) None [])) (clients w)
    ++ broadcast r (persona_typing p r) (clients w)
    ++ [CreatedMessage fb]
    ++ broadcast r (new_message (mkChatMessage fb None (getPersona p (storage w)) []))
         (clients w)).
  { subst w'. unfold exec. rewrite Hrun. now apply new_effects_app. }
  split; [exact Hnew|]. rewrite Hnew.
  rewrite !generations_app, !generations_broadcast. reflexivity.
Qed.
(** X10. The scripted fallback is also what the room gets when the persona
    cannot be read at all: the generation capability is then never
    called, and the line is stored and broadcast, to every open socket of
    the room and the sender's among them, under the persona id the client
    sent, with whatever the second persona read returns. *)
Theorem fallback_without_generation env w c ws u r text p :
  client_of c w = Some ws ->
  userId ws = Some u -> roomId ws = Some r ->
  truthy_string u = true -> truthy_num r = true ->
  truthy_num p = true ->
  calls_ok env w 2 ->
  fails env (2 + tick w) = true ->
  fails env (3 + tick w) = false ->
  fails env (4 + tick w) = false ->
  let um := new_row (human_insert r u text) (storage w) in
  let s1 := stored (human_insert r u text) (storage w) in
  let fb := new_row (persona_insert r p
              "I'm having trouble accessing my knowledge. Please try again later.") s1 in
  let human := new_message (mkChatMessage um (getUser u s1) None []) in
  let fallback := new_message (mkChatMessage fb None (getPersona p (storage w)) []) in
  let w' := exec (on_message env c (Some (send_message text (Some p)))) w in
  new_effects w w' =
    [CreatedMessage um]
    ++ broadcast r human (clients w)
    ++ broadcast r (persona_typing p r) (clients w)
    ++ [CreatedMessage fb]
    ++ broadcast r fallback (clients w)
  /\ generations (new_effects w w') = 0%nat
  /\ reaches_room r human (clients w) (new_effects w w')
  /\ reaches_room r (persona_typing p r) (clients w) (new_effects w w')
  /\ reaches_room r fallback (clients w) (new_effects w w')
  /\ (is_open ws = true -> In (Send c fallback) (new_effects w w')).
Proof.
  intros Hc Hu Hr Htu Htr Htp Hok H2 H3 H4 um s1 fb human fallback w'.
  destruct (fallback_without_generation_run env w c ws u r text p
              Hc Hu Hr Htu Htr Htp Hok H2 H3 H4) as [Hnew Hgen].
  fold um s1 fb human fallback w' in Hnew, Hgen.
  split; [exact Hnew|]. split; [exact Hgen|].
  assert (Hf : reaches_room r fallback (clients w) (new_effects w w')).
  { rewrite Hnew. reach. }
  split; [rewrite Hnew; reach|]. split; [rewrite Hnew; reach|].
  split; [exact Hf|]. intros Ho. apply Hf. now apply (sender_room_socket c w ws).
Qed.


Lemma fallback_without_generation_witness :
  let env := env_fail_at 4 in
  let w := world_AB env in
  let um := new_row (human_insert 7 "A" "hello") (storage w) in
  let s1 := stored (human_insert 7 "A" "hello") (storage w) in
  let fb := new_row (persona_insert 7 42
              "I'm having trouble accessing my knowledge. Please try again later.") s1 in
  let w' := exec (on_message env 0%nat (Some (send_message "hello" (Some 42)))) w in
  let human := new_message (mkChatMessage um (getUser "A" s1) None []) in
  let fallback := new_message (mkChatMessage fb None (getPersona 42 (storage w)) []) in
  calls_ok env w 2 /\ fails env (2 + tick w) = true /\
  new_effects w w' =
    [CreatedMessage um]
    ++ broadcast 7 human (clients w)
    ++ broadcast 7 (persona_typing 42 7) (clients w)
    ++ [CreatedMessage fb]
    ++ broadcast 7 fallback (clients w)
  /\ generations (new_effects w w') = 0%nat
  /\ reaches_room 7 human (clients w) (new_effects w w')
  /\ reaches_room 7 (persona_typing 42 7) (clients w) (new_effects w w')
  /\ reaches_room 7 fallback (clients w) (new_effects w w')
  /\ (is_open (mkClient 0 (Some "A") (Some 7) OPEN) = true ->
      In (Send 0%nat fallback) (new_effects w w')).
Proof.
  assert (Hok : calls_ok (env_fail_at 4) (world_AB (env_fail_at 4)) 2) by solve_calls_ok.
  split; [exact Hok|]. split; [reflexivity|].
  apply (fallback_without_generation (env_fail_at 4) (world_AB (env_fail_at 4))
           0%nat (mkClient 0 (Some "A") (Some 7) OPEN) "A" 7 "hello" 42);
    solve [reflexivity | exact Hok].
Defined.

(** ** One pass, no retry *)

Lemma created_messages_broadcast r ev cl : created_messages (broadcast r ev cl) = [].
Proof. apply created_messages_sends, broadcast_sends. Qed.

Lemma created_attachments_broadcast r ev cl : created_attachments (broadcast r ev cl) = [].
Proof. apply created_attachments_sends, broadcast_sends. Qed.

Lemma generations_error_reply (b : bool) c msg :
  generations (if b then [Send c (error msg)] else []) = 0%nat.
Proof. now destruct b. Qed.

Lemma created_messages_error_reply (b : bool) c msg :
  created_messages (if b then [Send c (error msg)] else []) = [].
Proof. now destruct b. Qed.

Lemma created_attachments_error_reply (b : bool) c msg :
  created_attachments (if b then [Send c (error msg)] else []) = [].
Proof. now destruct b. Qed.

Lemma within_app g1 n1 g2 n2 l1 l2 :
  within g1 n1 l1 -> within g2 n2 l2 -> within (g1 + g2) (n1 + n2) (l1 ++ l2).
Proof.
  intros (Hg1 & Hn1 & Ha1) (Hg2 & Hn2 & Ha2). unfold within.
  rewrite generations_app, created_messages_app, created_attachments_app, length_app,
    Ha1, Ha2. repeat split; lia.
Qed.

Lemma within_broadcast r ev cl : within 0 0 (broadcast r ev cl).
Proof.
  unfold within.
  now rewrite generations_broadcast, created_messages_broadcast, created_attachments_broadcast.
Qed.

Lemma within_error_reply (b : bool) c msg :
  within 0 0 (if b then [Send c (error msg)] else []).
Proof. destruct b; repeat split; simpl; solve [lia | reflexivity]. Qed.

Lemma within_created m : within 0 1 [CreatedMessage m].
Proof. repeat split; simpl; solve [lia | reflexivity]. Qed.

Lemma within_generate q ctx : within 1 0 [Generate q ctx].
Proof. repeat split; simpl; solve [lia | reflexivity]. Qed.

Lemma within_weaken g n g' n' l :
  within g n l -> (g <= g')%nat -> (n <= n')%nat -> within g' n' l.
Proof. intros (Hg & Hn & Ha) ? ?. repeat split; [lia|lia|exact Ha]. Qed.

Lemma fallback_outcome_bounds env r p cl s t :
  within 0 1 (fallback_outcome env r p cl s t).2
  /\ ((fallback_outcome env r p cl s t).1.2 <= 2 + t)%nat.
Proof.
  unfold fallback_outcome.
  destruct (fails env t); simpl.
  { split; [|lia]. apply (within_weaken 0 0); [apply within_broadcast|lia|lia]. }
  destruct (fails env (S t)); simpl.
  { split; [|lia]. apply (within_weaken 0 0); [apply within_broadcast|lia|lia]. }
  split; [|lia].
  apply (within_app 0 1 0 0 [_]); [apply within_created|apply within_broadcast].
Qed.

Lemma generation_outcome_bounds env r p persona ctx cl s t :
  within 0 1 (generation_outcome env r p persona ctx cl s t).2
  /\ ((generation_outcome env r p persona ctx cl s t).1.2 <= 4 + t)%nat.
Proof.
  unfold generation_outcome.
  destruct (fails env t).
  { destruct (fallback_outcome_bounds env r p cl s (S t)) as [H1 H2]. split; [exact H1|lia]. }
  destruct (fails env (S t)).
  { destruct (fallback_outcome_bounds env r p cl s (S (S t))) as [H1 H2].
    split; [exact H1|lia]. }
  simpl. split; [|lia].
  apply (within_app 0 1 0 0 [_]); [apply within_created|apply within_broadcast].
Qed.

Lemma reply_outcome_bounds env c r p um user cl s t :
  within 1 1 (reply_outcome env c r p um user cl s t).2
  /\ ((reply_outcome env c r p um user cl s t).1.2 <= 6 + t)%nat.
Proof.
  unfold reply_outcome.
  destruct (fails env t).
  { destruct (fallback_outcome_bounds env r p cl s (S t)) as [H1 H2].
    split; [|lia]. apply (within_weaken 0 1); [exact H1|lia|lia]. }
  destruct (getPersona p s) as [persona|].
  2:{ simpl. split; [|lia]. apply (within_weaken 0 0); [apply within_error_reply|lia|lia]. }
  destruct (fails env (S t)).
  { destruct (fallback_outcome_bounds env r p cl s (S (S t))) as [H1 H2].
    split; [|lia]. apply (within_weaken 0 1); [exact H1|lia|lia]. }
  pose proof (generation_outcome_bounds env r p persona
                (context_of um user (getMessagesByRoom r (Some 5%nat) s)) cl s (S (S t)))
    as [H1 H2].
  destruct (generation_outcome _ _ _ _ _ _ _ _) as [[s' t'] l]. simpl in *.
  split; [|lia]. apply (within_app 1 0 0 1 [_]); [apply within_generate|exact H1].
Qed.

(** X11. One pass, no retry: whatever the collaborators do, one
    [send_message] makes at most one generation call, stores at most two
    messages (the human one and one persona line), stores no attachment,
    and makes at most eight collaborator calls. *)
Theorem send_message_single_pass env w c ws text personaId :
  client_of c w = Some ws ->
  let w' := exec (on_message env c (Some (send_message text personaId))) w in
  (generations (new_effects w w') <= 1)%nat
  /\ (length (created_messages (new_effects w w')) <= 2)%nat
  /\ created_attachments (new_effects w w') = []
  /\ (tick w' <= 8 + tick w)%nat.
Proof.
  intros Hc w'.
  assert (Hgoal : forall g n l t',
            trace w' = trace w ++ l -> tick w' = t' -> within g n l ->
            (g <= 1)%nat -> (n <= 2)%nat -> (t' <= 8 + tick w)%nat ->
            (generations (new_effects w w') <= 1)%nat
            /\ (length (created_messages (new_effects w w')) <= 2)%nat
            /\ created_attachments (new_effects w w') = []
            /\ (tick w' <= 8 + tick w)%nat).
  { intros g n l t' Ht Htk (Hg & Hn & Ha) ? ? ?.
    rewrite (new_effects_app w w' l Ht), Htk. repeat split; [lia|lia|exact Ha|lia]. }
  destruct (joined_cases ws) as [(u & r & Hu & Hr & Htu & Htr)|Hj].
  2:{ assert (Hrun : on_message env c (Some (send_message text personaId)) w =
                (Ok tt, mkWorld (clients w) (storage w) (tick w)
                          (trace w ++ if is_open ws
                                      then [Send c (error "You must join a room before sending messages")]
                                      else []))).
      { rewrite on_message_decoded. unfold handleSendMessage.
        unfold bind at 1, get_ws at 1. rewrite (lookup_ws_client _ _ _ Hc).
        rewrite guard_rejects by assumption. rewrite (world_eta w) at 1.
        rewrite sendErrorToClient_run. now rewrite (lookup_ws_client _ _ _ Hc). }
      eapply (Hgoal 0%nat 0%nat);
        [subst w'; unfold exec; rewrite Hrun; reflexivity
        |subst w'; unfold exec; rewrite Hrun; reflexivity
        |apply within_error_reply|lia|lia|simpl; lia]. }
  set (um := new_row (human_insert r u text) (storage w)).
  set (s1 := stored (human_insert r u text) (storage w)).
  assert (Hhead : on_message env c (Some (send_message text personaId)) w =
            try_catch
              (let* userMessage := storage_createMessage env (mkInsertMessage r (Some u) None text) in
               let* user := storage_getUser env u in
               broadcastToRoom r (new_message (mkChatMessage userMessage user None [])) >>>
               match personaId with
               | Some p =>
                   if truthy_num p then
                     try_catch (generate_reply env c r p userMessage user)
                       (fun _ => fallback_reply env r p)
                   else ret tt
               | None => ret tt
               end)
              (fun _ => sendErrorToClient c "Failed to process your message")
              (mkWorld (clients w) (storage w) (tick w) (trace w))).
  { rewrite on_message_decoded. unfold handleSendMessage.
    unfold bind at 1, get_ws at 1. rewrite (lookup_ws_client _ _ _ Hc).
    rewrite (guard_accepts _ _ ws u r) by assumption. now rewrite (world_eta w) at 1. }
  destruct (fails env (tick w)) eqn:H0.
  { assert (Hrun : on_message env c (Some (send_message text personaId)) w =
              (Ok tt, mkWorld (clients w) (storage w) (S (tick w))
                        (trace w ++ if is_open ws
                                    then [Send c (error "Failed to process your message")]
                                    else []))).
    { rewrite Hhead.
      rewrite (try_throw _ _ _ StorageError
                 (mkWorld (clients w) (storage w) (S (tick w)) (trace w))).
      - rewrite sendErrorToClient_run. now rewrite (lookup_ws_client _ _ _ Hc).
      - now rewrite (bind_throw _ _ _ _ _ (createMessage_fail _ _ _ _ _ _ H0)). }
    eapply (Hgoal 0%nat 0%nat);
      [subst w'; unfold exec; rewrite Hrun; reflexivity
      |subst w'; unfold exec; rewrite Hrun; reflexivity
      |apply within_error_reply|lia|lia|simpl; lia]. }
  destruct (fails env (S (tick w))) eqn:H1.
  { assert (Hrun : on_message env c (Some (send_message text personaId)) w =
              (Ok tt, mkWorld (clients w) s1 (S (S (tick w)))
                        (trace w ++ [CreatedMessage um]
                                 ++ if is_open ws
                                    then [Send c (error "Failed to process your message")]
                                    else []))).
    { rewrite Hhead.
      rewrite (try_throw _ _ _ StorageError
                 (mkWorld (clients w) s1 (S (S (tick w))) (trace w ++ [CreatedMessage um]))).
      - rewrite sendErrorToClient_run. rewrite (lookup_ws_client _ _ _ Hc).
        now rewrite <- app_assoc.
      - rewrite (bind_ok _ _ _ _ _ (createMessage_ok _ _ _ _ _ _ H0)).
        now rewrite (bind_throw _ _ _ _ _ (getUser_fail _ _ _ _ _ _ H1)). }
    eapply (Hgoal 0%nat 1%nat);
      [subst w'; unfold exec; rewrite Hrun; reflexivity
      |subst w'; unfold exec; rewrite Hrun; reflexivity
      |apply (within_app 0 1 0 0 [_]); [apply within_created|apply within_error_reply]
      |lia|lia|simpl; lia]. }
  assert (Hok : calls_ok env w 2).
  { intros k Hk. destruct k as [|[|k]]; simpl; [assumption|assumption|lia]. }
  destruct (truthy_onum personaId) eqn:Hp.
  - destruct personaId as [p|]; [|discriminate]. simpl in Hp.
    pose proof (send_message_any_run env w c ws u r text p Hc Hu Hr Htu Htr Hp Hok) as Hrun.
    cbv zeta in Hrun. fold um s1 in Hrun.
    pose proof (reply_outcome_bounds env c r p um (getUser u s1) (clients w) s1
                  (2 + tick w)) as [Hw Ht].
    destruct (reply_outcome env c r p um (getUser u s1) (clients w) s1 (2 + tick w))
      as [[s' t'] l]. simpl in Hw, Ht.
    eapply (Hgoal 1%nat 2%nat);
      [subst w'; unfold exec; rewrite Hrun; reflexivity
      |subst w'; unfold exec; rewrite Hrun; reflexivity
      | |lia|lia|simpl; simpl in Ht; lia].
    apply (within_app 0 1 1 1 [_]); [apply within_created|].
    apply (within_app 0 0 1 1); [apply within_broadcast|].
    apply (within_app 0 0 1 1); [apply within_broadcast|exact Hw].
  - pose proof (handleSendMessage_human env c ws u r text personaId w
                  Hc Hu Hr Htu Htr H0 H1) as Hrun.
    cbv zeta in Hrun. fold um s1 in Hrun.
    assert (Hrun' : on_message env c (Some (send_message text personaId)) w =
              (Ok tt, mkWorld (clients w) s1 (S (S (tick w)))
                        (trace w ++ [CreatedMessage um]
                           ++ broadcast r (new_message (mkChatMessage um (getUser u s1) None []))
                                (clients w)))).
    { rewrite on_message_decoded, Hrun. unfold try_catch.
      destruct personaId as [p|]; simpl in Hp; [rewrite Hp|]; reflexivity. }
    eapply (Hgoal 0%nat 1%nat);
      [subst w'; unfold exec; rewrite Hrun'; reflexivity
      |subst w'; unfold exec; rewrite Hrun'; reflexivity
      |apply (within_app 0 1 0 0 [_]); [apply within_created|apply within_broadcast]
      |lia|lia|simpl; lia].
Qed.

(** At a concrete input the bound of eight calls is reached: generation
    works, storing the reply fails, the fallback is stored. *)
Lemma send_message_single_pass_witness :
  let env := env_fail_at 7 in
  let w := world_AB env in
  let w' := exec (on_message env 0%nat (Some (send_message "hello" (Some 3)))) w in
  tick w' = (8 + tick w)%nat /\
  (generations (new_effects w w') <= 1)%nat
  /\ (length (created_messages (new_effects w w')) <= 2)%nat
  /\ created_attachments (new_effects w w') = []
  /\ (tick w' <= 8 + tick w)%nat.
Proof.
  split; [vm_compute; reflexivity|].
  apply (send_message_single_pass (env_fail_at 7) (world_AB (env_fail_at 7)) 0%nat
           (mkClient 0 (Some "A") (Some 7) OPEN)); reflexivity.
Defined.

(** ** Attachments *)

Lemma includes_validTypes_true t :
  In t validTypes -> existsb (String.eqb t) validTypes = true.
Proof.
  intros Hin. apply existsb_exists. exists t. split; [assumption|apply String.eqb_refl].
Qed.

(** Every path through [handleSendAttachment] on a joined connection with
    an attachment type of the list. *)
Lemma attachment_run env w c ws u r url fileName fileSize fileType attachmentType :
  client_of c w = Some ws ->
  userId ws = Some u -> roomId ws = Some r ->
  truthy_string u = true -> truthy_num r = true ->
  In attachmentType validTypes ->
  let i := mkInsertMessage r (Some u) None (String.append "Sent " attachmentType) in
  let am := new_row i (storage w) in
  let s1 := stored i (storage w) in
  let ia := mkInsertAttachment (msg_id am) url fileName fileSize fileType attachmentType in
  let a := new_attachment ia s1 in
  let s2 := stored_attachment ia s1 in
  let err := if is_open ws then [Send c (error "Failed to process attachment")] else [] in
  on_message env c
    (Some (send_attachment url fileName fileSize fileType attachmentType)) w =
    (Ok tt,
     if fails env (tick w) then
       mkWorld (clients w) (storage w) (1 + tick w) (trace w ++ err)
     else if fails env (1 + tick w) then
       mkWorld (clients w) s1 (2 + tick w) (trace w ++ [CreatedMessage am] ++ err)
     else if fails env (2 + tick w) then
       mkWorld (clients w) s2 (3 + tick w)
         (trace w ++ [CreatedMessage am; CreatedAttachment a] ++ err)
     else
       mkWorld (clients w) s2 (3 + tick w)
         (trace w ++ [CreatedMessage am; CreatedAttachment a]
                  ++ broadcast r (new_message (mkChatMessage am (getUser u s2) None [a]))
                       (clients w))).
Proof.
  intros Hc Hu Hr Htu Htr Hty i am s1 ia a s2 err.
  rewrite on_message_decoded. unfold handleSendAttachment.
  unfold bind at 1, get_ws at 1. rewrite (lookup_ws_client _ _ _ Hc).
  rewrite (guard_accepts _ _ ws u r) by assumption.
  rewrite (includes_validTypes_true _ Hty). simpl negb. cbv iota.
  rewrite (world_eta w) at 1. unfold try_catch at 1. fold i. simpl plus.
  assert (Herr : forall cl s t tr,
            cl = clients w ->
            sendErrorToClient c "Failed to process attachment" (mkWorld cl s t tr) =
              (Ok tt, mkWorld cl s t (tr ++ err))).
  { intros cl s t tr ->. rewrite sendErrorToClient_run.
    now rewrite (lookup_ws_client _ _ _ Hc). }
  destruct (fails env (tick w)) eqn:H0.
  { rewrite (bind_throw _ _ _ _ _ (createMessage_fail _ _ _ _ _ _ H0)).
    now rewrite Herr. }
  rewrite (bind_ok _ _ _ _ _ (createMessage_ok _ _ _ _ _ _ H0)). fold am s1 ia.
  destruct (fails env (S (tick w))) eqn:H1.
  { rewrite (bind_throw _ _ _ _ _ (createAttachment_fail _ _ _ _ _ _ H1)).
    rewrite Herr by reflexivity. now rewrite <- !app_assoc. }
  rewrite (bind_ok _ _ _ _ _
             (createAttachment_ok _ _ _ _ _ _ _ _ H1
                (createAttachment_after_createMessage i url fileName fileSize
                   fileType attachmentType (storage w)))).
  fold am s1 ia a s2.
  destruct (fails env (S (S (tick w)))) eqn:H2.
  { rewrite (bind_throw _ _ _ _ _ (getUser_fail _ _ _ _ _ _ H2)).
    rewrite Herr by reflexivity. now rewrite <- !app_assoc. }
  rewrite (bind_ok _ _ _ _ _ (getUser_ok _ _ _ _ _ _ H2)).
  rewrite broadcastToRoom_run. now rewrite <- !app_assoc.
Qed.

(** The run of a [send_attachment] when storage works. *)
Lemma send_attachment_stores_and_broadcasts_run
    env w c ws u r url fileName fileSize fileType attachmentType :
  client_of c w = Some ws ->
  userId ws = Some u -> roomId ws = Some r ->
  truthy_string u = true -> truthy_num r = true ->
  In attachmentType ["image"; "audio"; "video"; "document"; "voice_message"] ->
  calls_ok env w 3 ->
  let am := mkMessage (nextMessageId (storage w)) r (Some u) None
              (String.append "Sent " attachmentType) (clock (storage w)) false in
  let a := mkAttachment (nextAttachmentId (storage w)) (msg_id am) url fileName fileSize
             fileType attachmentType in
  let w' := exec (on_message env c
                    (Some (send_attachment url fileName fileSize fileType attachmentType))) w in
  new_effects w w' =
    [CreatedMessage am; CreatedAttachment a]
    ++ broadcast r (new_message (mkChatMessage am (getUser u (storage w)) None [a]))
         (clients w)
  /\ messages (storage w') = am :: messages (storage w)
  /\ attachments (storage w') = a :: attachments (storage w).
Proof.
  intros Hc Hu Hr Htu Htr Hty Hok am a w'.
  pose proof (calls_ok_at _ _ _ 0 Hok ltac:(lia)) as H0.
  pose proof (calls_ok_at _ _ _ 1 Hok ltac:(lia)) as H1.
  pose proof (calls_ok_at _ _ _ 2 Hok ltac:(lia)) as H2.
  pose proof (attachment_run env w c ws u r url fileName fileSize fileType attachmentType
                Hc Hu Hr Htu Htr Hty) as Hrun.
  cbv zeta in Hrun. simpl plus in H0, H1, H2, Hrun. rewrite H0, H1, H2 in Hrun.
  set (i := mkInsertMessage r (Some u) None (String.append "Sent " attachmentType)) in *.
  assert (Hs2 : stored_attachment
                  (mkInsertAttachment (msg_id (new_row i (storage w))) url fileName fileSize
                     fileType attachmentType) (stored i (storage w)) =
                mkStorage (users (storage w)) (chatrooms (storage w)) (members (storage w))
                  (personas (storage w)) (am :: messages (storage w))
                  (a :: attachments (storage w))
                  (nextMessageId (storage w) + 1) (nextAttachmentId (storage w) + 1)
                  (clock (storage w) + 1) (presence (storage w))).
  { unfold stored_attachment, createAttachment, has_message. simpl.
    now rewrite Z.eqb_refl. }
  rewrite Hs2 in Hrun.
  subst w'. unfold exec. rewrite Hrun. simpl snd. split; [|split; reflexivity].
  now apply new_effects_app.
Qed.
(** X12. A [send_attachment] with one of the five attachment types, on a
    joined connection with working storage, first stores a message with
    body "Sent " followed by the type, authored by the user in the
    connection's room, then stores the attachment linked to that message
    with the fields as sent, and broadcasts the message with the
    attachment embedded to the room, where every open socket, the
    sender's included, is sent it. *)
Theorem send_attachment_stores_and_broadcasts
    env w c ws u r url fileName fileSize fileType attachmentType :
  client_of c w = Some ws ->
  userId ws = Some u -> roomId ws = Some r ->
  truthy_string u = true -> truthy_num r = true ->
  In attachmentType ["image"; "audio"; "video"; "document"; "voice_message"] ->
  calls_ok env w 3 ->
  let am := mkMessage (nextMessageId (storage w)) r (Some u) None
              (String.append "Sent " attachmentType) (clock (storage w)) false in
  let a := mkAttachment (nextAttachmentId (storage w)) (msg_id am) url fileName fileSize
             fileType attachmentType in
  let sent := new_message (mkChatMessage am (getUser u (storage w)) None [a]) in
  let w' := exec (on_message env c
                    (Some (send_attachment url fileName fileSize fileType attachmentType))) w in
  new_effects w w' =
    [CreatedMessage am; CreatedAttachment a] ++ broadcast r sent (clients w)
  /\ messages (storage w') = am :: messages (storage w)
  /\ attachments (storage w') = a :: attachments (storage w)
  /\ reaches_room r sent (clients w) (new_effects w w')
  /\ (is_open ws = true -> In (Send c sent) (new_effects w w')).
Proof.
  intros Hc Hu Hr Htu Htr Hty Hok am a sent w'.
  destruct (send_attachment_stores_and_broadcasts_run env w c ws u r url fileName fileSize
              fileType attachmentType Hc Hu Hr Htu Htr Hty Hok) as (Hnew & Hm & Ha).
  fold am a sent w' in Hnew, Hm, Ha.
  split; [exact Hnew|]. split; [exact Hm|]. split; [exact Ha|].
  assert (Hreach : reaches_room r sent (clients w) (new_effects w w')).
  { rewrite Hnew. reach. }
  split; [exact Hreach|]. intros Ho. apply Hreach. now apply (sender_room_socket c w ws).
Qed.


Lemma send_attachment_stores_and_broadcasts_witness :
  let w := world_AB env_ok in
  let am := mkMessage (nextMessageId (storage w)) 7 (Some "A") None
              (String.append "Sent " "image") (clock (storage w)) false in
  let a := mkAttachment (nextAttachmentId (storage w)) (msg_id am) "http://f/1" "cat.png" 10
             "image/png" "image" in
  let w' := exec (on_message env_ok 0%nat
                    (Some (send_attachment "http://f/1" "cat.png" 10 "image/png" "image"))) w in
  let sent := new_message (mkChatMessage am (getUser "A" (storage w)) None [a]) in
  calls_ok env_ok w 3 /\
  new_effects w w' =
    [CreatedMessage am; CreatedAttachment a] ++ broadcast 7 sent (clients w)
  /\ messages (storage w') = am :: messages (storage w)
  /\ attachments (storage w') = a :: attachments (storage w)
  /\ reaches_room 7 sent (clients w) (new_effects w w')
  /\ (is_open (mkClient 0 (Some "A") (Some 7) OPEN) = true ->
      In (Send 0%nat sent) (new_effects w w')).
Proof.
  assert (Hok : calls_ok env_ok (world_AB env_ok) 3) by solve_calls_ok.
  split; [exact Hok|].
  apply (send_attachment_stores_and_broadcasts env_ok (world_AB env_ok) 0%nat
           (mkClient 0 (Some "A") (Some 7) OPEN) "A" 7);
    solve [reflexivity | exact Hok | simpl; tauto].
Defined.

(** X13. Message and attachment are stored by two separate calls, in that
    order.  When the second one fails, for [send_attachment] as for
    [send_voice_message], the placeholder message ("Sent " and the type,
    or "Voice message") stays in the store without an attachment, nothing
    is broadcast, and the sender alone gets an [error] frame. *)
Theorem attachment_failure_leaves_placeholder
    env w c ws u r url fileName fileSize fileType attachmentType
    voiceUrl voiceName voiceSize voiceType :
  client_of c w = Some ws ->
  userId ws = Some u -> roomId ws = Some r ->
  truthy_string u = true -> truthy_num r = true ->
  In attachmentType ["image"; "audio"; "video"; "document"; "voice_message"] ->
  fails env (tick w) = false ->
  fails env (1 + tick w) = true ->
  let placeholder body :=
    mkMessage (nextMessageId (storage w)) r (Some u) None body (clock (storage w)) false in
  let wa := exec (on_message env c
                    (Some (send_attachment url fileName fileSize fileType attachmentType))) w in
  let wv := exec (on_message env c
                    (Some (send_voice_message voiceUrl voiceName voiceSize voiceType))) w in
  (new_effects w wa =
     [CreatedMessage (placeholder (String.append "Sent " attachmentType))]
     ++ (if is_open ws then [Send c (error "Failed to process attachment")] else [])
   /\ messages (storage wa) =
        placeholder (String.append "Sent " attachmentType) :: messages (storage w)
   /\ attachments (storage wa) = attachments (storage w))
  /\ (new_effects w wv =
        [CreatedMessage (placeholder "Voice message")]
        ++ (if is_open ws then [Send c (error "Failed to process voice message")] else [])
      /\ messages (storage wv) = placeholder "Voice message" :: messages (storage w)
      /\ attachments (storage wv) = attachments (storage w)).
Proof.
  intros Hc Hu Hr Htu Htr Hty H0 H1 placeholder wa wv. simpl in H1.
  pose proof (attachment_run env w c ws u r url fileName fileSize fileType attachmentType
                Hc Hu Hr Htu Htr Hty) as Hra.
  pose proof (voice_message_run env w c ws u r voiceUrl voiceName voiceSize voiceType
                Hc Hu Hr Htu Htr) as Hrv.
  cbv zeta in Hra, Hrv. simpl plus in Hra, Hrv. rewrite H0, H1 in Hra, Hrv.
  split.
  - subst wa. unfold exec. rewrite Hra. simpl snd. split; [|split; reflexivity].
    now apply new_effects_app.
  - subst wv. unfold exec. rewrite Hrv. simpl snd. split; [|split; reflexivity].
    now apply new_effects_app.
Qed.

Lemma attachment_failure_leaves_placeholder_witness :
  let env := env_fail_at 3 in
  let w := world_AB env in
  let placeholder body :=
    mkMessage (nextMessageId (storage w)) 7 (Some "A") None body (clock (storage w)) false in
  let wa := exec (on_message env 0%nat
                    (Some (send_attachment "http://f/1" "cat.png" 10 "image/png" "image"))) w in
  let wv := exec (on_message env 0%nat
                    (Some (send_voice_message "http://f/v" "v.webm" 2048 None))) w in
  fails env (tick w) = false /\ fails env (1 + tick w) = true /\
  (new_effects w wa =
     [CreatedMessage (placeholder (String.append "Sent " "image"))]
     ++ [Send 0%nat (error "Failed to process attachment")]
   /\ messages (storage wa) =
        placeholder (String.append "Sent " "image") :: messages (storage w)
   /\ attachments (storage wa) = attachments (storage w))
  /\ (new_effects w wv =
        [CreatedMessage (placeholder "Voice message")]
        ++ [Send 0%nat (error "Failed to process voice message")]
      /\ messages (storage wv) = placeholder "Voice message" :: messages (storage w)
      /\ attachments (storage wv) = attachments (storage w)).
Proof.
  split; [reflexivity|]. split; [reflexivity|].
  apply (attachment_failure_leaves_placeholder (env_fail_at 3) (world_AB (env_fail_at 3))
           0%nat (mkClient 0 (Some "A") (Some 7) OPEN) "A" 7);
    solve [reflexivity | simpl; tauto].
Defined.

(** ** Membership *)

(** X14. Only [join_room], [leave_room] and the close of the transport
    touch membership: every other envelope, malformed ones included, and
    on every path, leaves the identity, room and state of every
    connection and the presence tracker as they were. *)
Theorem messaging_keeps_membership env c data w :
  changes_membership data = false ->
  let w' := exec (on_message env c data) w in
  clients w' = clients w /\ presence (storage w') = presence (storage w).
Proof.
  intros Hm w'. subst w'. unfold exec.
  apply (steady_on_message env c data).
  - intros u r ->. discriminate Hm.
  - intros ->. discriminate Hm.
Qed.

Lemma messaging_keeps_membership_witness :
  let w := world_AB env_ok in
  let w' := exec (on_message env_ok 0%nat (Some (send_message "hi" (Some 3)))) w in
  clients w' = clients w /\ presence (storage w') = presence (storage w).
Proof.
  apply (messaging_keeps_membership env_ok 0%nat (Some (send_message "hi" (Some 3)))
           (world_AB env_ok)).
  reflexivity.
Defined.

(** X15. A [leave_room] on a joined connection broadcasts [user_left] and
    then [active_users], computed after the user's reference was
    released, to the room as it was before the leave: the fields of the
    connection are reset last, so the leaving connection, when open, gets
    both frames itself.  Afterwards the connection has neither identity
    nor room. *)
Theorem leave_room_reaches_leaver env w c ws u r :
  client_of c w = Some ws ->
  userId ws = Some u -> roomId ws = Some r ->
  truthy_string u = true -> truthy_num r = true ->
  let w' := exec (on_message env c (Some leave_room)) w in
  let after := getActiveUsers r (removeActiveUser r u (storage w)) in
  new_effects w w' =
    broadcast r (user_left u r) (clients w)
    ++ broadcast r (active_users r after) (clients w)
  /\ (is_open ws = true ->
      In (Send c (user_left u r)) (new_effects w w')
      /\ In (Send c (active_users r after)) (new_effects w w'))
  /\ client_of c w' = Some (mkClient c None None (readyState ws))
  /\ storage w' = removeActiveUser r u (storage w).
Proof.
  intros Hc Hu Hr Htu Htr w' after.
  pose proof (handleLeaveRoom_joined c ws u r (clients w) (storage w) (tick w) (trace w)
                (lookup_ws_client c w ws Hc) Hu Hr Htu Htr) as Hrun.
  cbv zeta in Hrun. rewrite <- world_eta in Hrun.
  assert (Hw' : w' = mkWorld
            (List.map (fun x => if Nat.eqb (cid x) c then set_room None None x else x)
               (clients w))
            (removeActiveUser r u (storage w)) (tick w)
            (trace w ++ broadcast r (user_left u r) (clients w)
                     ++ broadcast r (active_users r after) (clients w))).
  { subst w'. unfold exec, on_message. now rewrite (try_ok _ _ _ _ _ Hrun). }
  assert (Hnew : new_effects w w' =
                 broadcast r (user_left u r) (clients w)
                 ++ broadcast r (active_users r after) (clients w)).
  { apply new_effects_app. now rewrite Hw'. }
  split; [exact Hnew|]. split; [|split].
  - intros Ho. rewrite Hnew, !in_app_iff.
    split; [left|right]; now apply (sender_receives c w ws).
  - rewrite Hw'. unfold client_of. cbn [clients].
    rewrite (client_of_update c (set_room None None) w ws Hc (fun x => eq_refl)).
    unfold set_room. now destruct (client_of_In c w ws Hc) as [_ ->].
  - now rewrite Hw'.
Qed.

Lemma leave_room_reaches_leaver_witness :
  let w := world_AB env_ok in
  let w' := exec (on_message env_ok 0%nat (Some leave_room)) w in
  let after := getActiveUsers 7 (removeActiveUser 7 "A" (storage w)) in
  new_effects w w' =
    broadcast 7 (user_left "A" 7) (clients w)
    ++ broadcast 7 (active_users 7 after) (clients w)
  /\ (is_open (mkClient 0 (Some "A") (Some 7) OPEN) = true ->
      In (Send 0%nat (user_left "A" 7)) (new_effects w w')
      /\ In (Send 0%nat (active_users 7 after)) (new_effects w w'))
  /\ client_of 0%nat w' = Some (mkClient 0 None None OPEN)
  /\ storage w' = removeActiveUser 7 "A" (storage w).
Proof.
  apply (leave_room_reaches_leaver env_ok (world_AB env_ok) 0%nat
           (mkClient 0 (Some "A") (Some 7) OPEN) "A" 7); reflexivity.
Defined.

Lemma lookup_ws_absent c l :
  List.find (fun x => Nat.eqb (cid x) c) l = None -> joined (lookup_ws c l) = false.
Proof. intros H. unfold lookup_ws. now rewrite H. Qed.

Lemma find_update_absent c (f : WebSocketClient -> WebSocketClient) l :
  List.find (fun x => Nat.eqb (cid x) c) l = None ->
  List.find (fun x => Nat.eqb (cid x) c)
    (List.map (fun x => if Nat.eqb (cid x) c then f x else x) l) = None.
Proof.
  induction l as [|x l IH]; simpl; [reflexivity|].
  destruct (Nat.eqb (cid x) c) eqn:Hx; [discriminate|]. rewrite Hx. exact IH.
Qed.

(** X16. A repeated [leave_room] is ignored without a word: whatever the
    connection was before, after one [leave_room] a second one changes
    nothing and writes no frame, not even an [error]. *)
Theorem leave_room_idempotent env c w :
  let leave := exec (on_message env c (Some leave_room)) in
  leave (leave w) = leave w.
Proof.
  intros leave. subst leave.
  destruct (joined (lookup_ws c (clients w))) eqn:Hj.
  - destruct (client_of c w) as [ws|] eqn:Hc;
      [|now rewrite (lookup_ws_absent c (clients w) Hc) in Hj].
    rewrite (lookup_ws_client c w ws Hc) in Hj.
    destruct (joined_cases ws) as [(u & r & Hu & Hr & Htu & Htr)|Hn];
      [|now rewrite Hn in Hj].
    destruct (leave_room_effect_joined env w c ws u r Hc Hu Hr Htu Htr) as [Hcl _].
    apply leave_room_effect_not_joined. rewrite Hcl.
    now rewrite (lookup_ws_update c (set_room None None) (clients w) ws Hc
                   (fun x => eq_refl)).
  - now rewrite !(leave_room_effect_not_joined env w c Hj).
Qed.

(** X17. Closing a connection that is not joined, because it never
    joined, has left, or carries an empty user id or room id 0, removes
    the socket and nothing else: no frame is written and the store,
    presence included, is untouched. *)
Theorem close_unjoined_is_silent w c :
  joined (lookup_ws c (clients w)) = false ->
  let w' := exec (on_close c) w in
  new_effects w w' = []
  /\ storage w' = storage w
  /\ clients w' = List.filter (fun x => negb (Nat.eqb (cid x) c)) (clients w).
Proof.
  intros Hj w'.
  destruct (on_close_effect_not_joined w c Hj) as [Hcl Hs]. fold w' in Hcl, Hs.
  split; [|split; assumption].
  subst w'. unfold exec, on_close.
  pose (w1 := mkWorld (List.map (fun x => if Nat.eqb (cid x) c
                                          then set_readyState CLOSED x else x) (clients w))
                (storage w) (tick w) (trace w)).
  rewrite (bind_ok (update_ws c (set_readyState CLOSED)) _ w tt w1 eq_refl).
  assert (Hj1 : joined (lookup_ws c (clients w1)) = false).
  { subst w1. cbn [clients].
    destruct (client_of c w) as [ws|] eqn:Hc.
    - rewrite (lookup_ws_update c (set_readyState CLOSED) (clients w) ws Hc
                 (fun x => eq_refl)).
      now rewrite (lookup_ws_client c w ws Hc) in Hj.
    - apply lookup_ws_absent. now apply find_update_absent. }
  rewrite (bind_ok _ _ _ _ _ (handleLeaveRoom_not_joined c w1 Hj1)).
  subst w1. cbn [snd]. unfold new_effects. cbn [trace]. apply drop_all.
Qed.

Lemma close_unjoined_is_silent_witness :
  let w' := exec (on_close 0%nat) world0 in
  new_effects world0 w' = []
  /\ storage w' = storage world0
  /\ clients w' = List.filter (fun x => negb (Nat.eqb (cid x) 0)) (clients world0).
Proof.
  apply (close_unjoined_is_silent world0 0%nat). reflexivity.
Defined.

(** X18. The handlers test [userId && roomId], so an empty user id or a
    room id of 0 counts as not joined.  A [join_room] with such an id
    still registers the user with the presence tracker, but neither
    [leave_room] nor the close of the connection ever releases that
    reference, and a [send_message] on the connection is refused. *)
Theorem falsy_join_never_released env w c ws u r :
  client_of c w = Some ws ->
  truthy_string u && truthy_num r = false ->
  let w1 := exec (on_message env c (Some (join_room u r))) w in
  storage w1 = addActiveUser r u (storage w)
  /\ exec (on_message env c (Some leave_room)) w1 = w1
  /\ storage (exec (on_close c) w1) = storage w1
  /\ (forall text personaId,
        new_effects w1 (exec (on_message env c (Some (send_message text personaId))) w1) =
          if is_open ws then [Send c (error "You must join a room before sending messages")] else []).
Proof.
  intros Hc Hf w1.
  destruct (join_room_effect env w c ws u r Hc) as [Hcl Hs]. fold w1 in Hcl, Hs.
  assert (Hl : lookup_ws c (clients w1) = set_room (Some u) (Some r) ws).
  { rewrite Hcl. apply lookup_ws_update; [exact Hc|reflexivity]. }
  assert (Hj : joined (lookup_ws c (clients w1)) = false).
  { rewrite Hl. unfold joined. simpl. exact Hf. }
  split; [exact Hs|]. split; [now apply leave_room_effect_not_joined|].
  split; [now apply (on_close_effect_not_joined w1 c Hj)|].
  intros text personaId. unfold exec. rewrite on_message_decoded.
  unfold handleSendMessage. unfold bind at 1, get_ws at 1.
  rewrite guard_rejects by exact Hj.
  pose proof (sendErrorToClient_run c "You must join a room before sending messages" (clients w1) (storage w1)
                (tick w1) (trace w1)) as Hrun.
  rewrite <- world_eta, Hl in Hrun.
  change (is_open (set_room (Some u) (Some r) ws)) with (is_open ws) in Hrun.
  rewrite Hrun. cbn [snd]. now apply new_effects_app.
Qed.

Lemma falsy_join_never_released_witness :
  let w1 := exec (on_message env_ok 0%nat (Some (join_room "A" 0))) world0 in
  truthy_string "A" && truthy_num 0 = false
  /\ storage w1 = addActiveUser 0 "A" (storage world0)
  /\ exec (on_message env_ok 0%nat (Some leave_room)) w1 = w1
  /\ storage (exec (on_close 0%nat) w1) = storage w1
  /\ (forall text personaId,
        new_effects w1
          (exec (on_message env_ok 0%nat (Some (send_message text personaId))) w1) =
          if is_open (mkClient 0 None None OPEN)
          then [Send 0%nat (error "You must join a room before sending messages")] else []).
Proof.
  split; [reflexivity|].
  apply (falsy_join_never_released env_ok world0 0%nat (mkClient 0 None None OPEN) "A" 0);
    reflexivity.
Defined.

(** ** Presence in reachable worlds, at concrete inputs *)

(** X19 at a concrete input: a socket connects to a fresh server and joins
    room 7 as A. *)
Lemma attached_user_is_active_witness :
  let w := exec (fire env_ok (message 0%nat (Some (join_room "A" 7))))
             (exec (fire env_ok (connection 0%nat)) (mkWorld [] store0 0 [])) in
  reachable env_ok w /\ In "A" (getActiveUsers 7 (storage w)).
Proof.
  assert (Hr : reachable env_ok
                 (exec (fire env_ok (message 0%nat (Some (join_room "A" 7))))
                    (exec (fire env_ok (connection 0%nat)) (mkWorld [] store0 0 [])))).
  { apply reachable_step;
      [apply reachable_step; [apply reachable_start; reflexivity|simpl; tauto]
      |simpl; tauto]. }
  split; [exact Hr|].
  apply (attached_user_is_active env_ok _ (mkClient 0 (Some "A") (Some 7) OPEN) "A" 7 Hr);
    solve [reflexivity | simpl; tauto].
Defined.

(** X20 at a concrete input: A joins room 7 on one socket and leaves
    again; B is joined on another. *)
Lemma active_iff_attached_witness :
  let w := exec (fire env_ok (message 0%nat (Some leave_room)))
             (exec (fire env_ok (message 1%nat (Some (join_room "B" 7))))
                (exec (fire env_ok (message 0%nat (Some (join_room "A" 7))))
                   (exec (fire env_ok (connection 1%nat))
                      (exec (fire env_ok (connection 0%nat)) (mkWorld [] store0 0 []))))) in
  reachable_disciplined env_ok w
  /\ (In "A" (getActiveUsers 7 (storage w)) <->
      exists x, In x (clients w) /\ userId x = Some "A" /\ roomId x = Some 7)
  /\ (In "B" (getActiveUsers 7 (storage w)) <->
      exists x, In x (clients w) /\ userId x = Some "B" /\ roomId x = Some 7).
Proof.
  assert (Hr : reachable_disciplined env_ok
    (exec (fire env_ok (message 0%nat (Some leave_room)))
       (exec (fire env_ok (message 1%nat (Some (join_room "B" 7))))
          (exec (fire env_ok (message 0%nat (Some (join_room "A" 7))))
             (exec (fire env_ok (connection 1%nat))
                (exec (fire env_ok (connection 0%nat)) (mkWorld [] store0 0 []))))))).
  { repeat (apply disciplined_step;
              [| solve [simpl; tauto | simpl; intuition discriminate]
               | solve [exact I | reflexivity]]).
    apply disciplined_start. reflexivity. }
  split; [exact Hr|].
  split; apply (active_iff_attached env_ok _ _ 7 Hr); reflexivity.
Defined.

(** * Who may administer a chatroom (server/routes.ts) *)

Section RouteFacts.

Import Routes.

Ltac route_unfold :=
  unfold deleteChatroomRoute, postChatroomPersonaRoute, postChatroomMemberRoute,
    patchChatroomMemberRoute, deleteChatroomMemberRoute,
    h_catch, h_bind, call, h_ret, h_throw, reply.

(** X21. [DELETE /api/chatrooms/:id] calls [deleteChatroom] exactly when
    the id parses, the chatroom exists and [isChatroomOwner] resolves to
    true for the caller; it answers 204 only after that call resolved. *)
Theorem delete_chatroom_owner_only b id user :
  let out := deleteChatroomRoute b id user in
  (forall cid,
     In (call_deleteChatroom cid) (fst out) <->
     id = Some cid
     /\ (exists room, getChatroom b cid = resolved (Some room))
     /\ isChatroomOwner b cid user = resolved true)
  /\ (status (snd out) = 204 <->
      exists cid, In (call_deleteChatroom cid) (fst out)
                  /\ deleteChatroom b cid = resolved tt).
Proof.
  intros out. subst out. route_unfold.
  destruct id as [chatroomId|]; simpl.
  2:{ split; [intros cid; split; [intros []|intros [[=] _]]
             |split; [discriminate|intros (cid & [] & _)]]. }
  destruct (getChatroom b chatroomId) as [[room|]|] eqn:Hroom; simpl.
  2,3: split; [intros cid; split;
                 [intros [[=]|[]]
                 |intros ([= <-] & (room' & Hr) & _); congruence]
              |split; [discriminate|intros (cid & [[=]|[]] & _)]].
  destruct (isChatroomOwner b chatroomId user) as [[|]|] eqn:Howner; simpl.
  2,3: split; [intros cid; split;
                 [intros [[=]|[[=]|[]]]
                 |intros ([= <-] & _ & Ho); congruence]
              |split; [discriminate|intros (cid & [[=]|[[=]|[]]] & _)]].
  assert (Hcalls : forall cid,
            In (call_deleteChatroom cid)
              [call_getChatroom chatroomId; call_isChatroomOwner chatroomId user;
               call_deleteChatroom chatroomId] <-> chatroomId = cid).
  { intros cid. simpl. split; [intros [[=]|[[=]|[[= <-]|[]]]]; reflexivity|].
    intros <-. right. right. now left. }
  destruct (deleteChatroom b chatroomId) as [[]|] eqn:Hdel; simpl.
  - split.
    + intros cid. rewrite (Hcalls cid). split; [intros <-; eauto|now intros [[= <-] _]].
    + split; [|reflexivity]. intros _. exists chatroomId. now rewrite (Hcalls chatroomId).
  - split.
    + intros cid. rewrite (Hcalls cid). split; [intros <-; eauto|now intros [[= <-] _]].
    + split; [discriminate|]. intros (cid & Hin & Hd).
      apply Hcalls in Hin as <-. congruence.
Qed.

Ltac route_cases :=
  repeat match goal with
         | |- context [match ?x with resolved _ => _ | rejected => _ end] =>
             destruct x as [?|] eqn:?; simpl
         | |- context [if ?x then _ else _] => destruct x eqn:?; simpl
         | |- context [match ?x with Some _ => _ | None => _ end] =>
             destruct x eqn:?; simpl
         end.

Ltac route_facts :=
  repeat match goal with
         | H : _ /\ _ |- _ => destruct H
         | H : exists _, _ |- _ => destruct H
         | H : _ \/ _ |- _ => destruct H
         | H : False |- _ => destruct H
         | H : In _ _ |- _ => simpl in H
         | H : Some _ = Some _ |- _ => injection H as H; subst
         | H : resolved _ = resolved _ |- _ => injection H as H; subst
         | H : @eq Call _ _ |- _ => first [discriminate H | injection H as H; subst]
         | H : @eq (option _) _ _ |- _ => discriminate H
         | H : @eq (answer _) _ _ |- _ => discriminate H
         | H : @eq bool _ _ |- _ => discriminate H
         | H : negb _ = true |- _ => apply negb_true_iff in H
         | H : negb _ = false |- _ => apply negb_false_iff in H
         | H : (_ =? _)%string = true |- _ => apply String.eqb_eq in H; subst
         | H : (_ =? _)%string = false |- _ => apply String.eqb_neq in H
         | H : _ && _ = true |- _ => apply andb_true_iff in H
         | H : _ || _ = false |- _ => apply orb_false_iff in H
         | H : js_string _ = js_string _ |- _ => injection H as H; subst
         | H : @eq JsValue _ _ |- _ => discriminate H
         | H : ?x <> ?x |- _ => destruct (H eq_refl)
         | H : ?x = resolved _, H' : ?x = resolved _ |- _ =>
             rewrite H in H'; injection H' as H'; subst
         | H : ?x = resolved _, H' : ?x = rejected |- _ =>
             rewrite H in H'; discriminate H'
         | H : forall m, Some ?x = Some m -> _ |- _ => specialize (H x eq_refl)
         | H : ?a = ?b -> _, H' : ?a = ?b |- _ => specialize (H H')
         end.

Ltac route_finish :=
  try solve [ congruence | tauto | contradiction
            | simpl; auto 10
            | repeat split; eauto; intuition congruence
            | repeat split; eauto;
              first [ left; congruence
                    | right; split; [congruence|]; eexists; split; [eassumption|];
                      intros ? ? ?; congruence ] ].

(** X22. [DELETE /api/chatrooms/:id/members/:userId] calls
    [removeChatroomMember], and then for the path's chatroom and user,
    exactly when the chatroom exists and either the caller is the member
    to remove, or [isChatroomModerator] resolves to true for the caller
    and, should the member to remove have role [owner],
    [isChatroomOwner] does too. *)
Theorem remove_member_authorized b id userId user :
  forall cid uid,
    In (call_removeChatroomMember cid uid) (fst (deleteChatroomMemberRoute b id userId user))
    <->
    id = Some cid /\ uid = userId
    /\ (exists room, getChatroom b cid = resolved (Some room))
    /\ (userId = user
        \/ (isChatroomModerator b cid user = resolved true
            /\ exists found, getChatroomMember b cid userId = resolved found
                 /\ (forall member, found = Some member -> member_role member = "owner" ->
                                    isChatroomOwner b cid user = resolved true))).
Proof.
  intros cid uid. route_unfold.
  destruct id as [chatroomId|]; simpl; route_cases;
    (split; intros H; route_facts; route_finish).
Qed.

(** X23. A caller who removes themself is never checked: when the path's
    user is the caller, the handler looks up no role, whatever the
    backend answers and whatever role the caller holds; the response is
    204 exactly when the chatroom exists and the removal resolved. *)
Theorem self_removal_unchecked b id user :
  let out := deleteChatroomMemberRoute b id user user in
  Forall (fun c => is_role_lookup c = false) (fst out)
  /\ (status (snd out) = 204 <->
      exists cid room, id = Some cid
        /\ getChatroom b cid = resolved (Some room)
        /\ removeChatroomMember b cid user = resolved tt).
Proof.
  intros out. subst out. route_unfold. rewrite String.eqb_refl.
  destruct id as [chatroomId|]; simpl; route_cases;
    (split; [repeat constructor|]);
    (split; intros H; route_facts; route_finish).
  match goal with u : unit |- _ => destruct u end. eauto.
Qed.

(** X24. [PATCH /api/chatrooms/:id/members/:userId] calls
    [updateChatroomMemberRole], and then for the path's chatroom and user
    with the body's role, exactly when the chatroom exists, the role is
    one of the strings owner, moderator and member, and the caller
    passed the check for that role: [isChatroomOwner] to assign owner,
    [isChatroomModerator] for the other two. *)
Theorem role_change_authorized b id userId user role :
  forall cid uid r,
    In (call_updateChatroomMemberRole cid uid r)
       (fst (patchChatroomMemberRoute b id userId user role))
    <->
    id = Some cid /\ uid = userId /\ r = role
    /\ (exists room, getChatroom b cid = resolved (Some room))
    /\ ((role = js_string "owner" /\ isChatroomOwner b cid user = resolved true)
        \/ ((role = js_string "moderator" \/ role = js_string "member")
            /\ isChatroomModerator b cid user = resolved true)).
Proof.
  intros cid uid r. route_unfold. unfold includes, roles.
  destruct id as [chatroomId|], role as [| |flag|z|s|]; simpl;
    try (destruct (String.eqb_spec s "owner") as [->|Ho];
         [|destruct (String.eqb_spec s "moderator") as [->|Hm];
           [|destruct (String.eqb_spec s "member") as [->|Hb]]]; simpl);
    route_cases;
    (split; intros H; route_facts; route_finish).
Qed.

(** X25. The role a member has is never looked at when it is changed: for
    a new role of moderator or member the handler asks only whether the
    chatroom exists and whether the caller is a moderator, and then
    updates, so a moderator can take the owner's role away. *)
Theorem role_change_ignores_current_role b cid room userId user newRole :
  getChatroom b cid = resolved (Some room) ->
  isChatroomModerator b cid user = resolved true ->
  newRole = "moderator" \/ newRole = "member" ->
  let out := patchChatroomMemberRoute b (Some cid) userId user (js_string newRole) in
  fst out = [call_getChatroom cid; call_isChatroomModerator cid user;
             call_updateChatroomMemberRole cid userId (js_string newRole)]
  /\ (forall member,
        updateChatroomMemberRole b cid userId (js_string newRole) = resolved member ->
        snd out = mkResponse 200 (member_body member)).
Proof.
  intros Hroom Hmod Hrole out. subst out. route_unfold. unfold includes, roles.
  simpl. rewrite Hroom. simpl.
  destruct Hrole as [-> | ->]; simpl; rewrite Hmod; simpl;
    (destruct (updateChatroomMemberRole b cid userId _) as [member|] eqn:Hup; simpl;
     (split; [reflexivity|intros ? [=]; congruence])).
Qed.

Lemma role_change_ignores_current_role_witness :
  let out := patchChatroomMemberRoute demo (Some 7) "A" "M" (js_string "member") in
  getChatroomMember demo 7 "A" = resolved (Some (mkChatroomMember 7 "A" "owner"))
  /\ fst out = [call_getChatroom 7; call_isChatroomModerator 7 "M";
                call_updateChatroomMemberRole 7 "A" (js_string "member")]
  /\ (forall member,
        updateChatroomMemberRole demo 7 "A" (js_string "member") = resolved member ->
        snd out = mkResponse 200 (member_body member)).
Proof.
  intros out. split; [reflexivity|].
  apply (role_change_ignores_current_role demo 7 (mkChatroom 7 "lobby") "A" "M" "member");
    solve [reflexivity | right; reflexivity].
Defined.

(** X26. [POST /api/chatrooms/:id/members] calls [addChatroomMember]
    exactly when the chatroom exists, the member schema accepts the path's
    chatroom id with the body's user id and role ([member] when the role
    is absent or falsy), and, for a truthy role other than [member],
    [isChatroomModerator] resolved to true for the caller; the call
    carries the fields the schema returned. *)
Theorem add_member_authorized b id user userId role :
  forall cid uid r,
    In (call_addChatroomMember cid uid r)
       (fst (postChatroomMemberRoute b id user userId role))
    <->
    exists chatroomId,
      id = Some chatroomId
      /\ (exists room, getChatroom b chatroomId = resolved (Some room))
      /\ (truthy role = false \/ role = js_string "member"
          \/ isChatroomModerator b chatroomId user = resolved true)
      /\ insertChatroomMemberSchema_parse b chatroomId userId (or_default role "member")
         = Some (mkInsertChatroomMember cid uid r).
Proof.
  intros cid uid r. route_unfold. unfold or_default.
  destruct id as [chatroomId|]; simpl; [|split; intros H; route_facts; route_finish].
  destruct (getChatroom b chatroomId) as [[room|]|] eqn:Hroom; simpl;
    [|split; intros H; route_facts; route_finish..].
  destruct (truthy role) eqn:Htruthy; simpl.
  - destruct role as [| |flag|z|s|]; simpl in *; try discriminate;
      try (destruct (String.eqb_spec s "member") as [->|Hs]; simpl);
      try (destruct (isChatroomModerator b chatroomId user) as [[|]|] eqn:Hmod; simpl);
      try (destruct (insertChatroomMemberSchema_parse b chatroomId userId _)
             as [[c u r']|] eqn:Hparse; simpl);
      try (destruct (addChatroomMember b c u r'); simpl);
      (split; intros H; route_facts; route_finish;
       try solve [eexists; repeat split; eauto]).
  - destruct (insertChatroomMemberSchema_parse b chatroomId userId _)
      as [[c u r']|] eqn:Hparse; simpl;
      try (destruct (addChatroomMember b c u r'); simpl);
      (split; intros H; route_facts; route_finish;
       try solve [eexists; repeat split; eauto]).
Qed.

(** X27. Adding a member never asks whether the caller owns the chatroom
    and never looks the new member up; it asks whether the caller is a
    moderator only for a truthy role other than [member].  So no role of
    the caller is checked when a plain member is added, and ownership is
    checked for no role at all, [owner] included. *)
Theorem add_member_checks b id user userId role :
  Forall (post_member_may_call role) (fst (postChatroomMemberRoute b id user userId role)).
Proof.
  route_unfold. unfold or_default.
  destruct id as [chatroomId|]; simpl; [|constructor].
  destruct role as [| |flag|z|s|]; simpl;
    try (destruct (String.eqb_spec s "member") as [->|Hs]; simpl);
    route_cases; repeat constructor; simpl; try congruence;
    route_facts; try congruence;
    match goal with
    | H : ?x = false |- negb ?x = true => now rewrite H
    | H : ?x <> ?y |- negb (?x =? ?y)%string = true =>
        apply negb_true_iff; now apply String.eqb_neq
    end.
Qed.

(** X28. [POST /api/chatrooms/:id/personas] calls [addPersonaToChatroom]
    exactly when [isChatroomModerator] resolved to true for the caller
    and the body's persona id is a number other than 0.  The permission
    is checked before the body, and the chatroom itself is never looked
    up. *)
Theorem add_persona_authorized b id user personaId :
  let out := postChatroomPersonaRoute b id user personaId in
  (forall cid p,
     In (call_addPersonaToChatroom cid p) (fst out) <->
     id = Some cid /\ p = personaId
     /\ isChatroomModerator b cid user = resolved true
     /\ exists z, personaId = js_number z /\ z <> 0)
  /\ Forall (fun c => forall cid, c <> call_getChatroom cid) (fst out)
  /\ (forall cid, id = Some cid -> isChatroomModerator b cid user = resolved false ->
                  status (snd out) = 403).
Proof.
  intros out. subst out. route_unfold.
  destruct id as [chatroomId|]; simpl.
  2:{ split; [intros cid p; split; intros H; route_facts; route_finish|].
      split; [constructor|intros ? [=]]. }
  destruct (isChatroomModerator b chatroomId user) as [[|]|] eqn:Hmod; simpl.
  2,3: (split; [intros cid p; split; intros H; route_facts; route_finish|];
        split; [repeat constructor; intros ? [=]|intros ? [= <-] ?; congruence]).
  destruct personaId as [| |flag|z|s|]; simpl;
    try (destruct flag; simpl); try (destruct (String.eqb s ""); simpl);
    try (destruct (Z.eqb_spec z 0) as [->|Hz]; simpl;
         [|destruct (addPersonaToChatroom b chatroomId (js_number z)); simpl]);
    (split; [intros cid p; split; intros H; route_facts; route_finish;
             try solve [repeat split; eauto]
            |split; [repeat constructor; intros ? [=]|intros ? [= <-] ?; congruence]]).
Qed.

End RouteFacts.

(** * Whom a Discord sign-in resolves to (server/discordAuth.ts) *)

Section DiscordFacts.

Import DiscordAuth.

Lemma has_email_spec e u : has_email e u = true <-> stored_email u = Some e.
Proof.
  unfold has_email. destruct (stored_email u) as [e'|]; [|split; discriminate].
  rewrite String.eqb_eq. split; [now intros ->|now intros [= ->]].
Qed.

(** X29. Accounts are matched by email alone.  When the Discord profile
    carries a non-empty email that a stored user has, the callback
    resolves to the first such user in the order of [getAllUsers],
    whatever that user's id or provider, and writes nothing. *)
Theorem discord_matches_by_email b profile e users :
  or_null (profile_email profile) = Some e ->
  getAllUsers b = Routes.resolved users ->
  (exists u, In u users /\ stored_email u = Some e) ->
  exists existing,
    verify b profile = ([call_getAllUsers], done_user existing)
    /\ List.find (has_email e) users = Some existing
    /\ In existing users
    /\ stored_email existing = Some e.
Proof.
  intros He Hall (u & Hin & Hu). unfold verify. rewrite He, Hall.
  destruct (List.find (has_email e) users) as [existing|] eqn:Hfind.
  - exists existing. apply find_some in Hfind as Hex. destruct Hex as [Hin' He'].
    apply has_email_spec in He'. now repeat split.
  - apply (find_none _ _ Hfind) in Hin. apply has_email_spec in Hu. congruence.
Qed.

Lemma discord_matches_by_email_witness :
  exists existing,
    verify demo (mkProfile "d-9" (Some "ann@example.org") (Some "ann") None) =
      ([call_getAllUsers], done_user existing)
    /\ List.find (has_email "ann@example.org")
         [mkStoredUser "g-1" (Some "ann@example.org") "google"] = Some existing
    /\ In existing [mkStoredUser "g-1" (Some "ann@example.org") "google"]
    /\ stored_email existing = Some "ann@example.org".
Proof.
  apply (discord_matches_by_email demo
           (mkProfile "d-9" (Some "ann@example.org") (Some "ann") None)
           "ann@example.org" [mkStoredUser "g-1" (Some "ann@example.org") "google"]);
    [reflexivity|reflexivity|].
  exists (mkStoredUser "g-1" (Some "ann@example.org") "google").
  split; [now left|reflexivity].
Defined.

(** X30. [upsertUser] is called exactly when no stored user was matched:
    the profile has no email or an empty one, in which case the user
    table is not read at all, or [getAllUsers] resolved and no stored
    user has the profile's email.  The row written has the Discord id as
    id, provider discord, no last name, and the avatar's CDN address or
    none. *)
Theorem discord_upsert_when_unmatched b profile :
  forall info,
    In (call_upsertUser info) (fst (verify b profile)) <->
    info = userInfo_of profile
    /\ match or_null (profile_email profile) with
       | None => fst (verify b profile) = [call_upsertUser info]
       | Some e => exists users, getAllUsers b = Routes.resolved users
                     /\ Forall (fun u => stored_email u <> Some e) users
       end.
Proof.
  intros info. unfold verify.
  destruct (or_null (profile_email profile)) as [e|] eqn:He.
  - destruct (getAllUsers b) as [users|] eqn:Hall.
    + destruct (List.find (has_email e) users) as [existing|] eqn:Hfind; simpl.
      * split; [intros [[=]|[]]|].
        intros (_ & users' & [= <-] & Hnone).
        apply find_some in Hfind as [Hin Hhas]. apply has_email_spec in Hhas.
        rewrite List.Forall_forall in Hnone. now destruct (Hnone existing Hin).
      * split.
        -- intros [[=]|[[= <-]|[]]]. split; [reflexivity|]. exists users.
           split; [reflexivity|]. apply List.Forall_forall. intros u Hin Hu.
           apply (find_none _ _ Hfind) in Hin. apply has_email_spec in Hu. congruence.
        -- intros (-> & _). right. now left.
    + simpl. split; [intros [[=]|[]]|]. now intros (_ & users & [=] & _).
  - simpl. split.
    + intros [[= <-]|[]]. now split.
    + intros (-> & _). now left.
Qed.

End DiscordFacts.
